(* ===== verification/_CoqProject ===== *)
-Q . S2P
Prelude.v
Number.v
NumberText.v
Float.v
Json.v
Headers.v
Http.v
Modules.v
Inspect.v
Promise.v
Faucet.v
Adapter.v
