(* ===== verification/Prelude.v ===== *)
(** * A verification development for the story-node faucet script

    The repository is one Node.js script, [src/index.js] (26 lines).  It
    builds a JSON payload (lines 4-9) and a header object (lines 11-21),
    sends one HTTP POST to a fixed URL (line 3) through [axios.post]
    (lines 23-24), and reports the outcome through a promise chain:
    [.then(response => console.log(response.data))] (line 25) and
    [.catch(error => console.error("Error:", error))] (line 26).

    The script is glue between parts of the JavaScript platform,
    and its correctness is a property of how it composes them.  The
    development models each part as the script uses it and proves what
    the script promises about the request it sends and what it prints.

    Plan of the library (files in dependency order):
    - [Prelude]   (this file): the [js_scope] notations, the [faucet]
      hint databases, tactics, and the lemmas on strings, ASCII
      characters and lists that the other files share.
    - [Number]    the JavaScript Number values JSON carries: IEEE-754
      doubles (sign, integer significand, binary exponent), the
      correctly rounded conversion of a decimal (round to nearest, ties
      to even, subnormals, overflow to Infinity), the JSON number
      grammar that [JSON.parse] reads, and Number::toString (the
      shortest digit string that reads back as the same double, laid
      out in its four forms).
    - [NumberText] the lemmas on those texts, ending in the round trip
      of Number::toString through the number grammar.
    - [Float]     the double arithmetic (division, subtraction, product,
      [Math.sqrt], [Math.round], [Math.floor], [Math.max]) that Node's
      [util.inspect] uses to lay arrays out in columns.
    - [Json]      the JSON values the script sends and receives, the
      serializer that [axios] applies to the request body
      ([JSON.stringify]: QuoteJSONString, SerializeJSONObject,
      SerializeJSONArray, OrdinaryOwnPropertyKeys), the parser that it
      applies to the response body ([JSON.parse], with its numbers
      read as doubles), and the round trip.
    - [Headers]   the header object of lines 11-21 as an ordered
      association list, the case-insensitive header store that axios
      builds from it ([AxiosHeaders.set] with and without rewrite), the
      adapter defaults it adds, and the HTTP/1.1 wire form of the block.
    - [Http]      what the http adapter and Node's ClientRequest make of
      the request: [new URL(url)] (the WHATWG basic URL parser for
      special schemes with a domain host: scheme, host, port state with
      the default port dropped, path, query, fragment), the request
      path ([pathname + search]), the [Host] and [Connection] headers
      ClientRequest adds after the set ones, the request line, and the
      UTF-8 byte length axios sends as [Content-Length].
    - [Modules]   line 1, [require("axios")], as Node 20's CommonJS loader
      resolves it: [Module._nodeModulePaths] (its backward character
      scan), the global folders, [trySelf] with [readPackageScope],
      [Module._findPath] with [resolveExports] and
      [packageExportsResolve] (conditions, sugar, arrays, invalid
      targets), [tryFile], [tryExtensions], [tryPackage], and the
      [MODULE_NOT_FOUND] error, over a file system given as a list of
      files and their contents.
    - [Inspect]   Node's [util.inspect], which formats what line 25
      prints: [formatValue], [formatRaw], [formatPrimitive],
      [formatArray], [formatProperty], [groupArrayElements] and
      [reduceToSingleString] with the default options (depth 2, lines
      of 80 columns, [compact] 3), the context object they share and
      mutate ([indentationLvl], [currentDepth]) threaded as state.
    - [Promise]   the ECMAScript promise machine that lines 23-26 drive:
      promise records with their reactions, [then] (PerformPromiseThen),
      resolve/reject with TriggerPromiseReactions, the job queue
      (NewPromiseReactionJob), the host's settlement of the request
      promise, and the event loop as a step relation on a state with an
      executable fuelled runner.
    - [Faucet]    the script itself: its constants, the request it
      builds and the bytes it writes on the socket, the two handlers,
      the whole program with line 1 ([program]), the whole run, and the end-to-end
      theorems (payload and header contents, success and failure
      output, exactly one request, exit status 0).
    - [Adapter]   the response stream of axios' http adapter: the
      [Content-Encoding] switch (gzip, x-gzip, compress, x-compress,
      deflate with [ZlibHeaderTransformStream], br; none for [HEAD] or
      204), a decompressor's error rejecting the request, the bytes read
      as text, composed with the script's run ([exchange_run]).

    Theorems (C1-C16), by what they show of the script:
    - the request ([Faucet]): the body axios sends parses back to the
      payload of lines 4-9 (C1); each of the eight headers of lines
      11-21 is sent with its value, whatever defaults axios merges in
      (C2); the bytes line 24 writes are the request line
      [POST /wallet/request-token HTTP/1.1], the header block with
      [Host: api.story.faucetme.pro], [Content-Length] the byte length of
      the body and the agent's [Connection], then the body (C10).
    - the outcome ([Faucet]): the output and exit status on a 2xx
      response (C3), on any other HTTP status (C4) and on a transport
      failure (C5); one request and one output line on every outcome
      (C6); a 2xx body that is a JSON number prints as Number::toString
      of the double it parses to, so [1.50] prints as [1.5] (C11); a 2xx
      body that is not JSON prints verbatim (C12).
    - the event loop ([Faucet] over [Promise]): exit status 0 on every
      run of the step relation (C7, from the invariant
      [Promise.chain_inv]: no rejection is left unhandled); exactly one
      request in every reachable state (C8); every run ends within four
      steps, with status 0 (C9).
    - line 1 ([Modules], [Faucet]): with axios 1.x installed, [require]
      loads the CommonJS build [dist/node/axios.cjs] of the nearest
      [node_modules] that has it (C13); where axios is installed nowhere
      the script can see (the repository has no package.json and no
      node_modules), the program sends nothing, prints the first line of
      the [MODULE_NOT_FOUND] error and exits with status 1 (C14); with
      axios installed, a 2xx answer is printed and the process exits with
      status 0, from line 1 to line 26 (C15).
    - the response stream ([Adapter]): a zstd answer, which the
      script's [Accept-Encoding] invites, is not decompressed, fails
      JSON.parse and is printed as undecoded bytes (C16).

    Fuel and bounds: Number::toString tries digit counts from 1 up to
    [max_digits] (800): the exact decimal expansion of a double has at
    most 767 significant digits and always reads back, so the search
    never runs out.  [JSON.parse] is given [S (length s)] units of fuel,
    and [Json.jneed_le_length] proves this is enough for every text
    [JSON.stringify] produces (the request body of C1).  The script's
    run needs four event-loop steps (two reaction jobs, the host
    settlement, the exit); the end-to-end theorems hold for every fuel
    of at least 4, and C7 and C8 are stated on the step relation, with
    no fuel at all.

    util.inspect's recursion is bounded by its own depth limit: the
    number of levels still to expand, [depth + 1 - recurseTimes], is the
    decreasing argument of [Inspect.format_value], with no fuel.

    Not modelled: the TCP/TLS transport and the remote server (their
    outcome is an input of the model, any status and body or any
    failure); of line 1, running the file [require] resolves (it is
    taken to be the axios the other files model), the module cache,
    symbolic links, and export targets with [%] or [\] (the result
    [Unsupported]); the zlib and brotli decompressors and UTF-8
    decoding, which [Adapter] takes as parameters because strings of
    the model have 8-bit code units; for the same reason, what needs
    code units above 00FF: a [\uXXXX] escape above [00FF] in a response
    (the model's JSON.parse fails there and the body prints raw), the
    byte order mark that the adapter's [stripBOM] removes, and UTF-8
    lengths of three and four bytes; header values other than strings
    (axios' [set] treats an [undefined] value apart); URLs
    outside the subset [Http.parse_url] reads (percent-encoding, IDNA,
    IP-address hosts, credentials, dot segments), for which it answers
    [UrlUnsupported] rather than a guess; thenable resolution values
    (the handlers return [undefined]), and Node's [util.inspect] beyond
    what it does for JSON data (an error object prints as the first line
    of its stack, [name: message], without its stack frames and its
    own properties; colours and inspect's budget counters are left
    out). *)

From Stdlib Require Export String Ascii List ZArith Lia Bool.
Export ListNotations.

Declare Scope js_scope.
Delimit Scope js_scope with js.
Open Scope string_scope.

(** ** Characters *)

(** The characters the serializers emit.  A literal double quote cannot
    be written inside a string literal without doubling it, so it is
    built from its code. *)
Definition chr (n : nat) : ascii := ascii_of_nat n.
Definition dquote : ascii := chr 34.
Definition bslash : ascii := chr 92.
Definition CR : ascii := chr 13.
Definition LF : ascii := chr 10.

Notation "c ::: s" := (String c s) (at level 60, right associativity) : js_scope.
Open Scope js_scope.

Definition code (c : ascii) : nat := nat_of_ascii c.

Definition is_digit (c : ascii) : bool := ((48 <=? code c) && (code c <=? 57))%nat.

(** ASCII lower-casing, the map that [String.prototype.toLowerCase]
    computes on the characters of HTTP header names. *)
Definition to_lower_ascii (c : ascii) : ascii :=
  if ((65 <=? code c) && (code c <=? 90))%nat then chr (code c + 32) else c.

Fixpoint to_lower (s : string) : string :=
  match s with
  | EmptyString => EmptyString
  | c ::: s' => to_lower_ascii c ::: to_lower s'
  end.

(** ** Generic lemmas *)

Lemma str_app_assoc (a b c : string) : (a ++ b) ++ c = a ++ (b ++ c).
Proof. induction a as [|x a IH]; simpl; [reflexivity | now rewrite IH]. Qed.

Lemma str_app_nil_r (a : string) : a ++ EmptyString = a.
Proof. induction a as [|x a IH]; simpl; [reflexivity | now rewrite IH]. Qed.

Lemma str_app_cons (c : ascii) (a b : string) : (c ::: a) ++ b = c ::: (a ++ b).
Proof. reflexivity. Qed.

Lemma str_length_app (a b : string) :
  String.length (a ++ b) = String.length a + String.length b.
Proof. induction a as [|x a IH]; simpl; [reflexivity | now rewrite IH]. Qed.

Lemma code_chr (n : nat) : n < 256 -> code (chr n) = n.
Proof. intros H. unfold code, chr. now apply nat_ascii_embedding. Qed.

Lemma chr_code (c : ascii) : chr (code c) = c.
Proof. apply ascii_nat_embedding. Qed.

Lemma code_lt_256 (c : ascii) : code c < 256.
Proof. apply nat_ascii_bounded. Qed.

Lemma code_inj (c d : ascii) : code c = code d -> c = d.
Proof. intros H. rewrite <- (chr_code c), <- (chr_code d), H. reflexivity. Qed.

Lemma to_lower_ascii_idem (c : ascii) :
  to_lower_ascii (to_lower_ascii c) = to_lower_ascii c.
Proof.
  unfold to_lower_ascii.
  destruct ((65 <=? code c) && (code c <=? 90))%nat eqn:E; [|rewrite E; reflexivity].
  apply andb_true_iff in E as [E1 E2].
  apply Nat.leb_le in E1, E2.
  rewrite code_chr by lia.
  replace ((65 <=? code c + 32) && (code c + 32 <=? 90))%nat with false; [reflexivity|].
  symmetry. apply andb_false_iff. right. apply Nat.leb_gt. lia.
Qed.

Lemma to_lower_idem (s : string) : to_lower (to_lower s) = to_lower s.
Proof. induction s as [|c s IH]; simpl; [reflexivity | now rewrite to_lower_ascii_idem, IH]. Qed.

Lemma to_lower_app (a b : string) : to_lower (a ++ b) = to_lower a ++ to_lower b.
Proof. induction a as [|c a IH]; simpl; [reflexivity | now rewrite IH]. Qed.

Lemma string_eqb_refl' (s : string) : String.eqb s s = true.
Proof. apply String.eqb_eq. reflexivity. Qed.

Lemma forallb_map' {A B} (f : B -> bool) (g : A -> B) (l : list A) :
  forallb f (map g l) = forallb (fun x => f (g x)) l.
Proof. induction l as [|x l IH]; simpl; [reflexivity | now rewrite IH]. Qed.

(** Distinctness of a list of strings, as a test. *)
Fixpoint keys_nodup (ks : list string) : bool :=
  match ks with
  | [] => true
  | k :: r => negb (existsb (String.eqb k) r) && keys_nodup r
  end.

Lemma keys_nodup_NoDup (ks : list string) : keys_nodup ks = true -> NoDup ks.
Proof.
  induction ks as [|k r IH]; simpl; intros H; [constructor|].
  apply andb_true_iff in H as [H1 H2]. constructor; [|auto].
  intros Hin. apply negb_true_iff in H1. rewrite <- not_true_iff_false in H1.
  apply H1, existsb_exists. exists k. split; [assumption | apply String.eqb_refl].
Qed.

(** ** Automation *)

Create HintDb faucet.
Create Rewrite HintDb faucet_str.

#[export] Hint Rewrite str_app_assoc str_app_nil_r to_lower_idem to_lower_app : faucet_str.
#[export] Hint Resolve code_lt_256 string_eqb_refl' : faucet.
