(* ===== verification/Number.v ===== *)
(** * JavaScript numbers: the doubles [JSON.parse] reads and prints

    A number in a JSON text becomes an IEEE 754 binary64 value: the
    decimal value of the literal rounded to the nearest double, ties to
    an even significand, and to an infinity beyond the largest finite
    double (ECMA-262 6.1.6.1 and 25.5.1, RoundMVResult).  [util.inspect]
    and [JSON.stringify] print a number with Number::toString (ECMA-262
    6.1.6.1.20): the shortest decimal significand that rounds back to the
    same double, in one of four layouts.

    A finite double is [Fin neg m e], the value (-1)^neg * m * 2^e, kept
    canonical (normal: 2^52 <= m < 2^53; subnormal or zero: m < 2^52 and
    e = -1074), so that two doubles are equal exactly when their
    representations are. *)

From S2P Require Import Prelude.
From Stdlib Require Import DecimalString DecimalN DecimalFacts.

Module Number.

Inductive number :=
| Fin (neg : bool) (m e : Z)
| Inf (neg : bool).

Definition number_eqb (x y : number) : bool :=
  match x, y with
  | Fin n1 m1 e1, Fin n2 m2 e2 => Bool.eqb n1 n2 && Z.eqb m1 m2 && Z.eqb e1 e2
  | Inf n1, Inf n2 => Bool.eqb n1 n2
  | _, _ => false
  end.

(** The representations of the binary64 format. *)
Definition canonical (x : number) : bool :=
  match x with
  | Fin _ m e =>
      ((0 <=? m) && (m <? 2 ^ 53) && (-1074 <=? e) && (e <=? 971)
       && ((2 ^ 52 <=? m) || (e =? -1074)))%Z
  | Inf _ => true
  end.

(** ** Rounding to the nearest double *)

(** [a / b >= 2^L], for [a >= 0] and [b > 0]. *)
Definition ge_pow2 (a b L : Z) : bool :=
  if (0 <=? L)%Z then (b * 2 ^ L <=? a)%Z else (b <=? a * 2 ^ (- L))%Z.

(** The [L] with [2^L <= a / b < 2^(L+1)], for [a, b > 0]: the
    difference of the binary logarithms or one less. *)
Definition binade (a b : Z) : Z :=
  let t := (Z.log2 a - Z.log2 b)%Z in if ge_pow2 a b t then t else (t - 1)%Z.

(** RoundMVResult on the non-negative rational [a / b]: the exponent of
    the last significand bit ([L - 52] for a value in [[2^L, 2^(L+1))],
    never below the subnormal exponent -1074), the quotient at that
    exponent rounded half to even, a carry into the next binade, and
    overflow to an infinity. *)
Definition round_frac (neg : bool) (a b : Z) : number :=
  if (a =? 0)%Z then Fin neg 0 (-1074) else
  let L := binade a b in
  let e := Z.max (L - 52) (-1074) in
  let num := if (0 <=? e)%Z then a else (a * 2 ^ (- e))%Z in
  let den := if (0 <=? e)%Z then (b * 2 ^ e)%Z else b in
  let q := (num / den)%Z in
  let r := (num mod den)%Z in
  let q' := if ((den <? 2 * r) || ((2 * r =? den) && Z.odd q))%Z then (q + 1)%Z else q in
  let m := if (q' =? 2 ^ 53)%Z then (2 ^ 52)%Z else q' in
  let e' := if (q' =? 2 ^ 53)%Z then (e + 1)%Z else e in
  if (971 <? e')%Z then Inf neg else Fin neg m e'.

(** The double nearest to [(-1)^neg * d * 10^p]. *)
Definition decimal_to_double (neg : bool) (d p : Z) : number :=
  if (0 <=? p)%Z then round_frac neg (d * 10 ^ p) 1 else round_frac neg d (10 ^ (- p)).

(** The double nearest to an integer. *)
Definition of_Z (n : Z) : number := decimal_to_double (n <? 0)%Z (Z.abs n) 0.

(** ** Decimal digits *)

(** The decimal digits of a natural number, as [N.to_uint] writes them. *)
Definition digits_of_N (n : N) : string := NilEmpty.string_of_uint (N.to_uint n).

(** Number::toString on an integer: its decimal digits, with a leading
    minus sign when it is negative. *)
Definition number_to_string (z : Z) : string :=
  match z with
  | Z0 => "0"
  | Zpos p => digits_of_N (Npos p)
  | Zneg p => "-" ++ digits_of_N (Npos p)
  end.

(** The longest prefix of decimal digits, and what follows it. *)
Fixpoint lex_digits (s : string) : string * string :=
  match s with
  | c ::: r => if is_digit c then let '(d, rest) := lex_digits r in (c ::: d, rest)
               else (EmptyString, s)
  | EmptyString => (EmptyString, EmptyString)
  end.

(** The value of a string of decimal digits, read from the left. *)
Fixpoint digits_acc (acc : Z) (s : string) : Z :=
  match s with
  | EmptyString => acc
  | c ::: r => digits_acc (acc * 10 + Z.of_nat (code c - 48)) r
  end.

Definition digits_value (s : string) : Z := digits_acc 0 s.

(** ** Reading a number literal *)

(** The JSON number grammar: [-]? ([0] | [1-9][0-9]* ) ([.][0-9]+)?
    ([eE][+-]?[0-9]+)?  A literal is its sign, the integer [d] of its
    significant digits and the power of ten [p] they are scaled by. *)
Definition lex_frac (s : string) : option (string * string) :=
  match s with
  | c ::: r =>
      if Nat.eqb (code c) 46 then
        match lex_digits r with
        | (EmptyString, _) => None
        | (ds, rest) => Some (ds, rest)
        end
      else Some (EmptyString, s)
  | EmptyString => Some (EmptyString, EmptyString)
  end.

Definition lex_exp (s : string) : option (Z * string) :=
  match s with
  | c ::: r =>
      if (Nat.eqb (code c) 101 || Nat.eqb (code c) 69)%bool then
        let '(neg, r') := match r with
                          | d ::: r'' => if Nat.eqb (code d) 45 then (true, r'')
                                         else if Nat.eqb (code d) 43 then (false, r'')
                                         else (false, r)
                          | EmptyString => (false, r)
                          end in
        match lex_digits r' with
        | (EmptyString, _) => None
        | (ds, rest) => Some (if neg then (- digits_value ds)%Z else digits_value ds, rest)
        end
      else Some (0%Z, s)
  | EmptyString => Some (0%Z, EmptyString)
  end.

(** The literal after its optional minus sign. *)
Definition lex_unsigned (neg : bool) (s1 : string) : option (bool * Z * Z * string) :=
  match s1 with
  | c ::: r1 =>
      if negb (is_digit c) then None else
      let '(int, r2) := if Nat.eqb (code c) 48 then ("0", r1) else lex_digits s1 in
      match lex_frac r2 with
      | Some (fr, r3) =>
          match lex_exp r3 with
          | Some (x, r4) =>
              Some (neg, digits_value (int ++ fr), (x - Z.of_nat (String.length fr))%Z, r4)
          | None => None
          end
      | None => None
      end
  | EmptyString => None
  end.

Definition lex_number (s : string) : option (bool * Z * Z * string) :=
  match s with
  | c ::: r => if Nat.eqb (code c) 45 then lex_unsigned true r else lex_unsigned false s
  | EmptyString => None
  end.

(** A number literal at the start of [s]: its double and the rest. *)
Definition parse_number (s : string) : option (number * string) :=
  match lex_number s with
  | Some (neg, d, p, rest) => Some (decimal_to_double neg d p, rest)
  | None => None
  end.

(** ** Number::toString *)

(** The number of decimal digits of a positive integer. *)
Definition ndigits (a : Z) : Z := Z.of_nat (String.length (digits_of_N (Z.to_N a))).

(** [a / b >= 10^t], for [a >= 0] and [b > 0]. *)
Definition ge_pow10 (a b t : Z) : bool :=
  if (0 <=? t)%Z then (b * 10 ^ t <=? a)%Z else (b <=? a * 10 ^ (- t))%Z.

(** The [n] with [10^(n-1) <= a / b < 10^n], for [a, b > 0]. *)
Definition decimal_exponent (a b : Z) : Z :=
  let t := (ndigits a - ndigits b)%Z in if ge_pow10 a b t then (t + 1)%Z else t.

(** The exact value [m * 2^e] of a finite double as a fraction. *)
Definition frac_of (m e : Z) : Z * Z :=
  if (0 <=? e)%Z then ((m * 2 ^ e)%Z, 1%Z) else (m, (2 ^ (- e))%Z).

(** The significands of [k] digits around the positive value [a / b]
    (whose decimal exponent is [n]): the two integers [lo] and [lo + 1]
    around [a / b * 10^(k-n)].  Among those that round back to [x], the
    closer one, the even one on a tie.  A carry to [10^k] is written
    with one digit less and the next exponent.  The result is the
    significand [s] and the power of ten [p] of its last digit. *)
Definition candidate (x : number) (a b n k : Z) : option (Z * Z) :=
  let A := if (0 <=? k - n)%Z then (a * 10 ^ (k - n))%Z else a in
  let B := if (0 <=? k - n)%Z then b else (b * 10 ^ (n - k))%Z in
  let lo := (A / B)%Z in
  let r := (A mod B)%Z in
  let p := (n - k)%Z in
  let hi := if (lo + 1 =? 10 ^ k)%Z then ((10 ^ (k - 1))%Z, (p + 1)%Z) else ((lo + 1)%Z, p) in
  let lo_ok := number_eqb (decimal_to_double false lo p) x in
  let hi_ok := number_eqb (decimal_to_double false (fst hi) (snd hi)) x in
  if lo_ok && hi_ok then
    if (2 * r <? B)%Z then Some (lo, p)
    else if (B <? 2 * r)%Z then Some hi
    else if Z.even lo then Some (lo, p) else Some hi
  else if lo_ok then Some (lo, p)
  else if hi_ok then Some hi
  else None.

(** The least number of digits [k] with a significand that rounds back
    to [x], tried upwards from [k]. *)
Fixpoint shortest (fuel : nat) (x : number) (a b n k : Z) : option (Z * Z) :=
  match fuel with
  | O => None
  | S f =>
      match candidate x a b n k with
      | Some c => Some c
      | None => shortest f x a b n (k + 1)
      end
  end.

Fixpoint zeros (j : nat) : string :=
  match j with O => EmptyString | S j' => "0" ++ zeros j' end.

(** The digits after the first one in the exponential form, behind a
    decimal point when there are any. *)
Definition point_part (rest : string) : string :=
  match rest with EmptyString => EmptyString | _ => "." ++ rest end.

(** Steps 6-10 of Number::toString: the digits of [s] ([k] of them)
    with the decimal exponent [n = p + k]: an integer up to 21 digits, a
    decimal point inside the digits, a fraction [0.000ddd] down to six
    zeros, or the exponential form. *)
Definition layout (s p : Z) : string :=
  let ds := digits_of_N (Z.to_N s) in
  let k := Z.of_nat (String.length ds) in
  let n := (p + k)%Z in
  if ((k <=? n) && (n <=? 21))%Z then ds ++ zeros (Z.to_nat (n - k))
  else if ((0 <? n) && (n <=? 21))%Z then
    substring 0 (Z.to_nat n) ds ++ "." ++ substring (Z.to_nat n) (Z.to_nat (k - n)) ds
  else if ((-6 <? n) && (n <=? 0))%Z then "0." ++ zeros (Z.to_nat (- n)) ++ ds
  else
    let es := (if (n - 1 <? 0)%Z then "-" else "+") ++ number_to_string (Z.abs (n - 1)) in
    match ds with
    | c ::: rest => c ::: point_part rest ++ "e" ++ es
    | EmptyString => "e" ++ es
    end.

(** The digit counts tried: a double's exact decimal expansion has at
    most 767 significant digits, so the search ends before this bound
    and the exact expansion after it is never used. *)
Definition max_digits : nat := 800.

(** Number::toString(x), radix 10. *)
Definition to_string (x : number) : string :=
  match x with
  | Inf false => "Infinity"
  | Inf true => "-Infinity"
  | Fin neg m e =>
      if (m =? 0)%Z then "0" else
      let '(a, b) := frac_of m e in
      (if neg then "-" else EmptyString) ++
      match shortest max_digits (Fin false m e) a b (decimal_exponent a b) 1 with
      | Some (s, p) => layout s p
      | None => if (0 <=? e)%Z then layout (m * 2 ^ e) 0 else layout (m * 5 ^ (- e)) e
      end
  end.

(** ** Helpers of the proofs *)

(** A string of decimal digits. *)
Fixpoint all_digits (s : string) : bool :=
  match s with
  | EmptyString => true
  | c ::: r => is_digit c && all_digits r
  end.

(** What may follow a number's text without extending it. *)
Definition delim (t : string) : bool :=
  match t with
  | EmptyString => true
  | c ::: _ => negb (is_digit c || Nat.eqb (code c) 46 || Nat.eqb (code c) 101 || Nat.eqb (code c) 69)
  end.

(** A double with its sign replaced. *)
Definition with_sign (neg : bool) (x : number) : number :=
  match x with Fin _ m e => Fin neg m e | Inf _ => Inf neg end.

(** A double whose text reads back as itself: finite and not negative
    zero (Number::toString writes -0 as 0). *)
Definition exact_text (x : number) : bool :=
  match x with Fin neg m _ => negb neg || negb (m =? 0)%Z | Inf _ => false end.

(** [le2 X Y d]: [X * 2^d <= Y], both sides kept integral. *)
Definition le2 (X Y d : Z) : Prop := (X * 2 ^ Z.max d 0 <= Y * 2 ^ Z.max (- d) 0)%Z.

(** ** Lemmas: scaled comparisons *)

Section Rounding.
Local Open Scope Z_scope.

Lemma pow2_pos (k : Z) : 0 <= k -> 0 < 2 ^ k.
Proof. intros Hk. apply Z.pow_pos_nonneg; lia. Qed.

Lemma le2_norm (X Y i j : Z) : 0 <= i -> 0 <= j -> X * 2 ^ i <= Y * 2 ^ j <-> le2 X Y (i - j).
Proof.
  intros Hi Hj. unfold le2.
  destruct (Z.le_gt_cases 0 (i - j)) as [Hd|Hd].
  - rewrite (Z.max_l (i - j) 0), (Z.max_r (- (i - j)) 0), Z.pow_0_r, Z.mul_1_r by lia.
    replace (X * 2 ^ i) with (X * 2 ^ (i - j) * 2 ^ j)
      by (rewrite <- Z.mul_assoc, <- Z.pow_add_r by lia; f_equal; f_equal; lia).
    symmetry. apply Z.mul_le_mono_pos_r, pow2_pos. exact Hj.
  - rewrite (Z.max_r (i - j) 0), (Z.max_l (- (i - j)) 0), Z.pow_0_r, Z.mul_1_r by lia.
    replace (Y * 2 ^ j) with (Y * 2 ^ (- (i - j)) * 2 ^ i)
      by (rewrite <- Z.mul_assoc, <- Z.pow_add_r by lia; f_equal; f_equal; lia).
    symmetry. apply Z.mul_le_mono_pos_r, pow2_pos. exact Hi.
Qed.

Lemma le2_mono (X Y d d' : Z) : 0 <= X -> d' <= d -> le2 X Y d -> le2 X Y d'.
Proof.
  intros HX Hd H. remember (Z.max (- d') 0) as K eqn:EK.
  assert (HK : 0 <= K /\ - d' <= K) by lia.
  replace d' with (d' + K - K) by lia. apply (proj1 (le2_norm X Y (d' + K) K ltac:(lia) ltac:(lia))).
  replace d with (d + K - K) in H by lia. apply (proj2 (le2_norm X Y (d + K) K ltac:(lia) ltac:(lia))) in H.
  eapply Z.le_trans; [|exact H]. apply Z.mul_le_mono_nonneg_l; [exact HX|]. apply Z.pow_le_mono_r; lia.
Qed.

(** The binary exponent of a positive fraction is unique. *)
Lemma le2_unique (X Y L1 L2 : Z) : 0 <= X ->
  le2 X Y L1 -> ~ le2 X Y (L1 + 1) -> le2 X Y L2 -> ~ le2 X Y (L2 + 1) -> L1 = L2.
Proof.
  intros HX H1 H1' H2 H2'. destruct (Z.lt_total L1 L2) as [Hl|[Hl|Hl]]; [|exact Hl|].
  - exfalso. apply H1'. exact (le2_mono X Y L2 (L1 + 1) HX ltac:(lia) H2).
  - exfalso. apply H2'. exact (le2_mono X Y L1 (L2 + 1) HX ltac:(lia) H1).
Qed.

Lemma ge_pow2_le2 (a b L : Z) : ge_pow2 a b L = true <-> le2 b a L.
Proof.
  unfold ge_pow2, le2. destruct (0 <=? L) eqn:E.
  - apply Z.leb_le in E. rewrite (Z.max_l L 0), (Z.max_r (- L) 0), Z.pow_0_r, Z.mul_1_r by lia.
    apply Z.leb_le.
  - apply Z.leb_gt in E. rewrite (Z.max_r L 0), (Z.max_l (- L) 0), Z.pow_0_r, Z.mul_1_r by lia.
    apply Z.leb_le.
Qed.

Lemma binade_spec (a b : Z) : 0 < a -> 0 < b -> le2 b a (binade a b) /\ ~ le2 b a (binade a b + 1).
Proof.
  intros Ha Hb. pose proof (Z.log2_spec a Ha) as [Ha1 Ha2]. pose proof (Z.log2_spec b Hb) as [Hb1 Hb2].
  pose proof (Z.log2_nonneg a). pose proof (Z.log2_nonneg b).
  rewrite Z.pow_succ_r in Ha2, Hb2 by lia.
  pose proof (pow2_pos (Z.log2 a) ltac:(lia)). pose proof (pow2_pos (Z.log2 b) ltac:(lia)).
  assert (Hlo : le2 b a (Z.log2 a - Z.log2 b - 1)).
  { replace (Z.log2 a - Z.log2 b - 1) with (Z.log2 a - (Z.log2 b + 1)) by lia.
    apply (proj1 (le2_norm b a (Z.log2 a) (Z.log2 b + 1) ltac:(lia) ltac:(lia))). rewrite Z.pow_add_r, Z.pow_1_r by lia.
    apply Z.le_trans with (2 * 2 ^ Z.log2 b * 2 ^ Z.log2 a); [apply Z.mul_le_mono_nonneg_r; lia|].
    replace (a * (2 ^ Z.log2 b * 2)) with (2 * 2 ^ Z.log2 b * a) by ring.
    apply Z.mul_le_mono_nonneg_l; lia. }
  assert (Hhi : ~ le2 b a (Z.log2 a - Z.log2 b + 1)).
  { replace (Z.log2 a - Z.log2 b + 1) with ((Z.log2 a + 1) - Z.log2 b) by lia.
    rewrite <- (le2_norm b a (Z.log2 a + 1) (Z.log2 b) ltac:(lia) ltac:(lia)). rewrite Z.pow_add_r, Z.pow_1_r by lia.
    intros Hc. assert (Hc' : a * 2 ^ Z.log2 b < 2 ^ Z.log2 a * 2 * b).
    { assert (X1 : a * 2 ^ Z.log2 b < 2 * 2 ^ Z.log2 a * 2 ^ Z.log2 b)
        by (apply (proj1 (Z.mul_lt_mono_pos_r _ _ _ H2)); lia).
      assert (X2 : 2 ^ Z.log2 a * 2 * 2 ^ Z.log2 b <= 2 ^ Z.log2 a * 2 * b)
        by (apply Z.mul_le_mono_nonneg_l; lia).
      lia. }
    lia. }
  unfold binade. destruct (ge_pow2 a b (Z.log2 a - Z.log2 b)) eqn:E.
  - apply ge_pow2_le2 in E. split; assumption.
  - split; [exact Hlo|]. replace (Z.log2 a - Z.log2 b - 1 + 1) with (Z.log2 a - Z.log2 b) by lia.
    rewrite <- ge_pow2_le2, E. discriminate.
Qed.

Lemma le2_shift (X Y d K : Z) : 0 <= d + K -> 0 <= K -> (X * 2 ^ (d + K) <= Y * 2 ^ K <-> le2 X Y d).
Proof. intros H1 H2. rewrite le2_norm by lia. replace (d + K - K) with d by lia. reflexivity. Qed.

Lemma le2_shift_r (X Y c L : Z) : 0 <= c -> le2 X (Y * 2 ^ c) L <-> le2 X Y (L - c).
Proof.
  intros Hc. remember (Z.max (- L) 0 + c) as K eqn:EK.
  rewrite <- (le2_shift X (Y * 2 ^ c) L K) by lia. rewrite <- (le2_shift X Y (L - c) (c + K)) by lia.
  replace (L - c + (c + K)) with (L + K) by lia. rewrite (Z.pow_add_r 2 c K) by lia. rewrite Z.mul_assoc. reflexivity.
Qed.

Lemma le2_shift_l (X Y c L : Z) : 0 <= c -> le2 (X * 2 ^ c) Y L <-> le2 X Y (L + c).
Proof.
  intros Hc. remember (Z.max (- L) 0 + c) as K eqn:EK.
  rewrite <- (le2_shift (X * 2 ^ c) Y L K) by lia. rewrite <- (le2_shift X Y (L + c) K) by lia.
  rewrite <- Z.mul_assoc, <- Z.pow_add_r by lia. replace (c + (L + K)) with (L + c + K) by lia. reflexivity.
Qed.

Lemma le2_prop (a b n d L : Z) : 0 < b -> 0 < d -> a * d = b * n -> (le2 b a L <-> le2 d n L).
Proof.
  intros Hb Hd E. unfold le2.
  pose proof (pow2_pos (Z.max L 0) ltac:(lia)). pose proof (pow2_pos (Z.max (- L) 0) ltac:(lia)).
  split; intros Hle; nia.
Qed.

(** The binary exponent of [m * 2^e] written as the fraction [frac_of m e]. *)
Lemma le2_frac (m e L : Z) : le2 (snd (frac_of m e)) (fst (frac_of m e)) L <-> le2 1 m (L - e).
Proof.
  unfold frac_of. destruct (0 <=? e) eqn:E; simpl.
  - apply Z.leb_le in E. apply le2_shift_r. exact E.
  - apply Z.leb_gt in E. rewrite <- (Z.mul_1_l (2 ^ (- e))). rewrite le2_shift_l by lia.
    replace (L + - e) with (L - e) by lia. reflexivity.
Qed.

Lemma le2_log2 (m : Z) : 0 < m -> le2 1 m (Z.log2 m) /\ ~ le2 1 m (Z.log2 m + 1).
Proof.
  intros Hm. pose proof (Z.log2_spec m Hm) as [H1 H2]. pose proof (Z.log2_nonneg m).
  unfold le2. rewrite (Z.max_l (Z.log2 m) 0), (Z.max_r (- Z.log2 m) 0), (Z.max_l (Z.log2 m + 1) 0),
    (Z.max_r (- (Z.log2 m + 1)) 0) by lia.
  rewrite Z.pow_0_r, Z.add_1_r. lia.
Qed.

(** The binade of an exact fraction of [m * 2^e]. *)
Lemma binade_exact (a b m e : Z) : 0 < a -> 0 < b -> 0 < m ->
  a * snd (frac_of m e) = b * fst (frac_of m e) -> binade a b = Z.log2 m + e.
Proof.
  intros Ha Hb Hm E.
  assert (Hd : 0 < snd (frac_of m e)) by (unfold frac_of; destruct (0 <=? e) eqn:He; simpl;
    [lia | apply Z.leb_gt in He; apply pow2_pos; lia]).
  destruct (binade_spec a b Ha Hb) as [H1 H2]. destruct (le2_log2 m Hm) as [H3 H4].
  apply (le2_unique b a); [lia | exact H1 | exact H2 | |].
  - apply (le2_prop a b _ _ _ Hb Hd E), le2_frac. replace (Z.log2 m + e - e) with (Z.log2 m) by lia. exact H3.
  - rewrite (le2_prop a b _ _ _ Hb Hd E), le2_frac. replace (Z.log2 m + e + 1 - e) with (Z.log2 m + 1) by lia.
    exact H4.
Qed.

Lemma canonical_fin (neg : bool) (m e : Z) : canonical (Fin neg m e) = true ->
  0 <= m < 2 ^ 53 /\ -1074 <= e <= 971 /\ (2 ^ 52 <= m \/ e = -1074).
Proof.
  unfold canonical. rewrite !andb_true_iff, orb_true_iff, !Z.leb_le, !Z.ltb_lt, Z.eqb_eq. lia.
Qed.

(** Rounding a fraction whose value is a double gives that double. *)
Lemma round_frac_exact (neg : bool) (a b m e : Z) : 0 < a -> 0 < b -> 0 < m ->
  canonical (Fin neg m e) = true ->
  a * snd (frac_of m e) = b * fst (frac_of m e) -> round_frac neg a b = Fin neg m e.
Proof.
  intros Ha Hb Hm Hc E. destruct (canonical_fin neg m e Hc) as (Hm' & He & Hn).
  pose proof (binade_exact a b m e Ha Hb Hm E) as HL.
  assert (He' : Z.max (binade a b - 52) (-1074) = e).
  { rewrite HL. destruct (Z.lt_ge_cases m (2 ^ 52)) as [Hs|Hs].
    - assert (Z.log2 m < 52) by (apply (proj1 (Z.log2_lt_pow2 m 52 Hm)); exact Hs). lia.
    - rewrite (Z.log2_unique m 52) by lia. lia. }
  unfold round_frac. replace (a =? 0) with false by (symmetry; apply Z.eqb_neq; lia). cbv zeta.
  rewrite He'. unfold frac_of in E. revert E.
  assert (Hq : forall num den, 0 < den -> num = m * den ->
            (let q := num / den in let r := num mod den in
             let q' := if (den <? 2 * r) || ((2 * r =? den) && Z.odd q) then q + 1 else q in
             let m' := if q' =? 2 ^ 53 then 2 ^ 52 else q' in
             let e' := if q' =? 2 ^ 53 then e + 1 else e in
             if 971 <? e' then Inf neg else Fin neg m' e') = Fin neg m e).
  { intros num den Hd ->. cbv zeta. rewrite Z.div_mul, Z.mod_mul by lia.
    replace (den <? 2 * 0) with false by (symmetry; apply Z.ltb_ge; lia).
    replace (2 * 0 =? den) with false by (symmetry; apply Z.eqb_neq; lia). cbn [orb andb].
    replace (m =? 2 ^ 53) with false by (symmetry; apply Z.eqb_neq; lia).
    replace (971 <? e) with false by (symmetry; apply Z.ltb_ge; lia). reflexivity. }
  destruct (0 <=? e) eqn:E0; simpl; intros E.
  - apply Z.leb_le in E0. apply Hq; [pose proof (pow2_pos e E0); lia | nia].
  - apply Z.leb_gt in E0. apply Hq; [exact Hb | nia].
Qed.

(** Beyond 2^53 integers round: 2^53 + 1 is read as 2^53. *)
Example of_Z_beyond_safe : of_Z (2 ^ 53 + 1) = of_Z (2 ^ 53).
Proof. vm_compute. reflexivity. Qed.

End Rounding.

End Number.

