(* ===== verification/NumberText.v ===== *)
(** * The text of a number: reading literals and Number::toString

    Lemmas on the decimal texts of [Number]: the digits [N.to_uint]
    writes and their value, the four layouts of Number::toString read
    back by the JSON number grammar, the search for the shortest
    significand, and the round trip of every finite double through its
    text. *)

From S2P Require Import Prelude Number.
From Stdlib Require Import DecimalString DecimalN DecimalFacts.

Module NumberText.

Import Number.

(** ** Lemmas: digit strings *)

Definition nodigit (t : string) : bool :=
  match t with c ::: _ => negb (is_digit c) | EmptyString => true end.

Lemma lex_digits_app (ds t : string) :
  all_digits ds = true -> nodigit t = true -> lex_digits (ds ++ t) = (ds, t).
Proof.
  intros Hd Ht. induction ds as [|c ds IH]; cbn [String.append lex_digits all_digits] in *.
  - destruct t as [|c t]; [reflexivity|]. cbn [nodigit lex_digits] in *.
    apply negb_true_iff in Ht. rewrite Ht. reflexivity.
  - apply andb_true_iff in Hd as [Hc Hd]. rewrite Hc, IH by exact Hd. reflexivity.
Qed.

Lemma digits_acc_app (acc : Z) (s1 s2 : string) :
  digits_acc acc (s1 ++ s2) = digits_acc (digits_acc acc s1) s2.
Proof. revert acc. induction s1 as [|c s1 IH]; intros acc; simpl; [reflexivity | apply IH]. Qed.

Lemma digits_acc_zeros (acc : Z) (j : nat) : digits_acc acc (zeros j) = (acc * 10 ^ Z.of_nat j)%Z.
Proof.
  revert acc. induction j as [|j IH]; intros acc; cbn [zeros String.append digits_acc]; [lia|].
  rewrite IH. rewrite Nat2Z.inj_succ, Z.pow_succ_r by lia. change (code "0" - 48)%nat with 0%nat. ring.
Qed.

Lemma of_uint_acc_digits (l : Decimal.uint) (acc : positive) :
  Z.pos (Pos.of_uint_acc l acc) = digits_acc (Z.pos acc) (NilEmpty.string_of_uint l).
Proof.
  revert acc. induction l as [|l IH|l IH|l IH|l IH|l IH|l IH|l IH|l IH|l IH|l IH]; intros acc;
    cbn [Pos.of_uint_acc NilEmpty.string_of_uint digits_acc]; [reflexivity|..]; rewrite IH; f_equal;
    match goal with |- context [Z.of_nat (code ?c - 48)] =>
      let v := eval vm_compute in (Z.of_nat (code c - 48)) in change (Z.of_nat (code c - 48)) with v end;
    rewrite ?Pos2Z.inj_add, ?Pos2Z.inj_mul; lia.
Qed.

Lemma digits_value_uint (u : Decimal.uint) :
  digits_value (NilEmpty.string_of_uint u) = Z.of_N (N.of_uint u).
Proof.
  unfold digits_value. induction u as [|u IH|u|u|u|u|u|u|u|u|u]; simpl; try reflexivity;
    [exact IH|..]; rewrite <- of_uint_acc_digits; reflexivity.
Qed.

Lemma digits_value_of_N (n : N) : digits_value (digits_of_N n) = Z.of_N n.
Proof. unfold digits_of_N. rewrite digits_value_uint, DecimalN.Unsigned.of_to. reflexivity. Qed.

Lemma to_uint_norm (n : N) : Decimal.unorm (N.to_uint n) = N.to_uint n.
Proof. rewrite <- DecimalN.Unsigned.to_of, DecimalN.Unsigned.of_to. reflexivity. Qed.

(** [N.to_uint] writes no leading zero. *)
Lemma to_uint_D0 (n : N) (u : Decimal.uint) : N.to_uint n = Decimal.D0 u -> u = Decimal.Nil.
Proof.
  intros E. pose proof (to_uint_norm n) as Hn. rewrite E, unorm_D0 in Hn.
  assert (Hne : u = Decimal.Nil \/ u <> Decimal.Nil)
    by (destruct u; [left; reflexivity | right; discriminate ..]).
  destruct Hne as [Hne|Hne]; [exact Hne|].
  pose proof (nb_digits_unorm u Hne) as Hl. rewrite Hn in Hl. simpl in Hl. lia.
Qed.

Lemma to_uint_not_nil (n : N) : N.to_uint n <> Decimal.Nil.
Proof. rewrite <- to_uint_norm. apply unorm_nonnil. Qed.

Lemma all_digits_uint (u : Decimal.uint) : all_digits (NilEmpty.string_of_uint u) = true.
Proof. induction u; simpl; rewrite ?IHu; reflexivity. Qed.

(** The digits of a positive number: a non-empty string of digits whose
    first digit is not 0. *)
Lemma digits_of_pos (n : N) : (0 < n)%N ->
  exists c r, digits_of_N n = c ::: r /\ is_digit c = true /\ code c <> 48 /\ all_digits r = true.
Proof.
  intros Hn. pose proof (all_digits_uint (N.to_uint n)) as Hd. unfold digits_of_N.
  pose proof (to_uint_not_nil n) as Hnil. pose proof (to_uint_D0 n) as H0.
  destruct (N.to_uint n) as [|u|u|u|u|u|u|u|u|u|u] eqn:E; [congruence| |..];
    try (do 2 eexists; split; [reflexivity|]; cbn [NilEmpty.string_of_uint all_digits] in Hd;
         apply andb_true_iff in Hd as [Hc Hd];
         split; [exact Hc | split; [vm_compute; discriminate | exact Hd]]).
  exfalso. rewrite (H0 u eq_refl) in E. assert (n = 0%N); [|lia].
  rewrite <- (DecimalN.Unsigned.of_to n), E. reflexivity.
Qed.

Lemma all_digits_app (s1 s2 : string) : all_digits (s1 ++ s2) = all_digits s1 && all_digits s2.
Proof. induction s1 as [|c s1 IH]; simpl; [reflexivity|]. rewrite IH. apply andb_assoc. Qed.

Lemma all_digits_zeros (j : nat) : all_digits (zeros j) = true.
Proof. induction j; simpl; [reflexivity | exact IHj]. Qed.

Lemma substring_full (s : string) : substring 0 (String.length s) s = s.
Proof. induction s as [|c s IH]; simpl; [reflexivity | now rewrite IH]. Qed.

Lemma substring_split (s : string) (n : nat) : (n <= String.length s)%nat ->
  substring 0 n s ++ substring n (String.length s - n) s = s
  /\ String.length (substring 0 n s) = n
  /\ String.length (substring n (String.length s - n) s) = (String.length s - n)%nat.
Proof.
  revert n. induction s as [|c s IH]; intros n Hn; simpl in Hn.
  - replace n with 0%nat by lia. repeat split; reflexivity.
  - destruct n as [|n].
    + rewrite Nat.sub_0_r, substring_full. repeat split; reflexivity.
    + destruct (IH n ltac:(lia)) as (H1 & H2 & H3). simpl. rewrite H1, H2, H3. repeat split; reflexivity.
Qed.

Lemma delim_nodigit (t : string) : delim t = true -> nodigit t = true.
Proof. destruct t as [|c t]; [reflexivity|]. simpl. destruct (is_digit c); [discriminate | reflexivity]. Qed.

Lemma lex_frac_none (t : string) : delim t = true -> lex_frac t = Some (EmptyString, t).
Proof.
  destruct t as [|c t]; [reflexivity|]. simpl. intros H. unfold lex_frac.
  destruct (code c =? 46)%nat; [rewrite orb_true_r in H; discriminate | reflexivity].
Qed.

Lemma lex_exp_none (t : string) : delim t = true -> lex_exp t = Some (0%Z, t).
Proof.
  destruct t as [|c t]; [reflexivity|]. simpl. intros H. unfold lex_exp.
  destruct (code c =? 101)%nat, (code c =? 69)%nat; rewrite ?orb_true_r in H; try discriminate; reflexivity.
Qed.

Lemma lex_frac_some (fr t : string) : fr <> EmptyString -> all_digits fr = true -> nodigit t = true ->
  lex_frac ("." ::: fr ++ t) = Some (fr, t).
Proof.
  intros Hne Hd Ht. unfold lex_frac. change (Nat.eqb (code ".") 46) with true. cbv iota beta.
  rewrite (lex_digits_app fr t Hd Ht). destruct fr; [contradiction | reflexivity].
Qed.

Lemma lex_exp_some (neg : bool) (n : N) (t : string) : (0 < n)%N -> nodigit t = true ->
  lex_exp ("e" ::: (if neg then "-" else "+") ++ digits_of_N n ++ t)
  = Some (if neg then (- Z.of_N n)%Z else Z.of_N n, t).
Proof.
  intros Hn Ht. destruct (digits_of_pos n Hn) as (c & r & Ed & Hc & _ & Hr).
  assert (Hall : all_digits (digits_of_N n) = true)
    by (rewrite Ed; cbn [all_digits]; rewrite Hc, Hr; reflexivity).
  unfold lex_exp. change (Nat.eqb (code "e") 101) with true. cbv iota beta. cbn [orb].
  destruct neg; cbn [String.append];
    [change (Nat.eqb (code "-") 45) with true | change (Nat.eqb (code "+") 45) with false;
                                                 change (Nat.eqb (code "+") 43) with true];
    cbv iota beta; rewrite (lex_digits_app _ t Hall Ht), Ed; rewrite <- Ed, digits_value_of_N; reflexivity.
Qed.

(** Reading a literal whose integer part [c ::: r] does not start with 0. *)
Lemma lex_unsigned_digits (neg : bool) (c : ascii) (r R : string) :
  is_digit c = true -> code c <> 48 -> all_digits r = true -> nodigit R = true ->
  lex_unsigned neg ((c ::: r) ++ R)
  = match lex_frac R with
    | Some (fr, r3) =>
        match lex_exp r3 with
        | Some (x, r4) => Some (neg, digits_value ((c ::: r) ++ fr), (x - Z.of_nat (String.length fr))%Z, r4)
        | None => None
        end
    | None => None
    end.
Proof.
  intros Hc H48 Hr HR. unfold lex_unsigned. cbn [String.append]. rewrite Hc. cbn [negb].
  replace (code c =? 48)%nat with false by (symmetry; apply Nat.eqb_neq; exact H48).
  change (lex_digits (c ::: r ++ R)) with (lex_digits ((c ::: r) ++ R)).
  rewrite lex_digits_app; [reflexivity | cbn [all_digits]; rewrite Hc, Hr; reflexivity | exact HR].
Qed.

(** Reading a literal whose integer part is 0. *)
Lemma lex_unsigned_zero (neg : bool) (R : string) :
  lex_unsigned neg ("0" ::: R)
  = match lex_frac R with
    | Some (fr, r3) =>
        match lex_exp r3 with
        | Some (x, r4) => Some (neg, digits_value ("0" ++ fr), (x - Z.of_nat (String.length fr))%Z, r4)
        | None => None
        end
    | None => None
    end.
Proof. reflexivity. Qed.

Lemma lex_number_sign (neg : bool) (X : string) (c : ascii) (r : string) :
  X = c ::: r -> is_digit c = true ->
  lex_number ((if neg then "-" else EmptyString) ++ X) = lex_unsigned neg X.
Proof.
  intros -> Hc. destruct neg; [reflexivity|]. cbn [String.append lex_number].
  replace (code c =? 45)%nat with false; [reflexivity|].
  symmetry. apply Nat.eqb_neq. intros E. unfold is_digit in Hc. rewrite E in Hc. discriminate.
Qed.

Lemma lex_frac_other (R : string) (c : ascii) (r : string) :
  R = c ::: r -> code c <> 46 -> lex_frac R = Some (EmptyString, R).
Proof.
  intros -> H. unfold lex_frac. replace (code c =? 46)%nat with false by (symmetry; apply Nat.eqb_neq; exact H).
  reflexivity.
Qed.

Lemma digits_value_zero_prefix (j : nat) (ds : string) : digits_value ("0" ++ zeros j ++ ds) = digits_value ds.
Proof.
  unfold digits_value. cbn [String.append digits_acc]. change (0 * 10 + Z.of_nat (code "0" - 48))%Z with 0%Z.
  rewrite digits_acc_app, digits_acc_zeros. reflexivity.
Qed.

Section Layout.
Variables (s p : Z) (c : ascii) (r : string).
Hypothesis Hds : digits_of_N (Z.to_N s) = c ::: r.
Hypothesis Hc : is_digit c = true.
Hypothesis H48 : code c <> 48.
Hypothesis Hr : all_digits r = true.
Hypothesis Hv : digits_value (c ::: r) = s.


Lemma layout_int (t : string) : delim t = true -> (0 <= p)%Z ->
  forall neg : bool, lex_number ((if neg then "-" else EmptyString) ++ ((c ::: r) ++ zeros (Z.to_nat p)) ++ t)
              = Some (neg, (s * 10 ^ p)%Z, 0%Z, t).
Proof.
  intros Ht Hp neg. rewrite str_app_assoc.
  rewrite (lex_number_sign neg ((c ::: r) ++ zeros (Z.to_nat p) ++ t) c (r ++ zeros (Z.to_nat p) ++ t)
             eq_refl Hc).
  replace ((c ::: r) ++ zeros (Z.to_nat p) ++ t) with ((c ::: r ++ zeros (Z.to_nat p)) ++ t)
    by (cbn [String.append]; now rewrite str_app_assoc).
  rewrite lex_unsigned_digits; try assumption;
    [|rewrite all_digits_app, Hr, all_digits_zeros; reflexivity | apply delim_nodigit, Ht].
  rewrite lex_frac_none, lex_exp_none by exact Ht. rewrite str_app_nil_r.
  unfold digits_value. change (c ::: r ++ zeros (Z.to_nat p)) with ((c ::: r) ++ zeros (Z.to_nat p)).
  rewrite digits_acc_app, digits_acc_zeros. fold (digits_value (c ::: r)). rewrite Hv, Z2Nat.id by lia.
  reflexivity.
Qed.

Lemma layout_point (s1 s2 t : string) : c ::: r = s1 ++ s2 -> s1 <> EmptyString -> s2 <> EmptyString ->
  delim t = true -> forall neg : bool,
  lex_number ((if neg then "-" else EmptyString) ++ s1 ++ "." ::: s2 ++ t)
  = Some (neg, s, (- Z.of_nat (String.length s2))%Z, t).
Proof.
  destruct s1 as [|c1 r1]; [contradiction|]. intros E _ Hs2 Ht neg.
  cbn [String.append] in E. injection E as <- Er.
  rewrite Er, all_digits_app in Hr. apply andb_true_iff in Hr as [Hr1 Hr2].
  rewrite (lex_number_sign neg ((c ::: r1) ++ "." ::: s2 ++ t) c (r1 ++ "." ::: s2 ++ t) eq_refl Hc).
  rewrite lex_unsigned_digits by (assumption || reflexivity).
  rewrite lex_frac_some by (assumption || apply delim_nodigit, Ht). rewrite lex_exp_none by exact Ht.
  change ((c ::: r1) ++ s2) with (c ::: r1 ++ s2). rewrite <- Er, Hv. repeat f_equal.
Qed.

Lemma zeros_length (j : nat) : String.length (zeros j) = j.
Proof. induction j; simpl; [reflexivity | now rewrite IHj]. Qed.

Lemma layout_small (j : nat) (t : string) : delim t = true -> forall neg : bool,
  lex_number ((if neg then "-" else EmptyString) ++ "0" ::: "." ::: (zeros j ++ c ::: r) ++ t)
  = Some (neg, s, (- (Z.of_nat j + Z.of_nat (String.length (c ::: r))))%Z, t).
Proof.
  intros Ht neg. rewrite (lex_number_sign neg _ "0" _ eq_refl eq_refl), lex_unsigned_zero.
  rewrite lex_frac_some.
  - rewrite lex_exp_none by exact Ht. rewrite digits_value_zero_prefix, Hv, str_length_app, zeros_length.
    repeat f_equal. lia.
  - destruct j; discriminate.
  - rewrite all_digits_app, all_digits_zeros. cbn [all_digits]. rewrite Hc, Hr. reflexivity.
  - apply delim_nodigit, Ht.
Qed.

Lemma layout_exp (b : bool) (X : N) (t : string) : (0 < X)%N -> delim t = true -> forall neg : bool,
  lex_number ((if neg then "-" else EmptyString)
              ++ (c ::: point_part r ++ "e" ++ (if b then "-" else "+") ++ digits_of_N X) ++ t)
  = Some (neg, s, ((if b then - Z.of_N X else Z.of_N X) - Z.of_nat (String.length r))%Z, t).
Proof.
  intros HX Ht neg. change ((c ::: ?M) ++ t) with (c ::: (M ++ t)).
  rewrite (lex_number_sign neg _ c _ eq_refl Hc).
  lazymatch goal with |- context [lex_unsigned neg (c ::: ?M)] =>
    change (lex_unsigned neg (c ::: M)) with (lex_unsigned neg ((c ::: EmptyString) ++ M)) end.
  rewrite lex_unsigned_digits by (try assumption; try reflexivity; destruct r; reflexivity).
  rewrite !str_app_assoc. destruct r as [|d r'] eqn:Er.
  - cbn [point_part String.append].
    rewrite (lex_frac_other _ "e" _ eq_refl) by discriminate.
    rewrite lex_exp_some by (exact HX || apply delim_nodigit, Ht).
    cbn [String.append]. rewrite Hv. simpl String.length. repeat f_equal; try lia.
  - change (point_part (d ::: r')) with ("." ::: (d ::: r')).
    change (("." ::: (d ::: r')) ++ ?X) with ("." ::: ((d ::: r') ++ X)).
    rewrite lex_frac_some by (discriminate || exact Hr || reflexivity).
    change ("e" ++ ?X) with ("e" ::: X).
    rewrite lex_exp_some by (exact HX || apply delim_nodigit, Ht).
    cbn [String.append]. rewrite Hv. reflexivity.
Qed.
End Layout.

(** Every text [layout] writes for a positive significand reads back,
    signed or not, as a literal of the same value. *)
Lemma layout_lex (s p : Z) (t : string) : (0 < s)%Z -> delim t = true ->
  exists d x, (forall neg : bool, lex_number ((if neg then "-" else EmptyString) ++ layout s p ++ t)
                                   = Some (neg, d, x, t))
              /\ forall neg : bool, decimal_to_double neg d x = decimal_to_double neg s p.
Proof.
  intros Hs Ht.
  destruct (digits_of_pos (Z.to_N s) ltac:(lia)) as (c & r & Eds & Hc & H48 & Hr).
  assert (Hv : digits_value (c ::: r) = s) by (rewrite <- Eds, digits_value_of_N; lia).
  unfold layout. rewrite Eds. cbv zeta.
  remember (Z.of_nat (String.length (c ::: r))) as k eqn:Ek.
  assert (Hk : (1 <= k)%Z) by (rewrite Ek; simpl; lia).
  destruct ((k <=? p + k) && (p + k <=? 21))%Z eqn:C1.
  - rewrite andb_true_iff, !Z.leb_le in C1. exists (s * 10 ^ p)%Z, 0%Z. split.
    + replace (Z.to_nat (p + k - k)) with (Z.to_nat p) by (f_equal; lia).
      apply (layout_int s p c r); assumption || lia.
    + intros neg. unfold decimal_to_double. rewrite Z.pow_0_r, Z.mul_1_r.
      replace (0 <=? p)%Z with true by (symmetry; apply Z.leb_le; lia). reflexivity.
  - destruct ((0 <? p + k) && (p + k <=? 21))%Z eqn:C2.
    + rewrite andb_true_iff, Z.ltb_lt, Z.leb_le in C2. rewrite andb_false_iff, !Z.leb_gt in C1.
      exists s, p. split; [|reflexivity]. intros neg.
      destruct (substring_split (c ::: r) (Z.to_nat (p + k)) ltac:(lia)) as (Hsp & L1 & L2).
      replace (Z.to_nat (k - (p + k))) with (String.length (c ::: r) - Z.to_nat (p + k))%nat by lia.
      rewrite !str_app_assoc. change ("." ++ ?X) with ("." ::: X).
      rewrite (layout_point s c r Hc H48 Hr Hv); [| symmetry; exact Hsp | | | exact Ht].
      * rewrite L2. repeat f_equal. lia.
      * intros E. rewrite E in L1. cbn [String.length] in L1, Ek. lia.
      * intros E. rewrite E in L2. cbn [String.length] in L2, Ek. lia.
    + destruct ((-6 <? p + k) && (p + k <=? 0))%Z eqn:C3.
      * rewrite andb_true_iff, Z.ltb_lt, Z.leb_le in C3.
        exists s, p. split; [|reflexivity]. intros neg. rewrite !str_app_assoc.
        change ("0." ++ ?X) with ("0" ::: "." ::: X).
        rewrite <- (str_app_assoc (zeros _) (c ::: r) t). rewrite (layout_small s c r Hc H48 Hr Hv) by exact Ht. repeat f_equal. lia.
      * rewrite andb_false_iff, Z.ltb_ge, Z.leb_gt in C3. rewrite andb_false_iff, Z.ltb_ge, Z.leb_gt in C2.
        rewrite andb_false_iff, !Z.leb_gt in C1.
        exists s, p. split; [|reflexivity]. intros neg.
        destruct (Z.abs (p + k - 1)) as [|q|q] eqn:Eq; [lia| |lia].
        change (number_to_string (Z.pos q)) with (digits_of_N (N.pos q)).
        rewrite (layout_exp s c r Eds Hc H48 Hr Hv) by (exact Ht || reflexivity). repeat f_equal.
        destruct (p + k - 1 <? 0)%Z eqn:Es; [apply Z.ltb_lt in Es | apply Z.ltb_ge in Es]; simpl in Ek; lia.
Qed.

(** ** Lemmas: the search and the round trip *)

Section Search.
Local Open Scope Z_scope.

Lemma number_eqb_eq (x y : number) : number_eqb x y = true -> x = y.
Proof.
  destruct x as [n1 m1 e1|n1], y as [n2 m2 e2|n2]; simpl; try discriminate.
  - rewrite !andb_true_iff, Z.eqb_eq, Z.eqb_eq. intros [[H1 ->] ->]. apply Bool.eqb_prop in H1. subst. reflexivity.
  - intros H. apply Bool.eqb_prop in H. subst. reflexivity.
Qed.

Lemma round_frac_sign (neg : bool) (a b : Z) : round_frac neg a b = with_sign neg (round_frac false a b).
Proof.
  unfold round_frac. destruct (a =? 0); [reflexivity|]. cbv zeta.
  match goal with |- context [if 971 <? ?x then _ else _] => destruct (971 <? x) end; reflexivity.
Qed.

Lemma decimal_to_double_sign (neg : bool) (d p : Z) :
  decimal_to_double neg d p = with_sign neg (decimal_to_double false d p).
Proof. unfold decimal_to_double. destruct (0 <=? p); apply round_frac_sign. Qed.

Lemma decimal_to_double_zero (p : Z) : decimal_to_double false 0 p = Fin false 0 (-1074).
Proof. unfold decimal_to_double. destruct (0 <=? p); reflexivity. Qed.

(** A significand the search returns rounds back to the double it was
    looking for. *)
Lemma candidate_spec (x : number) (a b n k s p : Z) : 0 <= a -> 0 < b -> 1 <= k ->
  candidate x a b n k = Some (s, p) -> decimal_to_double false s p = x /\ 0 <= s.
Proof.
  intros Ha Hb Hk. unfold candidate. cbv zeta.
  set (A := if 0 <=? k - n then a * 10 ^ (k - n) else a).
  set (B := if 0 <=? k - n then b else b * 10 ^ (n - k)).
  assert (HAB : 0 <= A /\ 0 < B).
  { unfold A, B. destruct (0 <=? k - n) eqn:E; [apply Z.leb_le in E | apply Z.leb_gt in E].
    - split; [apply Z.mul_nonneg_nonneg; [lia | apply Z.pow_nonneg; lia] | lia].
    - split; [lia | apply Z.mul_pos_pos; [lia | apply Z.pow_pos_nonneg; lia]]. }
  assert (Hlo : 0 <= A / B) by (apply Z.div_pos; lia).
  assert (Hhi : 0 <= fst (if A / B + 1 =? 10 ^ k then (10 ^ (k - 1), n - k + 1) else (A / B + 1, n - k))).
  { destruct (A / B + 1 =? 10 ^ k); simpl; [apply Z.pow_nonneg|]; lia. }
  destruct (if A / B + 1 =? 10 ^ k then (10 ^ (k - 1), n - k + 1) else (A / B + 1, n - k)) as [hs hp] eqn:Eh.
  simpl in Hhi.
  destruct (number_eqb (decimal_to_double false (A / B) (n - k)) x) eqn:E1,
           (number_eqb (decimal_to_double false hs hp) x) eqn:E2; simpl;
    apply number_eqb_eq in E1 || idtac; apply number_eqb_eq in E2 || idtac;
    repeat match goal with |- context [if ?c then _ else _] => destruct c end;
    intros H; first [discriminate | injection H as <- <-; split; assumption].
Qed.

Lemma shortest_spec (fuel : nat) (x : number) (a b n k s p : Z) : 0 <= a -> 0 < b -> 1 <= k ->
  shortest fuel x a b n k = Some (s, p) -> decimal_to_double false s p = x /\ 0 <= s.
Proof.
  revert k. induction fuel as [|f IH]; intros k Ha Hb Hk; simpl; [discriminate|].
  destruct (candidate x a b n k) as [[s' p']|] eqn:E.
  - intros H. injection H as <- <-. exact (candidate_spec x a b n k s' p' Ha Hb Hk E).
  - apply IH; lia.
Qed.

Lemma frac_of_pos (m e : Z) : 0 < m -> 0 < fst (frac_of m e) /\ 0 < snd (frac_of m e).
Proof.
  intros Hm. unfold frac_of. destruct (0 <=? e) eqn:E; simpl; [apply Z.leb_le in E | apply Z.leb_gt in E].
  - split; [apply Z.mul_pos_pos; [lia | apply pow2_pos; lia] | lia].
  - split; [lia | apply pow2_pos; lia].
Qed.

(** The significand and exponent [to_string] prints for a positive
    finite double, and that they round back to it. *)
Lemma to_string_digits (m e : Z) : 0 < m -> canonical (Fin false m e) = true ->
  exists s p, 0 < s /\ decimal_to_double false s p = Fin false m e
    /\ forall neg, to_string (Fin neg m e) = (if neg then "-" else EmptyString) ++ layout s p.
Proof.
  intros Hm Hc. destruct (frac_of_pos m e Hm) as [Ha Hb].
  unfold to_string. replace (m =? 0) with false by (symmetry; apply Z.eqb_neq; lia).
  destruct (frac_of m e) as [a b] eqn:Ef. simpl in Ha, Hb.
  destruct (shortest max_digits (Fin false m e) a b (decimal_exponent a b) 1) as [[s p]|] eqn:Es.
  - destruct (shortest_spec max_digits (Fin false m e) a b (decimal_exponent a b) 1 s p ltac:(lia) Hb ltac:(lia) Es) as [Hd Hs].
    exists s, p. split; [|split; [exact Hd | reflexivity]].
    destruct (Z.eq_dec s 0) as [->|Hs0]; [|lia]. rewrite decimal_to_double_zero in Hd.
    injection Hd as Hd. lia.
  - unfold frac_of in Ef. destruct (0 <=? e) eqn:E0; injection Ef as <- <-.
    + apply Z.leb_le in E0. pose proof (pow2_pos e E0) as H2.
      exists (m * 2 ^ e), 0. split; [apply Z.mul_pos_pos; lia|]. split; [|reflexivity].
      unfold decimal_to_double. simpl. rewrite Z.mul_1_r.
      apply round_frac_exact; [apply Z.mul_pos_pos; lia | lia | exact Hm | exact Hc |]. unfold frac_of.
      replace (0 <=? e) with true by (symmetry; apply Z.leb_le; exact E0). cbn [fst snd]. ring.
    + apply Z.leb_gt in E0. exists (m * 5 ^ (- e)), e.
      assert (H5 : 0 < 5 ^ (- e)) by (apply Z.pow_pos_nonneg; lia).
      split; [apply Z.mul_pos_pos; lia|]. split; [|reflexivity].
      unfold decimal_to_double. replace (0 <=? e) with false by (symmetry; apply Z.leb_gt; exact E0).
      apply round_frac_exact; [apply Z.mul_pos_pos; lia | apply Z.pow_pos_nonneg; lia | exact Hm | exact Hc |].
      unfold frac_of. replace (0 <=? e) with false by (symmetry; apply Z.leb_gt; exact E0). simpl.
      replace (10 ^ (- e)) with (5 ^ (- e) * 2 ^ (- e)) by (rewrite <- Z.pow_mul_l; reflexivity). ring.
Qed.

(** The round trip of a number through its text. *)
Lemma number_text_roundtrip (x : number) (t : string) :
  canonical x = true -> exact_text x = true -> delim t = true -> parse_number (to_string x ++ t) = Some (x, t).
Proof.
  intros Hc Hx Ht. destruct x as [neg m e|]; [|discriminate].
  destruct (canonical_fin neg m e Hc) as (Hm & He & Hn).
  destruct (Z.eq_dec m 0) as [->|Hm0].
  - destruct neg; [discriminate|]. assert (e = -1074) by lia. subst e.
    unfold parse_number. simpl to_string.
    change ("0" ++ t) with ("0" ::: t). unfold lex_number.
    change (Nat.eqb (code "0") 45) with false. rewrite lex_unsigned_zero.
    rewrite lex_frac_none, lex_exp_none by exact Ht. reflexivity.
  - assert (Hc' : canonical (Fin false m e) = true) by (revert Hc; unfold canonical; auto).
    destruct (to_string_digits m e ltac:(lia) Hc') as (s & p & Hs & Hd & Hts).
    rewrite Hts, str_app_assoc. destruct (layout_lex s p t Hs Ht) as (d & x & Hl & Hdx).
    unfold parse_number. rewrite Hl, Hdx, decimal_to_double_sign, Hd. reflexivity.
Qed.

Lemma digits_of_N_head (n : N) : exists c r, digits_of_N n = c ::: r /\ is_digit c = true.
Proof.
  pose proof (all_digits_uint (N.to_uint n)) as Hd. pose proof (to_uint_not_nil n) as Hn.
  unfold digits_of_N. destruct (NilEmpty.string_of_uint (N.to_uint n)) as [|c r] eqn:E.
  - destruct (N.to_uint n); simpl in E; congruence.
  - exists c, r. split; [reflexivity|]. cbn [all_digits] in Hd. apply andb_true_iff in Hd as [Hc _]. exact Hc.
Qed.

(** Every layout starts with a digit. *)
Lemma layout_head (s p : Z) : exists c r, layout s p = c ::: r /\ is_digit c = true.
Proof.
  destruct (digits_of_N_head (Z.to_N s)) as (c & r & E & Hc). unfold layout. rewrite E. cbv zeta.
  set (n := (p + _)%Z).
  destruct ((Z.of_nat _ <=? n) && (n <=? 21))%Z;
    [eexists; eexists; split; [reflexivity | exact Hc]|].
  destruct ((0 <? n) && (n <=? 21))%Z eqn:Hb.
  - apply andb_true_iff in Hb as [Hb _]. apply Z.ltb_lt in Hb.
    destruct (Z.to_nat n) eqn:En; [lia|].
    eexists; eexists; split; [reflexivity | exact Hc].
  - destruct ((-6 <? n) && (n <=? 0))%Z; eexists; eexists; (split; [reflexivity|]); [reflexivity | exact Hc].
Qed.

(** The text of a finite double starts with a minus sign or a digit. *)
Lemma to_string_head (neg : bool) (m e : Z) :
  exists c r, to_string (Fin neg m e) = c ::: r /\ (Ascii.nat_of_ascii c = 45%nat \/ is_digit c = true).
Proof.
  unfold to_string. destruct (m =? 0)%Z; [|destruct (frac_of m e) as [a b]].
  - exists "0"%char, EmptyString. split; [reflexivity | right; reflexivity].
  - destruct neg; [eexists; eexists; split; [reflexivity | left; reflexivity]|].
    cbn [String.append].
    destruct (shortest max_digits (Fin false m e) a b (decimal_exponent a b) 1) as [[s p]|];
      [destruct (layout_head s p) as (c & r & E & Hc) | destruct (0 <=? e)%Z;
       [destruct (layout_head (m * 2 ^ e) 0) as (c & r & E & Hc)
       |destruct (layout_head (m * 5 ^ (- e)) e) as (c & r & E & Hc)]];
      rewrite E; exists c, r; auto.
Qed.

End Search.

End NumberText.
