(* ===== verification/Float.v ===== *)
(** * Double arithmetic: the operations util.inspect computes with

    [groupArrayElements] of Node's [util.inspect] decides how many
    columns an array is laid out in with JavaScript arithmetic on
    Numbers: divisions, subtractions, products, [Math.sqrt],
    [Math.round], [Math.floor], [Math.max] and [Math.min].  Each
    arithmetic operation is IEEE-754 binary64 with rounding to nearest,
    ties to even: the exact result of the operands' values rounded by
    [Number.round_frac].  [Math.sqrt] is the correctly rounded square
    root.  [Math.round] and [Math.floor] are exact on a finite double.

    util.inspect applies these operations to finite values only (string
    lengths and counts); an infinite operand propagates, and NaN, which
    only an infinite operand could produce here, is not a value of
    [number]. *)

From S2P Require Import Prelude Number.

Module Float.

Import Number.

Local Open Scope Z_scope.

(** The exact value of a finite double, [a / b] with [b > 0]. *)
Definition to_frac (x : number) : Z * Z :=
  match x with
  | Fin neg m e => let '(a, b) := frac_of m e in (if neg then - a else a, b)
  | Inf neg => (if neg then -1 else 1, 0)
  end.

(** The double nearest to [a / b], for [b > 0]. *)
Definition of_frac (a b : Z) : number :=
  if a <? 0 then round_frac true (- a) b else round_frac false a b.

(** A binary operation of doubles on finite operands: the exact result
    [f] of the two fractions, rounded once. *)
Definition lift2 (f : Z * Z -> Z * Z -> Z * Z) (x y : number) : number :=
  match x, y with
  | Inf s, _ => Inf s
  | _, Inf s => Inf s
  | _, _ => let '(a, b) := f (to_frac x) (to_frac y) in of_frac a b
  end.

Definition dadd : number -> number -> number :=
  lift2 (fun p q => (fst p * snd q + fst q * snd p, snd p * snd q)).

Definition dsub : number -> number -> number :=
  lift2 (fun p q => (fst p * snd q - fst q * snd p, snd p * snd q)).

Definition dmul : number -> number -> number :=
  lift2 (fun p q => (fst p * fst q, snd p * snd q)).

(** Division by a nonzero finite divisor (the divisors util.inspect uses
    are positive lengths); the sign of the quotient is carried into the
    numerator. *)
Definition ddiv : number -> number -> number :=
  lift2 (fun p q => if fst q <? 0 then (- fst p * snd q, - fst q * snd p)
                    else (fst p * snd q, fst q * snd p)).

(** [x < y] on finite doubles. *)
Definition dlt (x y : number) : bool :=
  let '(a, b) := to_frac x in let '(c, d) := to_frac y in a * d <? c * b.

(** [Math.max] of two doubles neither of which is NaN. *)
Definition dmax (x y : number) : number := if dlt x y then y else x.

(** [Math.floor] and [Math.round] of a finite double, as integers:
    [Math.round] rounds a half up, towards +Infinity. *)
Definition dfloor (x : number) : Z := let '(a, b) := to_frac x in a / b.

Definition dround (x : number) : Z := let '(a, b) := to_frac x in (2 * a + b) / (2 * b).

(** [Math.sqrt] of a nonnegative finite double.  Its value [M * 4^j] is
    scaled by [4^55] so that the integer square root [S] has at least 56
    bits; the square root lies in [[S, S + 1)], and when it is not [S]
    it rounds as [S + 1/2] does, since the rounding points of a 53-bit
    significand are then integers. *)
Definition dsqrt (x : number) : number :=
  match x with
  | Fin false m e =>
      if m =? 0 then x else
      let M := if Z.even e then m else 2 * m in
      let j := if Z.even e then e / 2 else (e - 1) / 2 in
      let N := M * 2 ^ 110 in
      let S := Z.sqrt N in
      let d := if S * S =? N then 0 else 1 in
      if 0 <=? j - 56 then of_frac ((2 * S + d) * 2 ^ (j - 56)) 1
      else of_frac (2 * S + d) (2 ^ (56 - j))
  | Fin true m e => if m =? 0 then x else Inf false
  | Inf false => x
  | Inf true => Inf false
  end.

End Float.
