(* ===== verification/Json.v ===== *)
(** * JSON values, [JSON.stringify] and [JSON.parse]

    The request body of [src/index.js] is the object literal of lines 4-9,
    which [axios.post] (line 24) serializes with [JSON.stringify]; the
    response body is parsed with [JSON.parse] before the handler of line
    25 reads [response.data].  This file models both algorithms of
    ECMA-262 (sections 25.5.1 and 25.5.2) on the values the script
    handles: [null], booleans, numbers (doubles of [Number]), strings of 8-bit code
    units, arrays and objects whose own enumerable keys are listed in
    enumeration order. *)

From S2P Require Import Prelude Number NumberText.
From Stdlib Require Import DecimalString.

Module Json.

Import Number NumberText.

(** ** Values *)

Unset Elimination Schemes.
Inductive jval : Type :=
| JNull
| JBool (b : bool)
| JNum (n : number)
| JStr (s : string)
| JArr (items : list jval)
| JObj (fields : list (string * jval)).
Set Elimination Schemes.

(** The induction principle that sees the values inside arrays and
    objects. *)
Section jval_ind.
Variable P : jval -> Prop.
Hypothesis HNull : P JNull.
Hypothesis HBool : forall b, P (JBool b).
Hypothesis HNum : forall n, P (JNum n).
Hypothesis HStr : forall s, P (JStr s).
Hypothesis HArr : forall l, Forall P l -> P (JArr l).
Hypothesis HObj : forall fs, Forall (fun kv => P (snd kv)) fs -> P (JObj fs).

Fixpoint jval_ind (v : jval) : P v :=
  match v with
  | JNull => HNull
  | JBool b => HBool b
  | JNum n => HNum n
  | JStr s => HStr s
  | JArr l =>
      HArr l ((fix go (l : list jval) : Forall P l :=
                 match l with
                 | [] => Forall_nil _
                 | x :: xs => Forall_cons _ (jval_ind x) (go xs)
                 end) l)
  | JObj fs =>
      HObj fs ((fix go (fs : list (string * jval)) : Forall (fun kv => P (snd kv)) fs :=
                  match fs with
                  | [] => Forall_nil _
                  | kv :: r => Forall_cons _ (jval_ind (snd kv)) (go r)
                  end) fs)
  end.
End jval_ind.

(** ** [JSON.stringify] *)

(** One hexadecimal digit, lower case as UnicodeEscape prints it. *)
Definition hex_digit (n : nat) : ascii :=
  if (n <? 10)%nat then chr (48 + n) else chr (87 + n).

(** QuoteJSONString applied to one code unit. *)
Definition escape_char (c : ascii) : string :=
  match code c with
  | 8 => bslash ::: "b"
  | 9 => bslash ::: "t"
  | 10 => bslash ::: "n"
  | 12 => bslash ::: "f"
  | 13 => bslash ::: "r"
  | 34 => bslash ::: dquote ::: EmptyString
  | 92 => bslash ::: bslash ::: EmptyString
  | n => if (n <? 32)%nat
         then bslash ::: "u00" ++ (hex_digit (n / 16) ::: hex_digit (n mod 16) ::: EmptyString)
         else c ::: EmptyString
  end.

Fixpoint escape_body (s : string) : string :=
  match s with
  | EmptyString => EmptyString
  | c ::: r => escape_char c ++ escape_body r
  end.

(** QuoteJSONString. *)
Definition quote (s : string) : string := dquote ::: escape_body s ++ (dquote ::: EmptyString).

(** The elements joined with commas, as SerializeJSONArray and
    SerializeJSONObject do when no indentation is requested. *)
Fixpoint join_comma (l : list string) : string :=
  match l with
  | [] => EmptyString
  | [x] => x
  | x :: r => x ++ "," ++ join_comma r
  end.

(** An object's fields are kept in creation order.  Its enumeration
    order, [[OwnPropertyKeys]] of an ordinary object (ECMA-262 10.1.11.1),
    lists the array-index keys first in ascending numeric order, then the
    other string keys in creation order. *)
(** CanonicalNumericIndexString restricted to array indices: the
    decimal form of an integer below [2^32 - 1], without leading zero. *)
Definition array_index (s : string) : option N :=
  match s with
  | EmptyString => None
  | c ::: r =>
      if all_digits s && (negb (Nat.eqb (code c) 48) || (String.length r =? 0)%nat) then
        match NilEmpty.uint_of_string s with
        | Some u => let n := N.of_uint u in if (n <? 4294967295)%N then Some n else None
        | None => None
        end
      else None
  end.

Definition is_index_key {A} (kv : string * A) : bool :=
  match array_index (fst kv) with Some _ => true | None => false end.

Definition index_of {A} (kv : string * A) : N :=
  match array_index (fst kv) with Some n => n | None => 0%N end.

Fixpoint insert_by_index {A} (kv : string * A) (l : list (string * A)) : list (string * A) :=
  match l with
  | [] => [kv]
  | x :: r => if (index_of kv <? index_of x)%N then kv :: x :: r else x :: insert_by_index kv r
  end.

Definition own_keys_order {A} (fs : list (string * A)) : list (string * A) :=
  fold_right insert_by_index [] (filter is_index_key fs)
  ++ filter (fun kv => negb (is_index_key kv)) fs.

(** SerializeJSONProperty on a number: Number::toString when it is
    finite, [null] otherwise. *)
Definition number_text (x : number) : string :=
  match x with Inf _ => "null" | Fin _ _ _ => to_string x end.

(** SerializeJSONProperty on the values of [jval]. *)
Fixpoint stringify (v : jval) : string :=
  match v with
  | JNull => "null"
  | JBool true => "true"
  | JBool false => "false"
  | JNum n => number_text n
  | JStr s => quote s
  | JArr l => "[" ++ join_comma (map stringify l) ++ "]"
  | JObj fs =>
      "{" ++ join_comma (map (fun kv => quote (fst kv) ++ ":" ++ snd kv)
                             (own_keys_order (map (fun kv => (fst kv, stringify (snd kv))) fs)))
          ++ "}"
  end.

Example stringify_nested :
  stringify (JObj [("a", JArr [JNum (of_Z 1); JNum (of_Z (-20)); JNum (Fin false 4503599627370496 (-53))]); ("b", JNull)])
  = "{" ++ quote "a" ++ ":[1,-20,0.5]," ++ quote "b" ++ ":null}".
Proof. vm_compute. reflexivity. Qed.

Example stringify_index_keys_first :
  stringify (JObj [("b", JNull); ("10", JNull); ("2", JNull); ("01", JNull)])
  = "{" ++ quote "2" ++ ":null," ++ quote "10" ++ ":null,"
        ++ quote "b" ++ ":null," ++ quote "01" ++ ":null}".
Proof. reflexivity. Qed.

(** ** [JSON.parse] *)

(** JSON whitespace: space, tab, line feed, carriage return. *)
Definition is_ws (c : ascii) : bool :=
  match code c with 32 | 9 | 10 | 13 => true | _ => false end.

Fixpoint skip_ws (s : string) : string :=
  match s with
  | c ::: r => if is_ws c then skip_ws r else s
  | EmptyString => EmptyString
  end.

Fixpoint strip_prefix (p s : string) : option string :=
  match p, s with
  | EmptyString, _ => Some s
  | a ::: p', b ::: s' => if Ascii.eqb a b then strip_prefix p' s' else None
  | _, _ => None
  end.

Definition hex_val (c : ascii) : option nat :=
  let n := code c in
  if ((48 <=? n) && (n <=? 57))%nat then Some (n - 48)
  else if ((97 <=? n) && (n <=? 102))%nat then Some (n - 87)
  else if ((65 <=? n) && (n <=? 70))%nat then Some (n - 55)
  else None.

(** The escape that follows a backslash: the character it denotes.  The
    model's strings are 8-bit, so [\uXXXX] above [00ff] is outside it. *)
Definition unescape (e : ascii) : option ascii :=
  match code e with
  | 34 => Some dquote
  | 92 => Some bslash
  | 47 => Some (chr 47)
  | 98 => Some (chr 8)
  | 102 => Some (chr 12)
  | 110 => Some (chr 10)
  | 114 => Some (chr 13)
  | 116 => Some (chr 9)
  | _ => None
  end.

Definition hex4 (a b c d : ascii) : option nat :=
  match hex_val a, hex_val b, hex_val c, hex_val d with
  | Some x, Some y, Some z, Some w => Some (((x * 16 + y) * 16 + z) * 16 + w)
  | _, _, _, _ => None
  end.

Definition cons_fst (c : ascii) (r : option (string * string)) : option (string * string) :=
  match r with Some (b, rest) => Some (c ::: b, rest) | None => None end.

(** The body of a string literal after its opening quote: its characters
    up to the closing quote, and the text after that quote.  Unescaped
    control characters are a syntax error.  A [\uXXXX] escape above
    [00FF] names a UTF-16 unit the model's 8-bit strings cannot hold: the
    model fails there, so such a body is taken as not JSON and printed
    raw, where JSON.parse would decode it. *)
Fixpoint parse_string_body (s : string) : option (string * string) :=
  match s with
  | EmptyString => None
  | c ::: r =>
      if Ascii.eqb c dquote then Some (EmptyString, r)
      else if Ascii.eqb c bslash then
        match r with
        | e ::: r' =>
            if Nat.eqb (code e) 117 then
              match r' with
              | h1 ::: h2 ::: h3 ::: h4 ::: r'' =>
                  match hex4 h1 h2 h3 h4 with
                  | Some n => if (n <? 256)%nat then cons_fst (chr n) (parse_string_body r'') else None
                  | None => None
                  end
              | _ => None
              end
            else match unescape e with
                 | Some x => cons_fst x (parse_string_body r')
                 | None => None
                 end
        | EmptyString => None
        end
      else if (code c <? 32)%nat then None
      else cons_fst c (parse_string_body r)
  end.

(** CreateDataProperty on the object under construction: a key seen
    before keeps its position and takes the new value. *)
Fixpoint obj_set (k : string) (v : jval) (fs : list (string * jval)) : list (string * jval) :=
  match fs with
  | [] => [(k, v)]
  | (k', v') :: r => if String.eqb k k' then (k, v) :: r else (k', v') :: obj_set k v r
  end.

Fixpoint parse_value (fuel : nat) (s : string) {struct fuel} : option (jval * string) :=
  match fuel with
  | O => None
  | S f =>
      match s with
      | EmptyString => None
      | c ::: r =>
          match code c with
          | 110 => option_map (fun r' => (JNull, r')) (strip_prefix "ull" r)
          | 116 => option_map (fun r' => (JBool true, r')) (strip_prefix "rue" r)
          | 102 => option_map (fun r' => (JBool false, r')) (strip_prefix "alse" r)
          | 34 => option_map (fun p => (JStr (fst p), snd p)) (parse_string_body r)
          | 45 => option_map (fun p => (JNum (fst p), snd p)) (parse_number s)
          | 91 => match skip_ws r with
                  | e ::: r' => if Nat.eqb (code e) 93 then Some (JArr [], r')
                                else parse_elems f [] (e ::: r')
                  | EmptyString => None
                  end
          | 123 => match skip_ws r with
                   | e ::: r' => if Nat.eqb (code e) 125 then Some (JObj [], r')
                                 else parse_members f [] (e ::: r')
                   | EmptyString => None
                   end
          | _ => if is_digit c then option_map (fun p => (JNum (fst p), snd p)) (parse_number s)
                 else None
          end
      end
  end
(** The elements of an array after [\[] or [,]: a value, then [,] and
    more elements or the closing [\]]. *)
with parse_elems (fuel : nat) (acc : list jval) (s : string) {struct fuel} : option (jval * string) :=
  match fuel with
  | O => None
  | S f =>
      match parse_value f s with
      | Some (v, r) =>
          match skip_ws r with
          | e ::: r' =>
              if Nat.eqb (code e) 44 then parse_elems f (acc ++ [v]) (skip_ws r')
              else if Nat.eqb (code e) 93 then Some (JArr (acc ++ [v]), r')
              else None
          | EmptyString => None
          end
      | None => None
      end
  end
(** The members of an object after [{] or [,]: a key, [:], a value, then
    [,] and more members or the closing [}]. *)
with parse_members (fuel : nat) (acc : list (string * jval)) (s : string) {struct fuel}
  : option (jval * string) :=
  match fuel with
  | O => None
  | S f =>
      match s with
      | q ::: r =>
          if Ascii.eqb q dquote then
            match parse_string_body r with
            | Some (k, r1) =>
                match skip_ws r1 with
                | col ::: r2 =>
                    if Nat.eqb (code col) 58 then
                      match parse_value f (skip_ws r2) with
                      | Some (v, r3) =>
                          match skip_ws r3 with
                          | e ::: r4 =>
                              if Nat.eqb (code e) 44 then parse_members f (obj_set k v acc) (skip_ws r4)
                              else if Nat.eqb (code e) 125 then Some (JObj (obj_set k v acc), r4)
                              else None
                          | EmptyString => None
                          end
                      | None => None
                      end
                    else None
                | EmptyString => None
                end
            | None => None
            end
          else None
      | EmptyString => None
      end
  end.

(** JSON.parse: one value between optional whitespace and nothing after
    it.  The fuel is one more than the length of the text: every reader
    consumes a character before it recurses, so the nesting depth of a
    text is below its length.  For the texts [JSON.stringify] produces,
    [jneed_le_length] proves that this fuel suffices. *)
Definition json_parse (s : string) : option jval :=
  match parse_value (S (String.length s)) (skip_ws s) with
  | Some (v, r) => match skip_ws r with EmptyString => Some v | _ => None end
  | None => None
  end.

Example json_parse_object :
  json_parse (" {" ++ quote "ok" ++ " : true , " ++ quote "n" ++ ":[-12, 0]}")
  = Some (JObj [("ok", JBool true); ("n", JArr [JNum (of_Z (-12)); JNum (of_Z 0)])]).
Proof. vm_compute. reflexivity. Qed.

Example json_parse_rejects :
  json_parse "[1,]" = None /\ json_parse "01" = None /\ json_parse "1." = None
  /\ json_parse "-" = None /\ json_parse ("{" ++ quote "a" ++ ":1}x") = None.
Proof. repeat split; vm_compute; reflexivity. Qed.

Example json_parse_duplicate_key :
  json_parse ("{" ++ quote "a" ++ ":1," ++ quote "b" ++ ":2," ++ quote "a" ++ ":3}")
  = Some (JObj [("a", JNum (of_Z 3)); ("b", JNum (of_Z 2))]).
Proof. vm_compute. reflexivity. Qed.

(** ** Canonical values and the fuel they need *)

(** A value is canonical when each of its objects has distinct keys none
    of which is an array index: then its enumeration order is its
    creation order, and [JSON.parse] rebuilds it field by field. *)
Fixpoint jcanon (v : jval) : bool :=
  match v with
  | JArr l => forallb jcanon l
  | JObj fs => keys_nodup (map fst fs) && forallb (fun kv => negb (is_index_key kv)) fs
               && forallb (fun kv => jcanon (snd kv)) fs
  | JNum x => canonical x && exact_text x
  | _ => true
  end.

(** The fuel [parse_value] spends on the text of a value. *)
Fixpoint jneed (v : jval) : nat :=
  match v with
  | JArr l => S (fold_right (fun x m => S (Nat.max (jneed x) m)) 0 l)
  | JObj fs => S (fold_right (fun kv m => S (Nat.max (jneed (snd kv)) m)) 0 fs)
  | _ => 1
  end.

Definition member_text (kv : string * jval) : string := quote (fst kv) ++ ":" ++ stringify (snd kv).

(** ** Lemmas: strings *)

Lemma parse_escape_char (c : ascii) (t : string) :
  parse_string_body (escape_char c ++ t) = cons_fst c (parse_string_body t).
Proof. destruct c as [[] [] [] [] [] [] [] []]; reflexivity. Qed.

Lemma parse_escape_body (s t : string) :
  parse_string_body (escape_body s ++ dquote ::: t) = Some (s, t).
Proof.
  induction s as [|c s IH]; [reflexivity|].
  simpl. rewrite str_app_assoc, parse_escape_char, IH. reflexivity.
Qed.

Lemma quote_app (s t : string) : quote s ++ t = dquote ::: (escape_body s ++ dquote ::: t).
Proof. unfold quote. simpl. rewrite str_app_assoc. reflexivity. Qed.

(** ** Lemmas: numbers *)

(** A character that starts the text of a number: [-] or a digit. *)
Definition number_head (c : ascii) : Prop := code c = 45 \/ is_digit c = true.

Lemma number_head_parse (c : ascii) (f : nat) (r : string) : number_head c ->
  parse_value (S f) (c ::: r) = option_map (fun p => (JNum (fst p), snd p)) (parse_number (c ::: r)).
Proof.
  unfold number_head. destruct c as [[] [] [] [] [] [] [] []]; intros [H|H];
    first [reflexivity | vm_compute in H; discriminate].
Qed.

Lemma number_head_char (c : ascii) : number_head c -> is_ws c = false /\ code c <> 93 /\ code c <> 125.
Proof.
  unfold number_head. destruct c as [[] [] [] [] [] [] [] []]; intros [H|H]; vm_compute in H |- *;
    first [discriminate | repeat split; discriminate].
Qed.

(** The text of a canonical double, read back by [parse_value]. *)
Lemma parse_value_number (f : nat) (x : number) (t : string) :
  canonical x = true -> exact_text x = true -> delim t = true ->
  parse_value (S f) (number_text x ++ t) = Some (JNum x, t).
Proof.
  intros Hc He Ht. destruct x as [neg m e|neg]; [|discriminate He].
  pose proof (number_text_roundtrip _ _ Hc He Ht) as Hp.
  cbn [number_text] in *. destruct (to_string_head neg m e) as (c & r & E & Hh).
  rewrite E in *. cbn [String.append] in *. rewrite number_head_parse by exact Hh.
  rewrite Hp. reflexivity.
Qed.

(** ** Lemmas: the shape of serialized text *)

(** A text that starts a value: its first character is not whitespace
    and closes neither an array nor an object. *)
Definition starts_value (s : string) : Prop :=
  match s with
  | c ::: _ => is_ws c = false /\ code c <> 93 /\ code c <> 125
  | EmptyString => False
  end.

Lemma skip_ws_starts (s : string) : starts_value s -> skip_ws s = s.
Proof. destruct s as [|c r]; [contradiction|]. intros [Hws _]. simpl. now rewrite Hws. Qed.

Lemma stringify_starts (v : jval) (t : string) : starts_value (stringify v ++ t).
Proof.
  destruct v as [| [] | [neg m e|neg] | s | l | fs]; try (cbn; repeat split; discriminate).
  cbn [stringify number_text]. destruct (to_string_head neg m e) as (c & r & -> & Hc).
  exact (number_head_char c Hc).
Qed.

Lemma join_cons2 (a b : string) (r : list string) :
  join_comma (a :: b :: r) = a ++ "," ++ join_comma (b :: r).
Proof. reflexivity. Qed.

Lemma join_head {A} (h : A -> string) (x : A) (xs : list A) (R : string) :
  exists R', join_comma (map h (x :: xs)) ++ R = h x ++ R'.
Proof.
  destruct xs as [|y ys]; simpl map.
  - exists R. reflexivity.
  - rewrite join_cons2, str_app_assoc. eexists. reflexivity.
Qed.

Lemma parse_value_bracket (f : nat) (X : string) :
  starts_value X -> parse_value (S f) ("[" ::: X) = parse_elems f [] X.
Proof.
  destruct X as [|c r]; [contradiction|]. intros (Hws & H93 & H125).
  change (parse_value (S f) ("[" ::: c ::: r))
    with (match skip_ws (c ::: r) with
          | e ::: r' => if Nat.eqb (code e) 93 then Some (JArr [], r') else parse_elems f [] (e ::: r')
          | EmptyString => None end).
  rewrite (skip_ws_starts (c ::: r)) by (repeat split; assumption).
  apply Nat.eqb_neq in H93. now rewrite H93.
Qed.

Lemma parse_value_brace (f : nat) (X : string) :
  parse_value (S f) ("{" ::: dquote ::: X) = parse_members f [] (dquote ::: X).
Proof. reflexivity. Qed.

(** ** Lemmas: objects *)


Lemma obj_set_fresh (k : string) (v : jval) (acc : list (string * jval)) :
  ~ In k (map fst acc) -> obj_set k v acc = (acc ++ [(k, v)])%list.
Proof.
  induction acc as [|[k' v'] r IH]; simpl; intros Hin; [reflexivity|].
  destruct (String.eqb_spec k k') as [->|Hne]; [tauto|]. rewrite IH by tauto. reflexivity.
Qed.

Lemma own_keys_order_plain {A} (l : list (string * A)) :
  forallb (fun kv => negb (is_index_key kv)) l = true -> own_keys_order l = l.
Proof.
  intros H. unfold own_keys_order.
  assert (E1 : filter is_index_key l = []).
  { induction l as [|x r IH]; [reflexivity|]. simpl in *.
    apply andb_true_iff in H as [Hx Hr]. apply negb_true_iff in Hx. rewrite Hx. auto. }
  assert (E2 : filter (fun kv => negb (is_index_key kv)) l = l).
  { clear E1. induction l as [|x r IH]; [reflexivity|]. simpl in *.
    apply andb_true_iff in H as [Hx Hr]. rewrite Hx. f_equal. apply IH. exact Hr. }
  rewrite E1, E2. reflexivity.
Qed.

Lemma stringify_obj (fs : list (string * jval)) :
  forallb (fun kv => negb (is_index_key kv)) fs = true ->
  stringify (JObj fs) = "{" ++ join_comma (map member_text fs) ++ "}".
Proof.
  intros H. simpl stringify. rewrite own_keys_order_plain.
  - rewrite map_map. reflexivity.
  - rewrite forallb_map'. exact H.
Qed.

(** ** The round trip *)

(** [v] is read back from its text followed by any delimiter. *)
Definition roundtrips (v : jval) : Prop :=
  forall f t, jcanon v = true -> jneed v <= f -> delim t = true ->
  parse_value f (stringify v ++ t) = Some (v, t).

Lemma join_cons_ne (a : string) (r : list string) :
  r <> [] -> join_comma (a :: r) = a ++ "," ++ join_comma r.
Proof. destruct r; [congruence | reflexivity]. Qed.

Lemma skip_ws_join {A} (h : A -> string) (x : A) (xs : list A) (R : string) :
  (forall R', starts_value (h x ++ R')) ->
  skip_ws (join_comma (map h (x :: xs)) ++ R) = join_comma (map h (x :: xs)) ++ R.
Proof.
  intros Hs. destruct (join_head h x xs R) as [R' E]. rewrite E. apply skip_ws_starts, Hs.
Qed.

Lemma parse_elems_join (l : list jval) :
  Forall roundtrips l -> forallb jcanon l = true -> l <> [] ->
  forall f acc t, fold_right (fun x m => S (Nat.max (jneed x) m)) 0 l <= f ->
  parse_elems f acc (join_comma (map stringify l) ++ ("]" ++ t)) = Some (JArr (acc ++ l)%list, t).
Proof.
  induction l as [|x xs IH]; intros Hall Hc Hne f acc t Hf; [congruence|].
  inversion Hall as [|? ? Hx Hxs]; subst. simpl in Hc. apply andb_true_iff in Hc as [Hcx Hcs].
  destruct f as [|f]; [simpl in Hf; lia|]. cbn [fold_right] in Hf.
  destruct xs as [|y ys].
  - cbn [map join_comma parse_elems]. rewrite Hx by (auto; lia). reflexivity.
  - change (map stringify (x :: y :: ys)) with (stringify x :: map stringify (y :: ys)).
    rewrite join_cons_ne by discriminate. rewrite !str_app_assoc.
    cbn [parse_elems]. rewrite Hx by (auto; lia).
    set (J := join_comma (map stringify (y :: ys))).
    change (skip_ws ("," ++ J ++ "]" ++ t)) with ("," ::: J ++ "]" ++ t).
    cbn iota beta. change (Nat.eqb (code ",") 44) with true. cbn iota.
    unfold J. rewrite skip_ws_join by apply stringify_starts.
    rewrite IH by (auto; discriminate || lia). rewrite <- app_assoc. reflexivity.
Qed.

Lemma member_text_app (kv : string * jval) (R : string) :
  member_text kv ++ R = dquote ::: escape_body (fst kv) ++ dquote ::: ":" ++ stringify (snd kv) ++ R.
Proof. unfold member_text. rewrite !str_app_assoc, quote_app. reflexivity. Qed.

Lemma member_starts (kv : string * jval) (R : string) : starts_value (member_text kv ++ R).
Proof. rewrite member_text_app. cbn. repeat split; discriminate. Qed.

(** One member: its key, its value, and the object under construction
    extended with it. *)
Lemma parse_member_step (f : nat) (acc : list (string * jval)) (k : string) (v : jval) (R : string) :
  roundtrips v -> jcanon v = true -> jneed v <= f -> delim R = true ->
  parse_members (S f) acc (member_text (k, v) ++ R) =
  match skip_ws R with
  | e ::: r4 =>
      if Nat.eqb (code e) 44 then parse_members f (obj_set k v acc) (skip_ws r4)
      else if Nat.eqb (code e) 125 then Some (JObj (obj_set k v acc), r4)
      else None
  | EmptyString => None
  end.
Proof.
  intros Hv Hc Hf HR. rewrite member_text_app. cbn [fst snd].
  cbn [parse_members]. change (Ascii.eqb dquote dquote) with true. cbn iota.
  rewrite parse_escape_body. cbn iota beta.
  change (skip_ws (":" ++ stringify v ++ R)) with (":" ::: stringify v ++ R).
  change (Nat.eqb (code ":") 58) with true. cbn iota.
  rewrite (skip_ws_starts _ (stringify_starts v R)), Hv by assumption. reflexivity.
Qed.

Lemma parse_members_join (fs : list (string * jval)) :
  Forall (fun kv => roundtrips (snd kv)) fs -> forallb (fun kv => jcanon (snd kv)) fs = true ->
  fs <> [] ->
  forall f acc t, NoDup (map fst (acc ++ fs)%list) ->
  fold_right (fun kv m => S (Nat.max (jneed (snd kv)) m)) 0 fs <= f ->
  parse_members f acc (join_comma (map member_text fs) ++ ("}" ++ t)) = Some (JObj (acc ++ fs)%list, t).
Proof.
  induction fs as [|[k v] xs IH]; intros Hall Hc Hne f acc t Hnd Hf; [congruence|].
  inversion Hall as [|? ? Hx Hxs]; subst. simpl in Hc. apply andb_true_iff in Hc as [Hcx Hcs].
  destruct f as [|f]; [simpl in Hf; lia|]. cbn [fold_right snd] in Hf.
  rewrite map_app in Hnd. simpl in Hnd.
  assert (Hfresh : ~ In k (map fst acc)).
  { intros Hin. apply NoDup_remove_2 in Hnd. apply Hnd, in_or_app. now left. }
  destruct xs as [|y ys].
  - cbn [map join_comma]. rewrite parse_member_step by (auto; lia).
    cbn. rewrite obj_set_fresh by assumption. reflexivity.
  - change (map member_text ((k, v) :: y :: ys)) with (member_text (k, v) :: map member_text (y :: ys)).
    rewrite join_cons_ne by discriminate. rewrite !str_app_assoc.
    rewrite parse_member_step by (auto; lia).
    set (J := join_comma (map member_text (y :: ys))).
    change (skip_ws ("," ++ J ++ "}" ++ t)) with ("," ::: J ++ "}" ++ t).
    change (Nat.eqb (code ",") 44) with true. cbn iota.
    unfold J. rewrite skip_ws_join by apply member_starts.
    rewrite obj_set_fresh by assumption.
    rewrite IH by (auto; try discriminate; try lia;
                   rewrite <- app_assoc, map_app; exact Hnd).
    rewrite <- app_assoc. reflexivity.
Qed.

Lemma stringify_arr (l : list jval) :
  stringify (JArr l) = "[" ++ join_comma (map stringify l) ++ "]".
Proof. reflexivity. Qed.

Lemma parse_value_stringify (v : jval) : roundtrips v.
Proof.
  induction v as [| b | n | s | l IH | fs IH] using jval_ind; intros f t Hc Hf Ht;
    (destruct f as [|f]; [simpl in Hf; lia|]).
  - reflexivity.
  - destruct b; reflexivity.
  - simpl in Hc. apply andb_true_iff in Hc as [Hc He]. exact (parse_value_number f n t Hc He Ht).
  - simpl stringify. rewrite quote_app. simpl. rewrite parse_escape_body. reflexivity.
  - destruct l as [|x xs]; [reflexivity|].
    rewrite stringify_arr, !str_app_assoc.
    change ("[" ++ ?X) with ("[" ::: X).
    rewrite parse_value_bracket by (destruct (join_head stringify x xs ("]" ++ t)) as [R E];
                                    rewrite E; apply stringify_starts).
    simpl in Hc. cbn [jneed] in Hf. rewrite parse_elems_join; auto; [discriminate | lia].
  - simpl in Hc. apply andb_true_iff in Hc as [Hc Hcs]. apply andb_true_iff in Hc as [Hnd Hix].
    rewrite stringify_obj by exact Hix.
    destruct fs as [|[k v] xs]; [reflexivity|].
    rewrite !str_app_assoc. change ("{" ++ ?X) with ("{" ::: X).
    destruct (join_head member_text (k, v) xs ("}" ++ t)) as [R E].
    rewrite E, member_text_app, parse_value_brace, <- member_text_app, <- E.
    cbn [jneed] in Hf. rewrite parse_members_join; auto; [discriminate | |lia].
    apply keys_nodup_NoDup. exact Hnd.
Qed.

(** The text of a value is never empty. *)
Lemma stringify_nonempty (v : jval) : 1 <= String.length (stringify v).
Proof.
  pose proof (stringify_starts v EmptyString) as H. rewrite str_app_nil_r in H.
  destruct (stringify v); [contradiction | simpl; lia].
Qed.

Lemma fold_need_le {A} (g : A -> nat) (h : A -> string) (l : list A) :
  Forall (fun a => g a <= String.length (h a)) l ->
  fold_right (fun a m => S (Nat.max (g a) m)) 0 l <= S (String.length (join_comma (map h l))).
Proof.
  induction 1 as [|x xs Hx Hxs IH]; [simpl; lia|].
  destruct xs as [|y ys]; [simpl; lia|].
  change (map h (x :: y :: ys)) with (h x :: map h (y :: ys)).
  rewrite join_cons_ne by discriminate. cbn [fold_right] in *.
  rewrite !str_length_app. change (String.length ",") with 1. lia.
Qed.

(** The fuel [json_parse] gives is enough for the text of every value. *)
Lemma jneed_le_length (v : jval) : jcanon v = true -> jneed v <= String.length (stringify v).
Proof.
  induction v as [| b | n | s | l IH | fs IH] using jval_ind; intros Hc;
    try (pose proof (stringify_nonempty (JNum n)); simpl jneed; lia);
    try (pose proof (stringify_nonempty (JStr s)); simpl jneed; lia).
  - simpl; lia.
  - destruct b; simpl; lia.
  - simpl in Hc. simpl jneed. rewrite stringify_arr, !str_length_app. simpl String.length.
    enough (fold_right (fun x m => S (Nat.max (jneed x) m)) 0 l
            <= S (String.length (join_comma (map stringify l)))) by lia.
    apply fold_need_le. rewrite Forall_forall in IH |- *. intros x Hx.
    apply IH; [exact Hx|]. rewrite forallb_forall in Hc. auto.
  - simpl in Hc. apply andb_true_iff in Hc as [Hc Hcs]. apply andb_true_iff in Hc as [_ Hix].
    rewrite stringify_obj by exact Hix. simpl jneed. rewrite !str_length_app. simpl String.length.
    enough (fold_right (fun kv m => S (Nat.max (jneed (snd kv)) m)) 0 fs
            <= S (String.length (join_comma (map member_text fs)))) by lia.
    apply fold_need_le. rewrite Forall_forall in IH |- *. intros [k x] Hx.
    rewrite forallb_forall in Hcs. specialize (IH _ Hx (Hcs _ Hx)). simpl in IH.
    unfold member_text. rewrite !str_length_app. simpl. lia.
Qed.

Lemma parse_stringify_canonical (v : jval) : jcanon v = true -> json_parse (stringify v) = Some v.
Proof.
  intros Hc. unfold json_parse.
  pose proof (stringify_starts v EmptyString) as Hs. rewrite str_app_nil_r in Hs.
  rewrite (skip_ws_starts _ Hs).
  pose proof (parse_value_stringify v (S (String.length (stringify v))) EmptyString Hc) as H.
  rewrite str_app_nil_r in H. rewrite H; [reflexivity | |reflexivity].
  pose proof (jneed_le_length v Hc). lia.
Qed.

End Json.
