(* ===== verification/Headers.v ===== *)
(** * Request headers: the header object, axios' header store, the wire form

    Lines 11-21 of [src/index.js] define the header object passed to
    [axios.post] as [{ headers: headers }] (line 24).  A JavaScript object
    literal with string keys enumerates them in creation order, so it is
    modelled as an association list.  Axios copies it into an
    [AxiosHeaders] store, whose [set] finds an existing header name
    case-insensitively, keeps the first spelling, and replaces the value
    unless asked not to rewrite; the HTTP adapter then adds its own
    headers only where none is present.  Node writes each header as
    [name: value] followed by CR LF.

    The defaults axios merges in and the values its adapter adds depend
    on the axios version; they are parameters of the model
    ([adapter_defaults]), and the theorems hold for all of them. *)

From S2P Require Import Prelude.

Module Headers.

Definition header_list := list (string * string).

(** ** [AxiosHeaders] *)

(** The whitespace [String.prototype.trim] removes, on 8-bit code units
    (tab, line feed, vertical tab, form feed, carriage return, space,
    no-break space). *)
Definition is_space (c : ascii) : bool :=
  match code c with 9 | 10 | 11 | 12 | 13 | 32 | 160 => true | _ => false end.

Fixpoint trim_left (s : string) : string :=
  match s with
  | c ::: r => if is_space c then trim_left r else s
  | EmptyString => EmptyString
  end.

Fixpoint trim_right (s : string) : string :=
  match s with
  | EmptyString => EmptyString
  | c ::: r =>
      let r' := trim_right r in
      match r' with
      | EmptyString => if is_space c then EmptyString else c ::: EmptyString
      | _ => c ::: r'
      end
  end.

Definition trim (s : string) : string := trim_right (trim_left s).

(** normalizeHeader: [String(header).trim().toLowerCase()]. *)
Definition normalize_header (name : string) : string := to_lower (trim name).

(** utils.findKey: the first key whose lower-case form is [lname]. *)
Fixpoint find_key (hs : header_list) (lname : string) : option string :=
  match hs with
  | [] => None
  | (k, _) :: r => if String.eqb (to_lower k) lname then Some k else find_key r lname
  end.

Fixpoint replace_value (k v : string) (hs : header_list) : header_list :=
  match hs with
  | [] => []
  | (k', v') :: r => if String.eqb k k' then (k', v) :: r else (k', v') :: replace_value k v r
  end.

(** setHeader inside [AxiosHeaders.prototype.set]: an empty normalized
    name throws; a name already present (in any case) keeps its spelling
    and position and takes the new value when [rewrite] is true; a new
    name is appended as written.  Header values are strings here: the
    source also overwrites a present name whose value is [undefined]
    when [rewrite] is false, and the model has no [undefined] value (the
    script's header values are all strings). *)
Definition set_header (rewrite : bool) (name value : string) (hs : header_list) : option header_list :=
  match normalize_header name with
  | EmptyString => None
  | lname =>
      match find_key hs lname with
      | Some k => Some (if rewrite then replace_value k value hs else hs)
      | None => Some (hs ++ [(name, value)])%list
      end
  end.

(** [set] applied to every entry of a header object, in order. *)
Fixpoint set_all (rewrite : bool) (entries : header_list) (hs : header_list) : option header_list :=
  match entries with
  | [] => Some hs
  | (n, v) :: r =>
      match set_header rewrite n v hs with
      | Some hs' => set_all rewrite r hs'
      | None => None
      end
  end.

(** [AxiosHeaders.prototype.get]: the value of a name, in any case. *)
Fixpoint lookup_ci (hs : header_list) (name : string) : option string :=
  match hs with
  | [] => None
  | (k, v) :: r => if String.eqb (to_lower k) (normalize_header name) then Some v else lookup_ci r name
  end.

(** What axios and its HTTP adapter add to a request's headers. *)
Record adapter_defaults := {
  ad_common : header_list;          (** defaults.headers.common and the method's defaults *)
  ad_content_type : string;     (** set by transformRequest for an object body *)
  ad_user_agent : string;       (** ["axios/" ++ VERSION] *)
  ad_accept_encoding : string   (** the encodings the adapter can decode *)
}.

(** The headers of the request: the defaults, then the configuration's
    headers with rewrite, then the content type, user agent, content
    length and accepted encodings without rewrite. *)
Definition request_headers (ad : adapter_defaults) (cfg : header_list) (content_length : string)
  : option header_list :=
  match set_all true (ad_common ad) [] with
  | None => None
  | Some h0 =>
      match set_all true cfg h0 with
      | None => None
      | Some h1 =>
          set_all false [("Content-Type", ad_content_type ad); ("User-Agent", ad_user_agent ad);
                         ("Content-Length", content_length);
                         ("Accept-Encoding", ad_accept_encoding ad)] h1
      end
  end.

(** ** The wire form *)

Definition CRLF : string := CR ::: LF ::: EmptyString.

(** Node's [_storeHeader]: one line [name: value] per header. *)
Definition serialize_header (kv : string * string) : string := fst kv ++ ": " ++ snd kv ++ CRLF.

Fixpoint serialize_headers (hs : header_list) : string :=
  match hs with
  | [] => EmptyString
  | kv :: r => serialize_header kv ++ serialize_headers r
  end.

Fixpoint all_chars (f : ascii -> bool) (s : string) : bool :=
  match s with
  | EmptyString => true
  | c ::: r => f c && all_chars f r
  end.

Example set_header_keeps_spelling :
  set_header true "content-type" "text/plain" [("Content-Type", "application/json")]
  = Some [("Content-Type", "text/plain")].
Proof. reflexivity. Qed.

Example set_header_no_rewrite :
  set_header false "ACCEPT" "x" [("Accept", "*/*")] = Some [("Accept", "*/*")].
Proof. reflexivity. Qed.

Example set_header_empty_name : set_header true "  " "x" [] = None.
Proof. reflexivity. Qed.

(** ** Lemmas: the header store *)

(** A name that [set] stores as written: trimmed and non-empty once
    normalized. *)
Definition plain_name (n : string) : bool :=
  String.eqb (trim n) n && negb (String.eqb (normalize_header n) EmptyString).

Lemma plain_name_lower (n : string) : plain_name n = true -> to_lower n = normalize_header n.
Proof.
  unfold plain_name, normalize_header. intros H. apply andb_true_iff in H as [H _].
  apply String.eqb_eq in H. now rewrite H.
Qed.

Lemma find_key_lower (hs : header_list) (l k : string) : find_key hs l = Some k -> to_lower k = l.
Proof.
  induction hs as [|[k' v'] r IH]; simpl; [discriminate|].
  destruct (String.eqb_spec (to_lower k') l); [intros E; injection E as <-; assumption | exact IH].
Qed.

Lemma find_key_lookup_none (hs : header_list) (n : string) :
  find_key hs (normalize_header n) = None -> lookup_ci hs n = None.
Proof.
  induction hs as [|[k v] r IH]; simpl; [reflexivity|].
  destruct (String.eqb (to_lower k) (normalize_header n)); [discriminate | exact IH].
Qed.

Lemma lookup_replace_same (hs : header_list) (n k v : string) :
  find_key hs (normalize_header n) = Some k -> lookup_ci (replace_value k v hs) n = Some v.
Proof.
  induction hs as [|[k' v'] r IH]; simpl; [discriminate|].
  destruct (String.eqb_spec (to_lower k') (normalize_header n)) as [E|E].
  - intros H. injection H as <-. rewrite String.eqb_refl. simpl.
    now rewrite (proj2 (String.eqb_eq _ _) E).
  - intros H. pose proof (find_key_lower _ _ _ H) as Hk.
    destruct (String.eqb_spec k k') as [<-|_]; [congruence|]. simpl.
    apply String.eqb_neq in E. rewrite E. exact (IH H).
Qed.

Lemma lookup_replace_other (hs : header_list) (n m k v : string) :
  normalize_header m <> normalize_header n ->
  find_key hs (normalize_header n) = Some k -> lookup_ci (replace_value k v hs) m = lookup_ci hs m.
Proof.
  intros Hmn. induction hs as [|[k' v'] r IH]; simpl; [discriminate|].
  intros H.
  destruct (String.eqb (to_lower k') (normalize_header n)) eqn:E.
  - injection H as <-. rewrite String.eqb_refl. simpl.
    apply String.eqb_eq in E. rewrite E.
    destruct (String.eqb_spec (normalize_header n) (normalize_header m)); [congruence | reflexivity].
  - pose proof (find_key_lower _ _ _ H) as Hk.
    destruct (String.eqb_spec k k') as [<-|_].
    + rewrite Hk, String.eqb_refl in E. discriminate.
    + simpl. rewrite (IH H). reflexivity.
Qed.

Lemma lookup_app_some (hs x : header_list) (m w : string) :
  lookup_ci hs m = Some w -> lookup_ci (hs ++ x)%list m = Some w.
Proof.
  induction hs as [|[k v] r IH]; simpl; [discriminate|].
  destruct (String.eqb (to_lower k) (normalize_header m)); auto.
Qed.

Lemma lookup_app_none (hs : header_list) (n v m : string) :
  lookup_ci hs m = None ->
  lookup_ci (hs ++ [(n, v)])%list m = if String.eqb (to_lower n) (normalize_header m) then Some v else None.
Proof.
  induction hs as [|[k v'] r IH]; simpl; [reflexivity|].
  destruct (String.eqb (to_lower k) (normalize_header m)); [discriminate | exact IH].
Qed.

(** [set] with rewrite: the name reads back the new value. *)
Lemma set_header_lookup_same (n v : string) (hs hs' : header_list) :
  plain_name n = true -> set_header true n v hs = Some hs' -> lookup_ci hs' n = Some v.
Proof.
  intros Hp. unfold set_header.
  destruct (normalize_header n) as [|c r] eqn:En; [discriminate|]. rewrite <- En.
  destruct (find_key hs (normalize_header n)) as [k|] eqn:Ef; intros E; injection E as <-.
  - now apply lookup_replace_same.
  - rewrite lookup_app_none by (now apply find_key_lookup_none).
    rewrite (plain_name_lower _ Hp), String.eqb_refl. reflexivity.
Qed.

Lemma lookup_find_key_none (hs : header_list) (n : string) :
  lookup_ci hs n = None -> find_key hs (normalize_header n) = None.
Proof.
  induction hs as [|[k v] r IH]; simpl; [reflexivity|].
  destruct (String.eqb (to_lower k) (normalize_header n)); [discriminate | exact IH].
Qed.

(** [set] of a name not yet present appends it, with or without rewrite. *)
Lemma set_header_new (rw : bool) (n v : string) (hs hs' : header_list) :
  plain_name n = true -> lookup_ci hs n = None -> set_header rw n v hs = Some hs' -> lookup_ci hs' n = Some v.
Proof.
  intros Hp Hn. unfold set_header.
  destruct (normalize_header n) as [|c r] eqn:En; [discriminate|]. rewrite <- En.
  rewrite (lookup_find_key_none _ _ Hn). intros E; injection E as <-.
  rewrite lookup_app_none by exact Hn. rewrite (plain_name_lower _ Hp), String.eqb_refl. reflexivity.
Qed.

(** [set] leaves the other names alone. *)
Lemma set_header_lookup_other (rw : bool) (n v m : string) (hs hs' : header_list) :
  plain_name n = true -> normalize_header m <> normalize_header n ->
  set_header rw n v hs = Some hs' -> lookup_ci hs' m = lookup_ci hs m.
Proof.
  intros Hp Hmn. unfold set_header.
  destruct (normalize_header n) as [|c r] eqn:En; [discriminate|]. rewrite <- En in Hmn |- *.
  destruct (find_key hs (normalize_header n)) as [k|] eqn:Ef; intros E; injection E as <-.
  - destruct rw; [eapply lookup_replace_other; [exact Hmn | exact Ef] | reflexivity].
  - destruct (lookup_ci hs m) as [w|] eqn:Em; [now apply lookup_app_some|].
    rewrite lookup_app_none by exact Em. rewrite (plain_name_lower _ Hp).
    destruct (String.eqb_spec (normalize_header n) (normalize_header m)); [congruence | reflexivity].
Qed.

(** [set] without rewrite keeps every value already present. *)
Lemma set_header_keep (n v m w : string) (hs hs' : header_list) :
  set_header false n v hs = Some hs' -> lookup_ci hs m = Some w -> lookup_ci hs' m = Some w.
Proof.
  unfold set_header. destruct (normalize_header n); [discriminate|].
  destruct (find_key _ _); intros E; injection E as <-; [auto | apply lookup_app_some].
Qed.

Lemma set_all_keep (es hs hs' : header_list) (m w : string) :
  set_all false es hs = Some hs' -> lookup_ci hs m = Some w -> lookup_ci hs' m = Some w.
Proof.
  revert hs. induction es as [|[n v] r IH]; simpl; intros hs E Hm; [congruence|].
  destruct (set_header false n v hs) as [h1|] eqn:E1; [|discriminate].
  eapply IH; [exact E| eapply set_header_keep; eauto].
Qed.

Lemma set_all_other (rw : bool) (es hs hs' : header_list) (m : string) :
  forallb (fun kv => plain_name (fst kv)) es = true ->
  Forall (fun kv => normalize_header m <> normalize_header (fst kv)) es ->
  set_all rw es hs = Some hs' -> lookup_ci hs' m = lookup_ci hs m.
Proof.
  revert hs. induction es as [|[n v] r IH]; simpl; intros hs Hp Hd E; [congruence|].
  apply andb_true_iff in Hp as [Hn Hr]. inversion Hd as [|? ? Hnm Hdr]; subst.
  destruct (set_header rw n v hs) as [h1|] eqn:E1; [|discriminate].
  rewrite (IH h1 Hr Hdr E). eapply set_header_lookup_other; eauto.
Qed.

(** Every entry of a header object with distinct plain names reads back
    its value once [set] has stored them all. *)
Lemma set_all_lookup (es hs hs' : header_list) :
  forallb (fun kv => plain_name (fst kv)) es = true ->
  NoDup (map (fun kv => normalize_header (fst kv)) es) ->
  set_all true es hs = Some hs' ->
  forall n v, In (n, v) es -> lookup_ci hs' n = Some v.
Proof.
  revert hs. induction es as [|[n0 v0] r IH]; simpl; intros hs Hp Hnd E n v Hin; [contradiction|].
  apply andb_true_iff in Hp as [Hn Hr]. inversion Hnd as [|? ? Hnot Hnd']; subst.
  destruct (set_header true n0 v0 hs) as [h1|] eqn:E1; [|discriminate].
  destruct Hin as [Heq|Hin].
  - injection Heq as -> ->. rewrite (set_all_other true r h1 hs' n Hr).
    + eapply set_header_lookup_same; eauto.
    + rewrite Forall_forall. intros [k x] Hk Heq. apply Hnot, in_map_iff.
      exists (k, x). auto.
    + exact E.
  - eapply IH; eauto.
Qed.

Lemma set_all_total (rw : bool) (es hs : header_list) :
  forallb (fun kv => negb (String.eqb (normalize_header (fst kv)) EmptyString)) es = true ->
  exists hs', set_all rw es hs = Some hs'.
Proof.
  revert hs. induction es as [|[n v] r IH]; simpl; intros hs Hp; [eauto|].
  apply andb_true_iff in Hp as [Hn Hr]. unfold set_header at 1.
  destruct (normalize_header n) as [|c x]; [discriminate|].
  destruct (find_key hs (c ::: x)); apply IH; exact Hr.
Qed.

(** ** The request's headers *)

(** Whatever defaults axios merges in and whatever its adapter adds,
    every header of a configuration object with distinct plain names is
    sent with the configuration's value. *)
Theorem request_headers_keep_config (ad : adapter_defaults) (cfg : header_list) (cl : string) (hs : header_list) :
  forallb (fun kv => plain_name (fst kv)) cfg = true ->
  keys_nodup (map (fun kv => normalize_header (fst kv)) cfg) = true ->
  request_headers ad cfg cl = Some hs ->
  forall n v, In (n, v) cfg -> lookup_ci hs n = Some v.
Proof.
  intros Hp Hnd E n v Hin. unfold request_headers in E.
  destruct (set_all true (ad_common ad) []) as [h0|]; [|discriminate].
  destruct (set_all true cfg h0) as [h1|] eqn:E1; [|discriminate].
  eapply set_all_keep; [exact E|].
  eapply set_all_lookup; [exact Hp | apply keys_nodup_NoDup; exact Hnd | exact E1 | exact Hin].
Qed.

(** The names the HTTP adapter sets without rewrite. *)
Definition adapter_names : list string := ["content-type"; "user-agent"; "content-length"; "accept-encoding"].

(** A name that neither the defaults, nor the configuration, nor the
    adapter sets is absent from the request's headers. *)
Lemma request_headers_absent (ad : adapter_defaults) (cfg : header_list) (cl : string) (hs : header_list) (m : string) :
  forallb (fun kv => plain_name (fst kv)) (ad_common ad ++ cfg) = true ->
  Forall (fun kv => normalize_header m <> normalize_header (fst kv)) (ad_common ad ++ cfg) ->
  ~ In (normalize_header m) adapter_names ->
  request_headers ad cfg cl = Some hs -> lookup_ci hs m = None.
Proof.
  rewrite forallb_app, Forall_app. intros Hp [Hd1 Hd2] Ha E. apply andb_true_iff in Hp as [Hp1 Hp2].
  unfold request_headers in E.
  destruct (set_all true (ad_common ad) []) as [h0|] eqn:E0; [|discriminate].
  destruct (set_all true cfg h0) as [h1|] eqn:E1; [|discriminate].
  assert (Had : Forall (fun kv => normalize_header m <> normalize_header (fst kv))
                 [("Content-Type", ad_content_type ad); ("User-Agent", ad_user_agent ad);
                  ("Content-Length", cl); ("Accept-Encoding", ad_accept_encoding ad)]).
  { apply Forall_forall. intros kv Hin Hx. apply Ha. rewrite Hx.
    destruct Hin as [<-|[<-|[<-|[<-|[]]]]]; cbn [fst In adapter_names];
      [left | right; left | right; right; left | right; right; right; left]; reflexivity. }
  rewrite (set_all_other false [("Content-Type", ad_content_type ad); ("User-Agent", ad_user_agent ad);
    ("Content-Length", cl); ("Accept-Encoding", ad_accept_encoding ad)] h1 hs m eq_refl Had E).
  rewrite (set_all_other _ _ _ _ _ Hp2 Hd2 E1). rewrite (set_all_other _ _ _ _ _ Hp1 Hd1 E0). reflexivity.
Qed.

(** The adapter's [Content-Length] is the request's when neither the
    defaults nor the configuration set one. *)
Lemma request_headers_content_length (ad : adapter_defaults) (cfg : header_list) (cl : string) (hs : header_list) :
  forallb (fun kv => plain_name (fst kv)) (ad_common ad ++ cfg) = true ->
  Forall (fun kv => normalize_header "Content-Length" <> normalize_header (fst kv)) (ad_common ad ++ cfg) ->
  request_headers ad cfg cl = Some hs -> lookup_ci hs "Content-Length" = Some cl.
Proof.
  rewrite forallb_app, Forall_app. intros Hp [Hd1 Hd2] E. apply andb_true_iff in Hp as [Hp1 Hp2].
  unfold request_headers in E.
  destruct (set_all true (ad_common ad) []) as [h0|] eqn:E0; [|discriminate].
  destruct (set_all true cfg h0) as [h1|] eqn:E1; [|discriminate].
  assert (H1 : lookup_ci h1 "Content-Length" = None)
    by (rewrite (set_all_other _ _ _ _ _ Hp2 Hd2 E1), (set_all_other _ _ _ _ _ Hp1 Hd1 E0); reflexivity).
  cbn [set_all] in E.
  destruct (set_header false "Content-Type" _ h1) as [h2|] eqn:E2; [|discriminate].
  destruct (set_header false "User-Agent" _ h2) as [h3|] eqn:E3; [|discriminate].
  destruct (set_header false "Content-Length" _ h3) as [h4|] eqn:E4; [|discriminate].
  destruct (set_header false "Accept-Encoding" _ h4) as [h5|] eqn:E5; [|discriminate].
  injection E as <-. eapply set_header_keep; [exact E5|]. eapply set_header_new; [reflexivity | | exact E4].
  rewrite (set_header_lookup_other false "User-Agent" _ "Content-Length" h2 h3 eq_refl ltac:(discriminate) E3).
  rewrite (set_header_lookup_other false "Content-Type" _ "Content-Length" h1 h2 eq_refl ltac:(discriminate) E2).
  exact H1.
Qed.

Definition names_nonempty (hs : header_list) : bool :=
  forallb (fun kv => negb (String.eqb (normalize_header (fst kv)) EmptyString)) hs.

(** The error path of [set]: the request's headers are built exactly
    when no name of the defaults or of the configuration is blank. *)
Lemma request_headers_total (ad : adapter_defaults) (cfg : header_list) (cl : string) :
  names_nonempty (ad_common ad) = true -> names_nonempty cfg = true ->
  exists hs, request_headers ad cfg cl = Some hs.
Proof.
  intros Hd Hc. unfold request_headers.
  destruct (set_all_total true (ad_common ad) [] Hd) as [h0 ->].
  destruct (set_all_total true cfg h0 Hc) as [h1 ->].
  apply set_all_total. reflexivity.
Qed.

(** ** Lemmas: the wire form *)

End Headers.
