(* ===== verification/Http.v ===== *)
(** * The request on the wire: URL, request line, [Host], [Connection]

    [axios.post(url, ...)] (line 24 of [src/index.js]) hands the request
    to its HTTP adapter, which parses the URL with the WHATWG [URL]
    class ([new URL(fullPath)]), takes [pathname + search] as the path
    and [hostname] and [port] as the target, turns the body into a
    [Buffer] and sets [Content-Length] to its byte length.  Node's
    [http.ClientRequest] then adds a [Host] header when none is set
    ([hostname], and [:port] unless it is the default port), writes the
    request line [METHOD path HTTP/1.1], the headers in the order they
    were set, a [Connection] header when none is set, and a blank line.

    The URL parser is modelled on the URLs whose parse needs no
    percent-encoding, no IPv4, IPv6 or IDNA host processing, no
    credentials and no dot-segment removal: on them it returns what the
    WHATWG parser returns ([UrlOk]) or its failure ([UrlInvalid]); on
    any other input it answers [UrlUnsupported] and claims nothing. *)

From S2P Require Import Prelude Number NumberText Json Headers.

Module Http.

Import Number NumberText Json Headers.

(** ** Characters *)

Definition in_chars (cs : string) (c : ascii) : bool :=
  negb (all_chars (fun d => negb (Ascii.eqb c d)) cs).

Definition is_alnum (c : ascii) : bool :=
  let n := code c in (is_digit c || ((65 <=? n) && (n <=? 90)) || ((97 <=? n) && (n <=? 122)))%nat.

Definition is_alpha (c : ascii) : bool := is_alnum c && negb (is_digit c).

(** The characters of a scheme after its first letter. *)
Definition scheme_char (c : ascii) : bool := is_alnum c || in_chars "+-." c.

(** The characters of a host the model reads as they are: ASCII letters,
    digits, dots and hyphens. *)
Definition host_char (c : ascii) : bool := is_alnum c || in_chars ".-" c.

(** Characters kept as they are in a path, a query and a fragment of a
    special URL (none of them in the percent-encode sets). *)
Definition path_char (c : ascii) : bool := is_alnum c || in_chars "-._~!$&'()*+,;=:@%/" c.
Definition query_char (c : ascii) : bool := (path_char c && negb (in_chars "'" c)) || in_chars "?" c.
Definition fragment_char (c : ascii) : bool := path_char c || in_chars "?#" c.

(** [span p s]: the longest prefix of [s] whose characters satisfy [p],
    and the rest. *)
Fixpoint span (p : ascii -> bool) (s : string) : string * string :=
  match s with
  | EmptyString => (EmptyString, EmptyString)
  | c ::: r => if p c then let '(a, b) := span p r in (c ::: a, b) else (EmptyString, s)
  end.

Fixpoint split_on (sep : ascii) (s : string) : list string :=
  match s with
  | EmptyString => [EmptyString]
  | c ::: r =>
      if Ascii.eqb c sep then EmptyString :: split_on sep r
      else match split_on sep r with
           | x :: xs => (c ::: x) :: xs
           | [] => [c ::: EmptyString]
           end
  end.

(** ** The URL record

    The record holds what the URL getters return, not the URL record of
    the WHATWG standard: the [search] and [hash] getters return the
    empty string both for an absent query (fragment) and for an empty
    one, so [https://h/p?] and [https://h/p] give the same record.  The
    adapter only reads the getters, so the distinction, which [href]
    keeps, does not reach the request. *)

Record url_record := mk_url {
  protocol : string;   (** ["https:"] *)
  hostname : string;
  port : string;       (** empty for the scheme's default port *)
  pathname : string;
  search : string;     (** empty, or [?] and a non-empty query *)
  hash : string        (** empty, or [#] and a non-empty fragment *)
}.

Inductive url_result := UrlOk (u : url_record) | UrlInvalid | UrlUnsupported.

(** The special schemes the adapter handles, with their default ports. *)
Definition default_port (scheme : string) : option N :=
  if String.eqb scheme "http" then Some 80%N
  else if String.eqb scheme "https" then Some 443%N else None.

(** The "ends in a number" check of the host parser: a host whose last
    label is decimal digits or [0x] and hex digits is parsed as IPv4. *)
Definition hex_digit_char (c : ascii) : bool := is_digit c || in_chars "abcdef" c.

Definition ends_in_number (h : string) : bool :=
  let labels := split_on "." h in
  let labels := match rev labels with EmptyString :: (_ :: _) as r => rev r | _ => labels end in
  match rev labels with
  | last :: _ =>
      match last with
      | "0" ::: "x" ::: r => all_chars hex_digit_char r
      | EmptyString => false
      | _ => all_chars is_digit last
      end
  | [] => false
  end.

(** A label [xn--...] is validated as Punycode by domain-to-ASCII. *)
Definition has_punycode (h : string) : bool :=
  existsb (fun l => String.prefix "xn--" l) (split_on "." h).

(** A segment the path parser removes or resolves. *)
Definition dot_segment (seg : string) : bool :=
  existsb (String.eqb (to_lower seg)) ["."; ".."; "%2e"; ".%2e"; "%2e."; "%2e%2e"].

(** The port text: empty, or digits read as a number below 2^16 and
    written without leading zeros, empty again for the default port;
    [None] when it is not a port (the URL is then invalid). *)
Definition parse_port (dp : N) (p : string) : option string :=
  if String.eqb p EmptyString then Some EmptyString
  else if negb (all_chars is_digit p) then None
  else let n := Z.to_N (digits_value p) in
       if (65535 <? n)%N then None
       else if (n =? dp)%N then Some EmptyString else Some (digits_of_N n).

Definition starts_with (c : ascii) (s : string) : bool :=
  match s with d ::: _ => Ascii.eqb d c | EmptyString => false end.

(** The path, query and fragment after the authority, and whether the
    model reads them as they are: a path that is empty or starts with
    [/], has no dot segment, and stops only at [?], [#] or the end; a
    query that stops only at [#] or the end; a fragment of kept
    characters. *)
Definition components (r2 : string) : string * string * string * bool :=
  let '(path, r3) := span path_char r2 in
  let '(query, r4) := match r3 with
                      | "?" ::: q => span query_char q
                      | _ => (EmptyString, r3)
                      end in
  let frag := match r4 with "#" ::: f => f | _ => r4 end in
  (path, query, frag,
   (String.eqb path EmptyString || starts_with "/" path)
   && negb (existsb dot_segment (split_on "/" path))
   && (String.eqb r3 EmptyString || starts_with "?" r3 || starts_with "#" r3)
   && (String.eqb r4 EmptyString || starts_with "#" r4)
   && all_chars fragment_char frag).

(** The URL after [scheme://], for a special scheme with default port
    [dp]: the authority up to [/], [?] or [#], split at [:] into host
    and port, then the components. *)
Definition parse_hierarchy (scheme : string) (dp : N) (r1 : string) : url_result :=
  let '(auth, r2) := span (fun d => negb (in_chars "/?#" d)) r1 in
  let '(host, pp) := span (fun d => negb (in_chars ":" d)) auth in
  let '(path, query, frag, ok) := components r2 in
  let h := to_lower host in
  if negb (all_chars host_char host) || ends_in_number h || has_punycode h
     || starts_with "/" r1 || negb ok
  then UrlUnsupported
  else if String.eqb host EmptyString then UrlInvalid
  else match parse_port dp (match pp with ":" ::: p => p | _ => EmptyString end) with
       | None => UrlInvalid
       | Some pt =>
           UrlOk (mk_url (scheme ++ ":") h pt
                         (match path with EmptyString => "/" | _ => path end)
                         (match query with EmptyString => EmptyString | _ => "?" ++ query end)
                         (match frag with EmptyString => EmptyString | _ => "#" ++ frag end))
       end.

(** [new URL(s)] on the modelled URLs: [scheme://host[:port][path][?query][#fragment]]
    with a scheme starting with a letter. *)
Definition parse_url (s : string) : url_result :=
  let '(sch, r0) := span scheme_char s in
  match sch, r0 with
  | c ::: _, ":" ::: "/" ::: "/" ::: r1 =>
      match default_port (to_lower sch) with
      | None => UrlUnsupported
      | Some dp => if negb (is_alpha c) then UrlUnsupported else parse_hierarchy (to_lower sch) dp r1
      end
  | _, _ => UrlUnsupported
  end.

(** ** The request Node writes *)

(** The byte length of [Buffer.from(str, 'utf8')] for a string of code
    units below 256: one byte below 128, two above.  A real JavaScript
    string may have code units above 00FF, which take three bytes (or
    four for a surrogate pair); strings of the model have none, and the
    script's body is ASCII. *)
Fixpoint utf8_length (s : string) : nat :=
  match s with
  | EmptyString => 0
  | c ::: r => ((if (code c <? 128)%nat then 1 else 2) + utf8_length r)%nat
  end.

(** The adapter's path: [pathname + search], a leading [?] removed. *)
Definition request_path (u : url_record) : string :=
  match pathname u ++ search u with
  | "?" ::: r => r
  | p => p
  end.

(** ClientRequest's [Host] value: the host name, and the port when it
    is not the protocol's default. *)
Definition host_header (dp : N) (u : url_record) : string :=
  hostname u ++ (if String.eqb (port u) EmptyString || (Z.to_N (digits_value (port u)) =? dp)%N
                 then EmptyString else ":" ++ port u).

(** The headers in the order Node writes them: those set, [Host] when
    none is set, then [Connection] when none is set ([keep-alive] when
    the agent keeps sockets alive, else [close]). *)
Definition wire_headers (dp : N) (keep_alive : bool) (u : url_record) (hs : header_list) : header_list :=
  let hs1 := match lookup_ci hs "Host" with Some _ => hs | None => (hs ++ [("Host", host_header dp u)])%list end in
  match lookup_ci hs1 "Connection" with
  | Some _ => hs1
  | None => (hs1 ++ [("Connection", if keep_alive then "keep-alive" else "close")])%list
  end.

(** The head of the request: request line, headers, blank line. *)
Definition request_head (dp : N) (keep_alive : bool) (meth : string) (u : url_record) (hs : header_list) : string :=
  meth ++ " " ++ request_path u ++ " HTTP/1.1" ++ CRLF ++ serialize_headers (wire_headers dp keep_alive u hs) ++ CRLF.

(** ** The URLs the model reads back *)

(** The port of each special scheme, from its [protocol]. *)
Definition scheme_port (proto : string) : option N :=
  if String.eqb proto "http:" then Some 80%N
  else if String.eqb proto "https:" then Some 443%N else None.

(** ** Lemmas: scanning *)

(** ** Lemmas: the headers Node adds *)

Lemma wire_headers_lookup (dp : N) (keep_alive : bool) (u : url_record) (hs : header_list) :
  lookup_ci hs "Host" = None -> lookup_ci hs "Connection" = None ->
  lookup_ci (wire_headers dp keep_alive u hs) "Host" = Some (host_header dp u)
  /\ lookup_ci (wire_headers dp keep_alive u hs) "Connection" = Some (if keep_alive then "keep-alive" else "close")
  /\ (forall n v, lookup_ci hs n = Some v -> lookup_ci (wire_headers dp keep_alive u hs) n = Some v).
Proof.
  intros Hh Hc. unfold wire_headers. rewrite Hh.
  assert (Hc1 : lookup_ci (hs ++ [("Host", host_header dp u)])%list "Connection" = None)
    by (rewrite lookup_app_none by exact Hc; reflexivity).
  rewrite Hc1. split; [|split].
  - apply lookup_app_some. rewrite lookup_app_none by exact Hh. reflexivity.
  - rewrite lookup_app_none by exact Hc1. reflexivity.
  - intros n v Hv. do 2 apply lookup_app_some. exact Hv.
Qed.

End Http.
