(* ===== verification/Modules.v ===== *)
(** * Module loading: [require("axios")] (line 1)

    Line 1 of [src/index.js] loads axios with CommonJS [require].  A bare
    request like ["axios"] is resolved by Node's loader
    ([lib/internal/modules/cjs/loader.js]):
    - [Module._nodeModulePaths] lists the [node_modules] directories of
      the script's directory and of each of its ancestors, nearest
      first, skipping the parts that are themselves [node_modules], and
      ends with [/node_modules];
    - [Module._resolveLookupPaths] appends the global folders;
    - [Module._findPath] tries each directory in turn: a package
      [axios] there with an [exports] field in its [package.json] is
      resolved through its exports with the CommonJS conditions
      ([resolveExports], [packageExportsResolve]); otherwise the file
      [axios], [axios.js], [axios.json] or [axios.node], or the
      directory with its [main] entry or [index] ([tryPackage]);
    - when no directory has it, [require] throws an error with code
      [MODULE_NOT_FOUND].

    The file system is an association list from absolute file names to
    contents; a directory exists when a file lies under it. *)

From S2P Require Import Prelude Number NumberText Float Json Headers Http.

Module Modules.

Import Number NumberText Float Json Headers Http.

Local Open Scope js_scope.

(** ** [Module._nodeModulePaths] *)

(** The characters of ["node_modules"] from the last to the first, as
    the loader matches a path part read backwards ([nmChars]). *)
Definition nm_chars : string := "seludom_edon".

Definition nm_len : Z := 12.

(** One character of the backward scan that is not [/]: [p] counts the
    characters of ["node_modules"] matched so far from the end of the
    part, [-1] once the part cannot be ["node_modules"]. *)
Definition nm_step (p : Z) (c : ascii) : Z :=
  if (p =? -1)%Z then p
  else match String.get (Z.to_nat p) nm_chars with
       | Some d => if Ascii.eqb d c then (p + 1)%Z else (-1)%Z
       | None => (-1)%Z
       end.

(** The loop of [_nodeModulePaths] for POSIX paths, from index [i - 1]
    down to 0: at each [/] the directory [from.slice(0, last)] gets
    ["/node_modules"] unless its last part is ["node_modules"]. *)
Fixpoint nm_scan (from : string) (i : nat) (p : Z) (last : nat) : list string :=
  match i with
  | O => []
  | S i' =>
      match String.get i' from with
      | Some c =>
          if Ascii.eqb c "/" then
            (if (p =? nm_len)%Z then [] else [substring 0 last from ++ "/node_modules"])
              ++ nm_scan from i' 0 i'
          else nm_scan from i' (nm_step p c) last
      | None => []
      end
  end.

(** [Module._nodeModulePaths(from)] for an absolute, resolved [from]. *)
Definition node_module_paths (from : string) : list string :=
  if String.eqb from "/" then ["/node_modules"]
  else nm_scan from (String.length from) 0 (String.length from) ++ ["/node_modules"].

(** The absolute path [/p1/p2/...] of a directory given by its parts. *)
Fixpoint join_parts (parts : list string) : string :=
  match parts with
  | [] => EmptyString
  | s :: r => "/" ::: s ++ join_parts r
  end.

(** ** The file system *)

(** Absolute file names and their contents. *)
Definition fsys := list (string * string).

Fixpoint read_file (fs : fsys) (p : string) : option string :=
  match fs with
  | [] => None
  | (q, c) :: r => if String.eqb q p then Some c else read_file r p
  end.

Definition is_dir (fs : fsys) (d : string) : bool :=
  existsb (fun kv => String.prefix (d ++ "/") (fst kv)) fs.

(** [internalModuleStat]: 0 for a file, 1 for a directory, negative
    when nothing is there. *)
Definition stat (fs : fsys) (p : string) : Z :=
  match read_file fs p with
  | Some _ => 0
  | None => if is_dir fs p then 1 else -2
  end.

(** [path.resolve(base, rel)] for an absolute [base]: the parts of both
    ([rel] alone when absolute), [.] and empty parts dropped, [..]
    removing the part before it. *)
Definition resolve_parts (parts : list string) : list string :=
  rev (fold_left (fun acc seg =>
                    if String.eqb seg EmptyString || String.eqb seg "." then acc
                    else if String.eqb seg ".." then tl acc else seg :: acc) parts []).

Definition path_resolve (base rel : string) : string :=
  let parts := match rel with
               | "/" ::: _ => split_on "/" rel
               | _ => (split_on "/" base ++ split_on "/" rel)%list
               end in
  match resolve_parts parts with [] => "/" | ps => join_parts ps end.

(** ** [package.json] *)

Inductive pjson := PkgMissing | PkgInvalid | PkgFound (j : jval).

(** [packageJsonReader.read]: a missing file, a text that is not JSON
    (or is [null], whose fields cannot be read), or the parsed value. *)
Definition read_package (fs : fsys) (dir : string) : pjson :=
  match read_file fs (dir ++ "/package.json") with
  | None => PkgMissing
  | Some text =>
      match json_parse text with
      | Some JNull | None => PkgInvalid
      | Some j => PkgFound j
      end
  end.

Definition field (k : string) (j : jval) : option jval :=
  match j with
  | JObj fs => option_map snd (find (fun kv => String.eqb (fst kv) k) fs)
  | _ => None
  end.

(** [pkg.exports], when it is neither undefined nor null. *)
Definition exports_of (j : jval) : option jval :=
  match field "exports" j with Some JNull => None | o => o end.

(** [pkg.main], kept only when it is a string; the empty string counts
    as absent ([if (!pkg)]). *)
Definition package_main (r : pjson) : option string :=
  match r with
  | PkgFound j => match field "main" j with
                  | Some (JStr m) => if String.eqb m EmptyString then None else Some m
                  | _ => None
                  end
  | _ => None
  end.

(** ** Package exports *)

(** The errors resolution throws, by their [code]; [MODULE_NOT_FOUND]
    with its message, which names what was not found. *)
Inductive load_error :=
| ModuleNotFound (msg : string)
| PackagePathNotExported
| InvalidPackageTarget
| InvalidPackageConfig.

Definition error_code (e : load_error) : string :=
  match e with
  | ModuleNotFound _ => "MODULE_NOT_FOUND"
  | PackagePathNotExported => "ERR_PACKAGE_PATH_NOT_EXPORTED"
  | InvalidPackageTarget => "ERR_INVALID_PACKAGE_TARGET"
  | InvalidPackageConfig => "ERR_INVALID_PACKAGE_CONFIG"
  end.

(** What [resolvePackageTarget] returns: a path relative to the
    package, [undefined], [null], or a thrown error; [TUnsupported] for
    targets with [%] or [\], whose percent-decoding is not modelled. *)
Inductive target := TFound (rel : string) | TUndefined | TNull | TThrow (e : load_error) | TUnsupported.

(** [isArrayIndex]: [`${+key}` === key] and [0 <= +key < 2^32 - 1]. *)
Definition is_array_index_key (k : string) : bool :=
  match parse_number k with
  | Some (x, EmptyString) =>
      String.eqb (number_text x) k
      && match x with Fin false _ _ => true | Fin true m _ => (m =? 0)%Z | Inf _ => false end
      && dlt x (of_Z 4294967295)
  | _ => false
  end.

(** A segment [invalidSegmentRegEx] rejects: [.], [..] or
    [node_modules], in any case. *)
Definition invalid_segment (seg : string) : bool :=
  existsb (String.eqb (to_lower seg)) ["."; ".."; "node_modules"].

(** [resolvePackageTargetString] for the subpath ["."]: a target must
    start with [./] and have no invalid segment; empty segments are
    only deprecated. *)
Definition target_string (t : string) : target :=
  match t with
  | "." ::: "/" ::: rest =>
      if negb (all_chars (fun c => negb (in_chars "%\" c)) rest) then TUnsupported
      else if existsb invalid_segment (split_on "/" rest) then TThrow InvalidPackageTarget
      else TFound rest
  | _ => TThrow InvalidPackageTarget
  end.

(** [resolvePackageTarget]: a string target; an array tried in order,
    an invalid target skipped and remembered, a [null] remembered; an
    object of conditions tried in its key order, [default] and the
    active conditions matching, [undefined] going on to the next key;
    [null]; anything else an invalid target. *)
Fixpoint resolve_target (conds : list string) (t : jval) {struct t} : target :=
  match t with
  | JStr s => target_string s
  | JArr items =>
      match items with
      | [] => TNull
      | _ =>
          (fix items_loop (l : list jval) (last : target) : target :=
             match l with
             | [] => last
             | x :: r =>
                 match resolve_target conds x with
                 | TThrow InvalidPackageTarget => items_loop r (TThrow InvalidPackageTarget)
                 | TUndefined => items_loop r last
                 | TNull => items_loop r TNull
                 | res => res
                 end
             end) items TUndefined
      end
  | JObj fields =>
      if existsb (fun kv => is_array_index_key (fst kv)) fields then TThrow InvalidPackageConfig
      else
        (fix conds_loop (l : list (string * jval)) : target :=
           match l with
           | [] => TUndefined
           | (k, v) :: r =>
               if String.eqb k "default" || existsb (String.eqb k) conds then
                 match resolve_target conds v with
                 | TUndefined => conds_loop r
                 | res => res
                 end
               else conds_loop r
           end) fields
  | JNull => TNull
  | _ => TThrow InvalidPackageTarget
  end.

(** [isConditionalExportsMainSugar] on an object: whether its keys are
    conditions (none starts with [.]) or subpaths; [None] when they are
    mixed, which is an invalid configuration. *)
Definition key_is_condition (k : string) : bool :=
  match k with "." ::: _ => false | _ => true end.

Definition conditional_sugar (fields : list (string * jval)) : option bool :=
  match fields with
  | [] => Some false
  | (k, _) :: r =>
      let b := key_is_condition k in
      if forallb (fun kv => Bool.eqb (key_is_condition (fst kv)) b) r then Some b else None
  end.

(** [packageExportsResolve] for the subpath ["."]. *)
Definition exports_resolve (conds : list string) (exports : jval) : target :=
  let res :=
    match exports with
    | JStr _ | JArr _ => resolve_target conds exports
    | JObj fields =>
        match conditional_sugar fields with
        | None => TThrow InvalidPackageConfig
        | Some true => resolve_target conds exports
        | Some false =>
            match find (fun kv => String.eqb (fst kv) ".") fields with
            | Some (_, t) => resolve_target conds t
            | None => TThrow PackagePathNotExported
            end
        end
    | _ => TThrow PackagePathNotExported
    end in
  match res with
  | TUndefined | TNull => TThrow PackagePathNotExported
  | r => r
  end.

(** ** [Module._findPath] *)

Inductive resolution := Resolved (file : string) | NotFound | Failed (e : load_error) | Unsupported.

Definition cannot_find (what : string) : string := "Cannot find module '" ++ what ++ "'".

(** [finalizeEsmResolution]: the target must be a file. *)
Definition finalize (fs : fsys) (pkg_dir : string) (t : target) : resolution :=
  match t with
  | TFound rel =>
      let f := pkg_dir ++ "/" ++ rel in
      if (stat fs f =? 0)%Z then Resolved f else Failed (ModuleNotFound (cannot_find f))
  | TThrow e => Failed e
  | TUnsupported => Unsupported
  | TUndefined | TNull => Failed PackagePathNotExported
  end.

Definition try_file (fs : fsys) (p : string) : option string :=
  if (stat fs p =? 0)%Z then Some p else None.

(** [Object.keys(Module._extensions)]. *)
Definition extensions : list string := [".js"; ".json"; ".node"].

Definition try_extensions (fs : fsys) (p : string) : option string :=
  find (fun f => (stat fs f =? 0)%Z) (map (fun e => p ++ e) extensions).

(** [tryPackage]: the [main] entry as a file, with an extension, or as
    a directory with an index; else the package's own index; a [main]
    that leads nowhere with no index throws. *)
Definition try_package (fs : fsys) (base : string) : resolution :=
  let index := try_extensions fs (base ++ "/index") in
  match package_main (read_package fs base) with
  | None => match index with Some f => Resolved f | None => NotFound end
  | Some m =>
      let filename := path_resolve base m in
      match try_file fs filename with
      | Some f => Resolved f
      | None =>
          match try_extensions fs filename with
          | Some f => Resolved f
          | None =>
              match try_extensions fs (path_resolve filename "index") with
              | Some f => Resolved f
              | None =>
                  match index with
                  | Some f => Resolved f
                  | None => Failed (ModuleNotFound (cannot_find filename ++ ". Please verify that the package.json has a valid "
                                                     ++ dquote ::: "main" ++ dquote ::: " entry"))
                  end
              end
          end
      end
  end.

(** The classic lookup of [base]: the file itself, with an extension,
    or the directory as a package. *)
Definition load_base (fs : fsys) (base : string) : resolution :=
  let rc := stat fs base in
  match (if (rc =? 0)%Z then Some base else try_extensions fs base) with
  | Some f => Resolved f
  | None => if (rc =? 1)%Z then try_package fs base else NotFound
  end.

(** One directory of the lookup: skipped when it is not a directory;
    the package's exports when its [package.json] has them
    ([resolveExports]); else the classic lookup. *)
Definition find_in_dir (fs : fsys) (conds : list string) (request : string) (cur : string) : resolution :=
  if (stat fs cur <? 1)%Z then NotFound
  else
    let base := cur ++ "/" ++ request in
    match read_package fs base with
    | PkgInvalid => Failed InvalidPackageConfig
    | PkgFound j =>
        match exports_of j with
        | Some e => finalize fs base (exports_resolve conds e)
        | None => load_base fs base
        end
    | PkgMissing => load_base fs base
    end.

Fixpoint find_path (fs : fsys) (conds : list string) (request : string) (paths : list string) : resolution :=
  match paths with
  | [] => NotFound
  | d :: r =>
      match find_in_dir fs conds request d with
      | NotFound => find_path fs conds request r
      | res => res
      end
  end.

(** ** Self-reference and [Module._resolveFilename] *)

Inductive scope := NoScope | ScopeFound (dir : string) (pkg : jval) | ScopeInvalid.

(** [readPackageScope] from the script's directory (its parts, nearest
    first) up to the root, stopping at a [node_modules] directory. *)
Fixpoint package_scope (fs : fsys) (rparts : list string) : scope :=
  if match rparts with s :: _ => String.eqb s "node_modules" | [] => false end then NoScope
  else
    match read_package fs (join_parts (rev rparts)) with
    | PkgFound j => ScopeFound (join_parts (rev rparts)) j
    | PkgInvalid => ScopeInvalid
    | PkgMissing => match rparts with [] => NoScope | _ :: r => package_scope fs r end
    end.

(** [trySelf] for a bare request (no [/]): the package around the
    script, when it has exports and is named as the request. *)
Definition try_self (fs : fsys) (conds : list string) (rparts : list string) (request : string) : option resolution :=
  match package_scope fs rparts with
  | ScopeInvalid => Some (Failed InvalidPackageConfig)
  | NoScope => None
  | ScopeFound dir pkg =>
      match exports_of pkg, field "name" pkg with
      | Some e, Some (JStr name) =>
          if String.eqb name request then Some (finalize fs dir (exports_resolve conds e)) else None
      | _, _ => None
      end
  end.

(** The message of [MODULE_NOT_FOUND] in [Module._resolveFilename]:
    the request, then the require stack, which for the main module is
    its own file name, [index.js] in the directory [dir_parts]. *)
Definition not_found_message (dir_parts : list string) (request : string) : string :=
  cannot_find request ++ LF ::: "Require stack:" ++ LF ::: "- " ++ join_parts (dir_parts ++ ["index.js"]).

(** [Module._resolveFilename(request, parent)] for a bare request from
    a script in the directory with parts [dir_parts]: self-reference,
    then the [node_modules] directories and the global folders; nothing
    found is [MODULE_NOT_FOUND]. *)
Definition require_resolve (fs : fsys) (conds globals dir_parts : list string) (request : string) : resolution :=
  match try_self fs conds (rev dir_parts) request with
  | Some r => r
  | None =>
      match find_path fs conds request (node_module_paths (join_parts dir_parts) ++ globals)%list with
      | NotFound => Failed (ModuleNotFound (not_found_message dir_parts request))
      | r => r
      end
  end.

(** The conditions of [require] in Node 20 ([getCjsConditions]). *)
Definition cjs_conditions : list string := ["require"; "node"; "node-addons"].

(** ** Lemmas: strings read by index *)

(** ** Lemmas: the backward match of a part against ["node_modules"] *)

(** ** Lemmas: the scan of [_nodeModulePaths] *)

(** ** Lemmas: what resolution returns is a file *)

Definition file_in (fs : fsys) (f : string) : Prop := exists c, read_file fs f = Some c.

Lemma stat_file (fs : fsys) (f : string) : (stat fs f =? 0)%Z = true -> file_in fs f.
Proof.
  unfold stat, file_in. destruct (read_file fs f) as [c|]; [eauto|].
  destruct (is_dir fs f); discriminate.
Qed.

Lemma try_file_in (fs : fsys) (p f : string) : try_file fs p = Some f -> file_in fs f.
Proof. unfold try_file. destruct (stat fs p =? 0)%Z eqn:E; [intros [=<-]; apply stat_file; exact E | discriminate]. Qed.

Lemma try_extensions_in (fs : fsys) (p f : string) : try_extensions fs p = Some f -> file_in fs f.
Proof. unfold try_extensions. intros H. apply find_some in H as [_ H]. apply stat_file. exact H. Qed.

#[local] Hint Resolve try_file_in try_extensions_in : faucet.

(** Every [Resolved] of a branch whose files come from [try_file] and
    [try_extensions]. *)
Ltac resolved_in :=
  repeat match goal with
  | |- context [match ?o with Some _ => _ | None => _ end] =>
      let E := fresh "E" in destruct o eqn:E
  | |- context [if ?b then _ else _] => let E := fresh "E" in destruct b eqn:E
  end;
  intros; try discriminate;
  first [ match goal with H : Resolved _ = Resolved _ |- _ => injection H as <- end; eauto with faucet
        | eauto with faucet ].

Lemma finalize_in (fs : fsys) (d : string) (t : target) (f : string) :
  finalize fs d t = Resolved f -> file_in fs f.
Proof.
  destruct t as [rel| | | |]; unfold finalize; try discriminate.
  destruct (stat fs (d ++ "/" ++ rel) =? 0)%Z eqn:E; [intros [=<-]; apply stat_file; exact E | discriminate].
Qed.

Lemma try_package_in (fs : fsys) (base f : string) : try_package fs base = Resolved f -> file_in fs f.
Proof. unfold try_package. resolved_in. Qed.

#[local] Hint Resolve finalize_in try_package_in : faucet.

Lemma load_base_in (fs : fsys) (base f : string) : load_base fs base = Resolved f -> file_in fs f.
Proof.
  unfold load_base. destruct (stat fs base =? 0)%Z eqn:E0.
  - intros [=<-]. apply stat_file. exact E0.
  - cbv iota. resolved_in.
Qed.

#[local] Hint Resolve load_base_in : faucet.

(** ** Lemmas: a package installed nowhere *)

(** No file of [fs] is named [p] or lies under a name starting with [p]. *)
Definition absent_under (fs : fsys) (p : string) : bool :=
  forallb (fun kv => negb (String.prefix p (fst kv))) fs.

(** The directories whose [package.json] [readPackageScope] reads. *)
Fixpoint scope_dirs (rparts : list string) : list string :=
  join_parts (rev rparts) :: match rparts with [] => [] | _ :: r => scope_dirs r end.

Definition no_package_json (fs : fsys) (dirs : list string) : bool :=
  forallb (fun d => match read_file fs (d ++ "/package.json") with None => true | Some _ => false end) dirs.

Lemma prefix_app (a b : string) : String.prefix a (a ++ b) = true.
Proof. induction a as [|c a IH]; [destruct b; reflexivity|]. cbn. destruct (ascii_dec c c); [exact IH | congruence]. Qed.

Lemma prefix_app_l (a b s : string) : String.prefix (a ++ b) s = true -> String.prefix a s = true.
Proof.
  revert s. induction a as [|c a IH]; intros s H; [destruct s; reflexivity|].
  destruct s as [|d s]; [discriminate|]. cbn in *. destruct (ascii_dec c d); [apply IH; exact H | discriminate].
Qed.

Lemma absent_read (fs : fsys) (p x : string) : absent_under fs p = true -> read_file fs (p ++ x) = None.
Proof.
  induction fs as [|[q c] fs IH]; cbn; [reflexivity|]. intros [Hq Hr]%andb_prop.
  destruct (String.eqb q (p ++ x)) eqn:E; [|exact (IH Hr)].
  apply String.eqb_eq in E. subst q. rewrite prefix_app in Hq. discriminate.
Qed.

Lemma absent_dir (fs : fsys) (p x : string) : absent_under fs p = true -> is_dir fs (p ++ x) = false.
Proof.
  unfold is_dir, absent_under. intros H. apply not_true_is_false. intros [[q c] [Hin Hq]]%existsb_exists.
  eapply forallb_forall in H; [|exact Hin]. cbn in *. rewrite str_app_assoc in Hq.
  apply prefix_app_l in Hq. rewrite Hq in H. discriminate.
Qed.

Lemma absent_stat (fs : fsys) (p x : string) : absent_under fs p = true -> stat fs (p ++ x) = (-2)%Z.
Proof. intros H. unfold stat. rewrite (absent_read _ _ _ H), (absent_dir _ _ _ H). reflexivity. Qed.

Lemma absent_stat0 (fs : fsys) (p : string) : absent_under fs p = true -> stat fs p = (-2)%Z.
Proof. intros H. rewrite <- (str_app_nil_r p). exact (absent_stat _ _ _ H). Qed.

Lemma package_scope_none (fs : fsys) (rparts : list string) :
  no_package_json fs (scope_dirs rparts) = true -> package_scope fs rparts = NoScope.
Proof.
  induction rparts as [|s r IH]; cbn [scope_dirs no_package_json forallb package_scope]; intros H;
    apply andb_prop in H as [H0 H1]; unfold read_package;
    destruct (read_file fs _); try discriminate; [reflexivity|].
  destruct (String.eqb s "node_modules"); [reflexivity | exact (IH H1)].
Qed.

Lemma find_in_dir_absent (fs : fsys) (conds : list string) (request d : string) :
  absent_under fs (d ++ "/" ++ request) = true -> find_in_dir fs conds request d = NotFound.
Proof.
  intros H. unfold find_in_dir. destruct (stat fs d <? 1)%Z; [reflexivity|].
  unfold read_package. rewrite (absent_read _ _ _ H). unfold load_base.
  rewrite (absent_stat0 _ _ H). cbn -[stat try_extensions].
  unfold try_extensions. cbn [map extensions find]. rewrite !(absent_stat _ _ _ H). reflexivity.
Qed.

Lemma find_path_skip (fs : fsys) (conds : list string) (request : string) (ds1 ds2 : list string) :
  forallb (fun d => absent_under fs (d ++ "/" ++ request)) ds1 = true ->
  find_path fs conds request (ds1 ++ ds2) = find_path fs conds request ds2.
Proof.
  induction ds1 as [|d r IH]; cbn; [reflexivity|]. intros [Hd Hr]%andb_prop.
  rewrite (find_in_dir_absent _ _ _ _ Hd). exact (IH Hr).
Qed.

Lemma find_path_absent (fs : fsys) (conds : list string) (request : string) (paths : list string) :
  forallb (fun d => absent_under fs (d ++ "/" ++ request)) paths = true ->
  find_path fs conds request paths = NotFound.
Proof. intros H. rewrite <- (app_nil_r paths), (find_path_skip _ _ _ _ _ H). reflexivity. Qed.

Lemma require_missing (fs : fsys) (conds globals dir_parts : list string) (request : string) :
  no_package_json fs (scope_dirs (rev dir_parts)) = true ->
  forallb (fun d => absent_under fs (d ++ "/" ++ request)) (node_module_paths (join_parts dir_parts) ++ globals) = true ->
  require_resolve fs conds globals dir_parts request = Failed (ModuleNotFound (not_found_message dir_parts request)).
Proof.
  intros Hs Hp. unfold require_resolve, try_self. rewrite (package_scope_none _ _ Hs).
  rewrite (find_path_absent _ _ _ _ Hp). reflexivity.
Qed.

(** ** The published axios package *)

(** The [exports] field of axios 1.x's [package.json] as far as the
    request ["axios"] reads it: the conditions of ["."] (type
    declarations, the browser build, and by default the CommonJS build
    for [require] or the ES module [index.js]), and [./package.json]. *)
Definition axios_exports : jval :=
  JObj [(".", JObj [("types", JObj [("require", JStr "./index.d.cts"); ("default", JStr "./index.d.ts")]);
                    ("browser", JObj [("require", JStr "./dist/browser/axios.cjs"); ("default", JStr "./index.js")]);
                    ("default", JObj [("require", JStr "./dist/node/axios.cjs"); ("default", JStr "./index.js")])]);
        ("./package.json", JStr "./package.json")].

Lemma axios_exports_cjs : exports_resolve cjs_conditions axios_exports = TFound "dist/node/axios.cjs".
Proof. vm_compute. reflexivity. Qed.

Lemma read_file_in (fs : fsys) (p c : string) : read_file fs p = Some c -> In (p, c) fs.
Proof.
  induction fs as [|[q d] fs IH]; cbn; [discriminate|].
  destruct (String.eqb q p) eqn:E; [apply String.eqb_eq in E; intros [=<-]; subst; left; reflexivity|].
  intros H. right. exact (IH H).
Qed.

Lemma read_file_dir (fs : fsys) (p x c : string) : read_file fs (p ++ "/" ++ x) = Some c -> is_dir fs p = true.
Proof.
  intros H. apply read_file_in in H. unfold is_dir. apply existsb_exists. exists (p ++ "/" ++ x, c).
  split; [exact H|]. cbn [fst]. rewrite <- str_app_assoc. apply prefix_app.
Qed.

Lemma require_nearest_resolves (fs : fsys) (globals dir_parts ds1 ds2 : list string) (D : string) (j : jval) (c : string) :
  (node_module_paths (join_parts dir_parts) ++ globals)%list = (ds1 ++ D :: ds2)%list ->
  forallb (fun d => absent_under fs (d ++ "/" ++ "axios")) ds1 = true ->
  no_package_json fs (scope_dirs (rev dir_parts)) = true ->
  read_file fs D = None ->
  read_package fs (D ++ "/" ++ "axios") = PkgFound j ->
  exports_of j = Some axios_exports ->
  read_file fs (D ++ "/axios/dist/node/axios.cjs") = Some c ->
  require_resolve fs cjs_conditions globals dir_parts "axios" = Resolved (D ++ "/axios/dist/node/axios.cjs").
Proof.
  intros Hl H1 Hs Hd Hj Hx Hf.
  unfold require_resolve, try_self. rewrite (package_scope_none _ _ Hs), Hl, (find_path_skip _ _ _ _ _ H1).
  cbn [find_path].
  assert (Hdir : is_dir fs D = true).
  { pose proof Hj as Hj'. unfold read_package in Hj'.
    match type of Hj' with context [read_file fs ?p] => destruct (read_file fs p) as [t|] eqn:E end;
      [clear Hj' | discriminate Hj'].
    apply (read_file_dir _ _ "axios/package.json" t). rewrite <- E, !str_app_assoc. reflexivity. }
  unfold find_in_dir. replace (stat fs D) with 1%Z by (unfold stat; rewrite Hd, Hdir; reflexivity).
  cbv zeta. rewrite Hj, Hx. cbn -[finalize exports_resolve]. rewrite axios_exports_cjs.
  unfold finalize. rewrite !str_app_assoc. cbn [String.append].
  unfold stat. rewrite Hf. reflexivity.
Qed.

(** C13: a script whose directory has no [package.json] above it
    loads, from the first lookup directory [D] where axios is installed
    (nothing named [axios] in the directories before it), the CommonJS
    build [D/axios/dist/node/axios.cjs]: the exports' conditions pick
    the [require] target of the [default] branch, not the browser build
    nor the ES module [index.js]. *)
Theorem require_nearest_axios (fs : fsys) (globals dir_parts ds1 ds2 : list string) (D : string) (j : jval) (c : string) :
  (node_module_paths (join_parts dir_parts) ++ globals)%list = (ds1 ++ D :: ds2)%list ->
  forallb (fun d => absent_under fs (d ++ "/" ++ "axios")) ds1 = true ->
  no_package_json fs (scope_dirs (rev dir_parts)) = true ->
  read_file fs D = None ->
  read_package fs (D ++ "/" ++ "axios") = PkgFound j ->
  exports_of j = Some axios_exports ->
  read_file fs (D ++ "/axios/dist/node/axios.cjs") = Some c ->
  require_resolve fs cjs_conditions globals dir_parts "axios" = Resolved (D ++ "/axios/dist/node/axios.cjs").
Proof. apply require_nearest_resolves. Qed.

Definition example_install : fsys :=
  [("/home/app/src/index.js", "const axios = require('axios');");
   ("/home/app/node_modules/axios/package.json",
    stringify (JObj [("name", JStr "axios"); ("main", JStr "index.js"); ("type", JStr "module"); ("exports", axios_exports)]));
   ("/home/app/node_modules/axios/index.js", "export default axios;");
   ("/home/app/node_modules/axios/dist/node/axios.cjs", "module.exports = axios;")].

Lemma require_nearest_axios_witness :
  require_resolve example_install cjs_conditions [] ["home"; "app"; "src"] "axios"
  = Resolved "/home/app/node_modules/axios/dist/node/axios.cjs".
Proof.
  apply (require_nearest_axios example_install [] ["home"; "app"; "src"] ["/home/app/src/node_modules"]
           ["/home/node_modules"; "/node_modules"] "/home/app/node_modules"
           (JObj [("name", JStr "axios"); ("main", JStr "index.js"); ("type", JStr "module"); ("exports", axios_exports)])
           "module.exports = axios;");
    vm_compute; reflexivity.
Defined.

End Modules.
