(* ===== verification/Inspect.v ===== *)
(** * Node's util.inspect on the values the script prints

    [console.log(response.data)] (line 25 of [src/index.js]) formats its
    argument with [util.formatWithOptions], which calls [util.inspect]
    with the default options on every argument that is not a string:
    [depth] 2, [breakLength] 80, [compact] 3, [maxArrayLength] 100,
    [maxStringLength] 10000, no colours.  This file models
    [formatValue], [formatRaw], [formatPrimitive], [formatNumber],
    [formatArray], [formatProperty], [groupArrayElements],
    [isBelowBreakLength] and [reduceToSingleString] of Node's
    [lib/internal/util/inspect.js] on JSON values.

    The inspection context [ctx] is an object every call shares and
    mutates: [formatProperty] raises [ctx.indentationLvl] by two around
    the formatting of a value and lowers it after, and [formatRaw] sets
    [ctx.currentDepth] before formatting the entries of an object, which
    [reduceToSingleString] reads after they are formatted.  [ictx] holds
    these two fields and [format_value] threads it.  Its budget
    counters, which only stop the inspection past 2^27 characters, and
    its list of objects being formatted, which only detects cycles, are
    not modelled: a JSON value has neither. *)

From S2P Require Import Prelude Number NumberText Float Json Headers.

Module Inspect.

Import Number NumberText Float Json Headers.

(** ** The default options *)

Definition inspect_depth : nat := 2.
Definition break_length : nat := 80.
Definition compact : nat := 3.
Definition max_array_length : nat := 100.
Definition max_string_length : nat := 10000.
(** [kMinLineWidth]: strings up to this length are never split. *)
Definition min_line_width : nat := 16.

(** ** Strings and keys *)

Definition has_char (n : nat) (s : string) : bool :=
  negb (all_chars (fun c => negb (Nat.eqb (code c) n)) s).

Definition hex_upper (n : nat) : ascii := if (n <? 10)%nat then chr (48 + n) else chr (55 + n).

(** Whether a string holds [${]. *)
Fixpoint has_template_start (s : string) : bool :=
  match s with
  | EmptyString => false
  | c ::: r =>
      (Nat.eqb (code c) 36 && match r with d ::: _ => Nat.eqb (code d) 123 | EmptyString => false end)
      || has_template_start r
  end.

(** strEscape of util.inspect: single quotes, or double quotes when the
    string holds a single quote and no double quote, or backticks when
    it holds both but neither a backtick nor [${]; else single quotes;
    the chosen quote, the backslash and the control characters are
    escaped. *)
Definition quote_char (s : string) : ascii :=
  if negb (has_char 39 s) then chr 39
  else if negb (has_char 34 s) then chr 34
  else if negb (has_char 96 s) && negb (has_template_start s) then chr 96
  else chr 39.

Definition inspect_escape (q : ascii) (c : ascii) : string :=
  let n := code c in
  if Ascii.eqb c q then bslash ::: c ::: EmptyString
  else match n with
       | 92 => bslash ::: bslash ::: EmptyString
       | 8 => bslash ::: "b"
       | 9 => bslash ::: "t"
       | 10 => bslash ::: "n"
       | 12 => bslash ::: "f"
       | 13 => bslash ::: "r"
       | _ => if ((n <? 32) || ((127 <=? n) && (n <=? 159)))%nat
              then bslash ::: "x" ++ (hex_upper (n / 16) ::: hex_upper (n mod 16) ::: EmptyString)
              else c ::: EmptyString
       end.

Fixpoint escape_with (q : ascii) (s : string) : string :=
  match s with
  | EmptyString => EmptyString
  | c ::: r => inspect_escape q c ++ escape_with q r
  end.

Definition str_escape (s : string) : string :=
  let q := quote_char s in q ::: escape_with q s ++ (q ::: EmptyString).

(** A key printed without quotes: an identifier [^[a-zA-Z_][a-zA-Z_0-9]*$]. *)
Definition ident_start (c : ascii) : bool :=
  let n := code c in (((65 <=? n) && (n <=? 90)) || ((97 <=? n) && (n <=? 122)) || (n =? 95))%nat.

Definition is_identifier (s : string) : bool :=
  match s with
  | EmptyString => false
  | c ::: r => ident_start c && all_chars (fun d => ident_start d || is_digit d) r
  end.

(** The name of a property in [formatProperty]: [['__proto__']] for
    the own key [__proto__], the key itself when it is an identifier,
    else the key quoted by strEscape. *)
Definition inspect_key (k : string) : string :=
  if String.eqb k "__proto__" then "['__proto__']"
  else if is_identifier k then k else str_escape k.

Fixpoint join_sep (sep : string) (l : list string) : string :=
  match l with
  | [] => EmptyString
  | [x] => x
  | x :: r => x ++ sep ++ join_sep sep r
  end.

(** util.inspect's formatNumber: negative zero is written [-0], every
    other number as Number::toString writes it. *)
Definition format_number (x : number) : string :=
  match x with
  | Fin true m _ => if (m =? 0)%Z then "-0" else to_string x
  | _ => to_string x
  end.

(** The one-line form of a value: every array and object written on one
    line, whatever its length and depth.  It is what util.inspect prints
    for small values ([inspect_value_single_line] below). *)
Fixpoint single_line (j : jval) : string :=
  match j with
  | JNull => "null"
  | JBool true => "true"
  | JBool false => "false"
  | JNum n => format_number n
  | JStr s => str_escape s
  | JArr [] => "[]"
  | JArr l => "[ " ++ join_sep ", " (map single_line l) ++ " ]"
  | JObj [] => "{}"
  | JObj fs =>
      "{ " ++ join_sep ", " (map (fun kv => inspect_key (fst kv) ++ ": " ++ snd kv)
                                 (own_keys_order (map (fun kv => (fst kv, single_line (snd kv))) fs)))
      ++ " }"
  end.

(** [String.prototype.repeat(' ', n)]. *)
Fixpoint spaces (n : nat) : string :=
  match n with O => EmptyString | S n' => " " ++ spaces n' end.

(** [padStart] and [padEnd] with spaces to the width [w]. *)
Definition pad_start (s : string) (w : nat) : string := spaces (w - String.length s) ++ s.
Definition pad_end (s : string) (w : nat) : string := s ++ spaces (w - String.length s).

(** [value.split(/(?<=\n)/)]: the string cut after every line feed
    that is not its last character. *)
Fixpoint split_new_lines (s : string) : list string :=
  match s with
  | EmptyString => [EmptyString]
  | c ::: EmptyString => [c ::: EmptyString]
  | c ::: r =>
      if (code c =? 10)%nat then (c ::: EmptyString) :: split_new_lines r
      else match split_new_lines r with
           | l :: ls => (c ::: l) :: ls
           | [] => [c ::: EmptyString]
           end
  end.

(** The text after a truncated list or string: [... n more items]. *)
Definition more_text (n : nat) (what : string) : string :=
  "... " ++ number_to_string (Z.of_nat n) ++ " more " ++ what ++ (if (1 <? n)%nat then "s" else EmptyString).

(** formatPrimitive on a string, at indentation [indent]: beyond
    [maxStringLength] characters the rest is cut and counted; a string
    longer than 16 characters and than [breakLength - indent - 4] is
    written line by line, each line quoted, joined by [ +] and a new
    line indented by [indent + 2]. *)
Definition format_string (indent : nat) (s : string) : string :=
  let len := String.length s in
  let v := if (max_string_length <? len)%nat then substring 0 max_string_length s else s in
  let trailer := if (max_string_length <? len)%nat
                 then more_text (len - max_string_length) "character" else EmptyString in
  if ((min_line_width <? String.length v)%nat
      && (Z.of_nat break_length - Z.of_nat indent - 4 <? Z.of_nat (String.length v))%Z)%bool
  then join_sep (" +" ++ LF ::: spaces (indent + 2)) (map str_escape (split_new_lines v)) ++ trailer
  else str_escape v ++ trailer.

(** ** The inspection context *)

Record ictx := mk_ictx { indentation_lvl : nat; current_depth : nat }.

(** The context [inspect] creates. *)
Definition ctx0 : ictx := mk_ictx 0 0.

Definition indent_by (d : Z) (c : ictx) : ictx :=
  mk_ictx (Z.to_nat (Z.of_nat (indentation_lvl c) + d)) (current_depth c).

Definition set_current_depth (n : nat) (c : ictx) : ictx := mk_ictx (indentation_lvl c) n.

(** ** groupArrayElements *)

Definition approx_char_heights : number := of_frac 5 2.

(** The width of column [i] of [cols]: the longest of the entries in it
    (of the first [data_len]), plus the separator. *)
Definition column_width (cols : nat) (data_len : list nat) (i : nat) : nat :=
  2 + fold_right Nat.max 0
        (map snd (filter (fun p => (fst p mod cols =? i)%nat) (combine (seq 0 (length data_len)) data_len))).

(** The rows of [cols] entries, the last one possibly shorter; [fuel]
    is the number of entries, one at least per row. *)
Fixpoint rows {A} (fuel cols : nat) (l : list A) : list (list A) :=
  match fuel, l with
  | O, _ | _, [] => []
  | S f, _ => firstn cols l :: rows f cols (skipn cols l)
  end.

(** One row: each entry but the last followed by [, ] and padded to its
    column's width, at the start when every element is a number (right
    aligned), else at the end; the last entry is padded at the start to
    its width less the separator when right aligned. *)
Fixpoint row_text (numeric : bool) (widths : list nat) (row : list string) : string :=
  match row, widths with
  | [s], w :: _ => if numeric then pad_start s (w - 2) else s
  | s :: r, w :: ws => (if numeric then pad_start else pad_end) (s ++ ", ") w ++ row_text numeric ws r
  | _, _ => EmptyString
  end.

(** The number of columns: as many as make the grouped block about
    square for characters 2.5 times as high as wide, at most what fits
    in [breakLength], [4 * compact] and 15. *)
Definition group_columns (indent : nat) (output_length entries : nat) (total_length actual_max : nat) : Z :=
  let average_bias := dsqrt (dsub (of_Z (Z.of_nat actual_max))
                                  (ddiv (of_Z (Z.of_nat total_length)) (of_Z (Z.of_nat entries)))) in
  let biased_max := dmax (dsub (dsub (of_Z (Z.of_nat actual_max)) (of_Z 3)) average_bias) (of_Z 1) in
  Z.min (Z.min (Z.min
    (dround (ddiv (dsqrt (dmul (dmul approx_char_heights biased_max) (of_Z (Z.of_nat output_length))))
                  biased_max))
    (dfloor (ddiv (of_Z (Z.of_nat break_length - Z.of_nat indent)) (of_Z (Z.of_nat actual_max)))))
    (Z.of_nat compact * 4)) 15.

(** groupArrayElements: the entries of an array of more than six,
    grouped in rows of columns when at least three fit side by side and
    no entry is much longer than the others; the [... more items] entry
    stays on a line of its own. *)
Definition group_array_elements (indent : nat) (output : list string) (numeric : bool) : list string :=
  let output_length := if (max_array_length <? length output)%nat then pred (length output) else length output in
  let data_len := map String.length (firstn output_length output) in
  let total_length := fold_right (fun l t => l + 2 + t)%nat 0%nat data_len in
  let max_length := fold_right Nat.max 0%nat data_len in
  let actual_max := (max_length + 2)%nat in
  if ((actual_max * 3 + indent <? break_length)%nat
      && (dlt (of_Z 5) (ddiv (of_Z (Z.of_nat total_length)) (of_Z (Z.of_nat actual_max)))
          || (max_length <=? 6)%nat))%bool then
    let columns := group_columns indent output_length (length output) total_length actual_max in
    if (columns <=? 1)%Z then output else
    let widths := map (column_width (Z.to_nat columns) data_len) (seq 0 (Z.to_nat columns)) in
    map (row_text numeric widths) (rows output_length (Z.to_nat columns) (firstn output_length output))
      ++ skipn output_length output
  else output.

(** ** reduceToSingleString *)

(** isBelowBreakLength: the entries, their separators and [start] fit
    in [breakLength]. *)
Fixpoint below_from (total : nat) (output : list string) : bool :=
  match output with
  | [] => true
  | s :: r => let t := (total + String.length s)%nat in if (break_length <? t)%nat then false else below_from t r
  end.

Definition is_below_break_length (output : list string) (start : nat) : bool :=
  let total := (length output + start)%nat in
  if (break_length <? total + length output)%nat then false else below_from total output.

(** The entries on one line between the braces when the object's
    nesting below it is under [compact] levels, no grouping happened,
    they fit and none spans lines; else one entry per line, indented two
    columns beyond the object. *)
Definition reduce_to_single_string (ctx : ictx) (output : list string) (braces : string * string)
    (is_array : bool) (recurse_times : nat) (numeric : bool) : string :=
  let entries := length output in
  let output' := if (is_array && (6 <? entries)%nat)%bool
                 then group_array_elements (indentation_lvl ctx) output numeric else output in
  let single :=
    if ((Z.of_nat (current_depth ctx) - Z.of_nat recurse_times <? Z.of_nat compact)%Z
        && (entries =? length output')%nat)%bool then
      let start := (length output' + indentation_lvl ctx + String.length (fst braces) + 10)%nat in
      if is_below_break_length output' start then
        let joined := join_sep ", " output' in
        if has_char 10 joined then None else Some (fst braces ++ " " ++ joined ++ " " ++ snd braces)
      else None
    else None in
  match single with
  | Some s => s
  | None =>
      let ind := LF ::: spaces (indentation_lvl ctx) in
      fst braces ++ ind ++ "  " ++ join_sep ("," ++ ind ++ "  ") output' ++ ind ++ snd braces
  end.

(** ** formatValue *)

(** formatProperty's call of formatValue: two more columns of
    indentation around it. *)
Definition format_property (f : ictx -> jval -> string * ictx) (ctx : ictx) (x : jval) : string * ictx :=
  let '(s, c) := f (indent_by 2 ctx) x in (s, indent_by (-2) c).

(** formatArray: the first [maxArrayLength] elements, then the count of
    the others. *)
Fixpoint format_elems (f : ictx -> jval -> string * ictx) (n : nat) (ctx : ictx) (l : list jval)
    : list string * ictx :=
  match l, n with
  | [], _ => ([], ctx)
  | _, O => ([more_text (length l) "item"], ctx)
  | x :: xs, S n' =>
      let '(s, c1) := format_property f ctx x in
      let '(ss, c2) := format_elems f n' c1 xs in (s :: ss, c2)
  end.

(** The properties of an object in the order of [Object.keys]. *)
Fixpoint format_props (f : ictx -> jval -> string * ictx) (ctx : ictx) (fs : list (string * jval))
    : list string * ictx :=
  match fs with
  | [] => ([], ctx)
  | (k, x) :: r =>
      let '(s, c1) := format_property f ctx x in
      let '(ss, c2) := format_props f c1 r in ((inspect_key k ++ ": " ++ s) :: ss, c2)
  end.

Definition is_number (v : jval) : bool := match v with JNum _ => true | _ => false end.

(** [formatValue(ctx, value, recurseTimes)] with [recurseTimes =
    depth + 1 - left]: [left] counts the levels that may still be
    expanded, and an object or array met when none is left is written
    [[Object]] or [[Array]].  formatRaw raises [recurseTimes] by one and
    records it in [ctx.currentDepth] before formatting the entries. *)
Fixpoint format_value (left : nat) (ctx : ictx) (v : jval) {struct left} : string * ictx :=
  match v with
  | JNull => ("null", ctx)
  | JBool true => ("true", ctx)
  | JBool false => ("false", ctx)
  | JNum x => (format_number x, ctx)
  | JStr s => (format_string (indentation_lvl ctx) s, ctx)
  | JArr [] => ("[]", ctx)
  | JObj [] => ("{}", ctx)
  | JArr l =>
      match left with
      | O => ("[Array]", ctx)
      | S left' =>
          let rt := (inspect_depth + 2 - left)%nat in
          let '(out, c) := format_elems (format_value left') max_array_length (set_current_depth rt ctx) l in
          (reduce_to_single_string c out ("[", "]") true rt (forallb is_number (firstn (length out) l)), c)
      end
  | JObj fs =>
      match left with
      | O => ("[Object]", ctx)
      | S left' =>
          let rt := (inspect_depth + 2 - left)%nat in
          let '(out, c) := format_props (format_value left') (set_current_depth rt ctx) (own_keys_order fs) in
          (reduce_to_single_string c out ("{", "}") false rt false, c)
      end
  end.

(** [util.inspect(value)] with the default options. *)
Definition inspect_value (v : jval) : string := fst (format_value (S inspect_depth) ctx0 v).

(** ** Lemmas: the context through the entries *)

Section Entries.
Variable f : ictx -> jval -> string * ictx.

(** An invariant of the context that every property's formatting keeps
    holds after all the entries of an array or an object. *)
Variable I : ictx -> Prop.
Hypothesis HI : forall c x, I c -> I (snd (format_property f c x)).

(** When each element is formatted to [g x] from a context of the
    invariant, the entries are [map g]. *)
Variable g : jval -> string.

End Entries.

(** ** Lemmas: texts without line breaks *)

(** ** The shared context: indentation and depth *)

(** What formatting a value at [left] does to [ctx.currentDepth]: it
    keeps it (a primitive, an empty or a cut-off object) or leaves it
    between the value's own [recurseTimes] and [depth + 1]. *)
Definition depth_effect (left : nat) (c c' : ictx) : Prop :=
  current_depth c' = current_depth c \/
  (inspect_depth + 2 - left <= current_depth c' <= S inspect_depth)%nat.

Section EntriesDepth.
Variable left : nat.
Hypothesis IH : forall ctx v, (left <= S inspect_depth)%nat -> depth_effect left ctx (snd (format_value left ctx v)).
Hypothesis Hl : (S left <= S inspect_depth)%nat.

Let rt := (inspect_depth + 2 - S left)%nat.
Let I (c : ictx) : Prop := (rt <= current_depth c <= S inspect_depth)%nat.

End EntriesDepth.

(** ** The one-line form is what util.inspect prints when it fits *)

(** The levels of non-empty arrays and objects in a value. *)
Fixpoint nest (v : jval) : nat :=
  match v with
  | JArr [] | JObj [] => 0
  | JArr l => S (fold_right (fun x m => Nat.max (nest x) m) 0 l)
  | JObj fs => S (fold_right (fun kv m => Nat.max (nest (snd kv)) m) 0 fs)
  | _ => 0
  end.

(** Every array of the value has at most six elements, the most
    [groupArrayElements] leaves alone. *)
Fixpoint short_arrays (v : jval) : bool :=
  match v with
  | JArr l => (length l <=? 6)%nat && forallb short_arrays l
  | JObj fs => forallb (fun kv => short_arrays (snd kv)) fs
  | _ => true
  end.

(** ** Properties *)

End Inspect.
