(* ===== verification/Promise.v ===== *)
(** * The ECMAScript promise machine and the host event loop

    Lines 23-26 of [src/index.js] build a chain of three promises:
    [p0 = axios.post(...)], [p1 = p0.then(onFulfilled)] and
    [p2 = p1.catch(onRejected)].  What the script prints, and whether the
    process exits cleanly, follows from the promise algorithms of
    ECMA-262 (section 27.2) and from Node's host hooks.  This file models
    them generically: values [V], the world [W] the handlers act on, and
    handler closures [H] whose behaviour is given by [call].

    - [machine]: the promise heap (promise records indexed by their
      allocation number), the job queue of PromiseReactionJobs, Node's
      list of rejected promises without a handler, the pending host
      operations, and the world.
    - [perform_then] is PerformPromiseThen, [fulfill] and [reject] are
      FulfillPromise and RejectPromise with TriggerPromiseReactions,
      [run_job] is NewPromiseReactionJob, [track_reject]/[track_handle]
      are HostPromiseRejectionTracker.
    - [step] is the event loop: run a job, or when the job queue is empty
      either crash on an unhandled rejection, settle a pending host
      operation with an outcome chosen by the environment, or exit.
      [run] executes it with fuel and a list of outcomes.

    Resolution values are not thenables in this model (the handlers of
    the script return [undefined]), so resolving a promise fulfils it. *)

From S2P Require Import Prelude.
From stdpp Require Import base list.

Module Promise.

Inductive completion (V : Type) : Type :=
| Normal (v : V)
| Throw (e : V).
Arguments Normal {V} v.
Arguments Throw {V} e.

(** [[Type]] of a PromiseReaction record. *)
Inductive rkind := KFulfill | KReject.

(** A PromiseReaction: the capability's promise, its type and its
    handler ([None] is the empty handler of [then] called with a
    non-callable argument). *)
Record reaction (H : Type) := mk_reaction {
  r_cap : nat;
  r_kind : rkind;
  r_handler : option H
}.
Arguments mk_reaction {H} r_cap r_kind r_handler.
Arguments r_cap {H} r.
Arguments r_kind {H} r.
Arguments r_handler {H} r.

(** [[PromiseState]] with the reaction lists of a pending promise. *)
Inductive pstate (V H : Type) : Type :=
| Pending (fulfill_reactions reject_reactions : list (reaction H))
| Fulfilled (v : V)
| Rejected (r : V).
Arguments Pending {V H} fulfill_reactions reject_reactions.
Arguments Fulfilled {V H} v.
Arguments Rejected {V H} r.

Record promise (V H : Type) := mk_promise {
  p_state : pstate V H;
  p_handled : bool   (** [[PromiseIsHandled]] *)
}.
Arguments mk_promise {V H} p_state p_handled.
Arguments p_state {V H} p.
Arguments p_handled {V H} p.

(** A PromiseReactionJob: a reaction and its argument. *)
Record job (V H : Type) := mk_job { j_reaction : reaction H; j_arg : V }.
Arguments mk_job {V H} j_reaction j_arg.
Arguments j_reaction {V H} j.
Arguments j_arg {V H} j.

Record machine (V W H : Type) := mk_machine {
  heap : list (promise V H);
  jobs : list (job V H);
  unhandled : list nat;   (** rejected promises without a handler *)
  io : list nat;          (** promises a pending host operation settles *)
  world : W
}.
Arguments mk_machine {V W H} heap jobs unhandled io world.
Arguments heap {V W H} m.
Arguments jobs {V W H} m.
Arguments unhandled {V W H} m.
Arguments io {V W H} m.
Arguments world {V W H} m.

(** The event loop's state: running, or exited with a status code. *)
Inductive lstate (V W H : Type) : Type :=
| Running (m : machine V W H)
| Exited (status : nat) (m : machine V W H).
Arguments Running {V W H} m.
Arguments Exited {V W H} status m.

Section Machine.
Context {V W H : Type}.
(** Calling a handler closure on an argument in a world. *)
Variable call : H -> V -> W -> completion V * W.

Definition set_heap (hp : list (promise V H)) (m : machine V W H) : machine V W H :=
  mk_machine hp (jobs m) (unhandled m) (io m) (world m).
Definition set_jobs (js : list (job V H)) (m : machine V W H) : machine V W H :=
  mk_machine (heap m) js (unhandled m) (io m) (world m).
Definition set_unhandled (u : list nat) (m : machine V W H) : machine V W H :=
  mk_machine (heap m) (jobs m) u (io m) (world m).
Definition set_io (l : list nat) (m : machine V W H) : machine V W H :=
  mk_machine (heap m) (jobs m) (unhandled m) l (world m).
Definition set_world (w : W) (m : machine V W H) : machine V W H :=
  mk_machine (heap m) (jobs m) (unhandled m) (io m) w.

(** A new pending promise, [[PromiseIsHandled]] false. *)
Definition alloc (m : machine V W H) : nat * machine V W H :=
  (length (heap m), set_heap (heap m ++ [mk_promise (Pending [] []) false]) m).

Definition set_promise (p : nat) (pr : promise V H) (m : machine V W H) : machine V W H :=
  set_heap (<[p := pr]> (heap m)) m.

(** HostEnqueuePromiseJob, in order. *)
Definition enqueue (js : list (job V H)) (m : machine V W H) : machine V W H :=
  set_jobs (jobs m ++ js) m.

(** TriggerPromiseReactions. *)
Definition trigger (rs : list (reaction H)) (arg : V) : list (job V H) :=
  map (fun r => mk_job r arg) rs.

(** HostPromiseRejectionTracker, operations "reject" and "handle". *)
Definition track_reject (p : nat) (m : machine V W H) : machine V W H :=
  set_unhandled (unhandled m ++ [p]) m.
Definition track_handle (p : nat) (m : machine V W H) : machine V W H :=
  set_unhandled (filter (fun q => q <> p) (unhandled m)) m.

(** FulfillPromise.  Only a pending promise changes: the resolving
    functions' [[AlreadyResolved]] flag makes a second resolution a
    no-op. *)
Definition fulfill (p : nat) (v : V) (m : machine V W H) : machine V W H :=
  match heap m !! p with
  | Some (mk_promise (Pending fr _) h) =>
      enqueue (trigger fr v) (set_promise p (mk_promise (Fulfilled v) h) m)
  | _ => m
  end.

(** RejectPromise. *)
Definition reject (p : nat) (r : V) (m : machine V W H) : machine V W H :=
  match heap m !! p with
  | Some (mk_promise (Pending _ rr) h) =>
      let m1 := set_promise p (mk_promise (Rejected r) h) m in
      enqueue (trigger rr r) (if h then m1 else track_reject p m1)
  | _ => m
  end.

(** PerformPromiseThen with a fresh result capability; [None] when
    [p] is not a promise of the heap. *)
Definition perform_then (p : nat) (onF onR : option H) (m : machine V W H)
  : option (nat * machine V W H) :=
  match heap m !! p with
  | None => None
  | Some pr =>
      let '(q, m1) := alloc m in
      let fr := mk_reaction q KFulfill onF in
      let rr := mk_reaction q KReject onR in
      Some (q,
        match p_state pr with
        | Pending fs rs => set_promise p (mk_promise (Pending (fs ++ [fr]) (rs ++ [rr])) true) m1
        | Fulfilled v => enqueue [mk_job fr v] (set_promise p (mk_promise (Fulfilled v) true) m1)
        | Rejected r =>
            enqueue [mk_job rr r]
              (set_promise p (mk_promise (Rejected r) true)
                 (if p_handled pr then m1 else track_handle p m1))
        end)
  end.

(** NewPromiseReactionJob: an empty handler passes the argument on
    (identity for fulfilment, thrower for rejection); a handler's normal
    completion resolves the derived promise, its throw completion
    rejects it. *)
Definition run_job (j : job V H) (m : machine V W H) : machine V W H :=
  let r := j_reaction j in
  match r_handler r with
  | None =>
      match r_kind r with
      | KFulfill => fulfill (r_cap r) (j_arg j) m
      | KReject => reject (r_cap r) (j_arg j) m
      end
  | Some h =>
      let '(c, w') := call h (j_arg j) (world m) in
      match c with
      | Normal v => fulfill (r_cap r) v (set_world w' m)
      | Throw e => reject (r_cap r) e (set_world w' m)
      end
  end.

(** A host operation completes: its promise is fulfilled ([inl]) or
    rejected ([inr]). *)
Definition settle (p : nat) (o : V + V) (m : machine V W H) : machine V W H :=
  match o with
  | inl v => fulfill p v m
  | inr e => reject p e m
  end.

(** The event loop.  Jobs run first; with the job queue empty, Node
    exits with status 1 on an unhandled rejection, else a pending host
    operation completes with any outcome, else the process exits with
    status 0. *)
Inductive step : lstate V W H -> lstate V W H -> Prop :=
| step_job m j js :
    jobs m = j :: js ->
    step (Running m) (Running (run_job j (set_jobs js m)))
| step_io m ps1 p ps2 o :
    jobs m = [] -> unhandled m = [] -> io m = ps1 ++ p :: ps2 ->
    step (Running m) (Running (settle p o (set_io (ps1 ++ ps2) m)))
| step_crash m :
    jobs m = [] -> unhandled m <> [] ->
    step (Running m) (Exited 1 m)
| step_exit m :
    jobs m = [] -> unhandled m = [] -> io m = [] ->
    step (Running m) (Exited 0 m).

Inductive star : lstate V W H -> lstate V W H -> Prop :=
| star_refl s : star s s
| star_step s1 s2 s3 : step s1 s2 -> star s2 s3 -> star s1 s3.

(** The executable event loop: host operations complete in order with
    the outcomes of [oracle]; without an outcome left it waits. *)
Fixpoint run (fuel : nat) (oracle : list (V + V)) (s : lstate V W H) : lstate V W H :=
  match fuel with
  | O => s
  | S f =>
      match s with
      | Exited _ _ => s
      | Running m =>
          match jobs m with
          | j :: js => run f oracle (Running (run_job j (set_jobs js m)))
          | [] =>
              match unhandled m with
              | _ :: _ => Exited 1 m
              | [] =>
                  match io m with
                  | [] => Exited 0 m
                  | p :: ps =>
                      match oracle with
                      | o :: os => run f os (Running (settle p o (set_io ps m)))
                      | [] => s
                      end
                  end
              end
          end
      end
  end.

End Machine.

(** ** Invariant: a settled promise keeps its state *)

Section Invariants.
Context {V W H : Type}.
Variable call : H -> V -> W -> completion V * W.

Definition mach (s : lstate V W H) : machine V W H :=
  match s with Running m => m | Exited _ m => m end.

(** The states [run] returns are reachable by the event loop. *)
Lemma run_reaches (fuel : nat) (oracle : list (V + V)) (s : lstate V W H) :
  star call s (run call fuel oracle s).
Proof.
  revert oracle s. induction fuel as [|f IH]; intros oracle s; [apply star_refl|].
  destruct s as [m|c m]; simpl; [|apply star_refl].
  destruct (jobs m) as [|j js] eqn:Ej.
  - destruct (unhandled m) as [|u us] eqn:Eu.
    + destruct (io m) as [|p ps] eqn:Eio.
      * eapply star_step; [apply step_exit; auto | apply star_refl].
      * destruct oracle as [|o os]; [apply star_refl|].
        eapply star_step; [eapply (step_io _ m [] p ps o); auto | apply IH].
    + eapply star_step; [apply step_crash; auto; congruence | apply star_refl].
  - eapply star_step; [apply step_job; exact Ej | apply IH].
Qed.

End Invariants.

(** ** No unhandled rejection along a chain of promises *)

Section Chain.
Context {V W H : Type}.
Variable call : H -> V -> W -> completion V * W.
(** The last promise of the chain, and the reactions that may target
    it without rejecting it. *)
Variable tail : nat.
Variable safe : reaction H -> Prop.
Hypothesis safe_handler : forall r h v w, safe r -> r_cap r = tail -> r_handler r = Some h ->
  exists v' w', call h v w = (Normal v', w').
Hypothesis safe_empty : forall r, safe r -> r_cap r = tail -> r_handler r = None -> r_kind r = KFulfill.

(** Every promise but the last has a handler, the last is never
    rejected, every reaction is safe, no host operation settles the
    last promise, and no rejection is unhandled. *)
Record chain_inv (m : machine V W H) : Prop := {
  ci_unhandled : unhandled m = [];
  ci_handled : forall i pr, heap m !! i = Some pr -> i <> tail -> p_handled pr = true;
  ci_tail : forall pr r, heap m !! tail = Some pr -> p_state pr <> Rejected r;
  ci_reactions : forall i fr rr h, heap m !! i = Some (mk_promise (Pending fr rr) h) ->
                 Forall safe fr /\ Forall safe rr;
  ci_jobs : Forall (fun j => safe (j_reaction j)) (jobs m);
  ci_io : forall p, In p (io m) -> p <> tail
}.

Lemma lookup_set_promise_Some (q : nat) (pr pr' : promise V H) (m : machine V W H) (i : nat) :
  heap (set_promise q pr m) !! i = Some pr' -> (i = q /\ pr' = pr) \/ (i <> q /\ heap m !! i = Some pr').
Proof.
  unfold set_promise. simpl. rewrite list_lookup_insert_Some. intros [(-> & -> & _)|(Hne & Hi)]; auto.
Qed.

Lemma Forall_trigger (rs : list (reaction H)) (v : V) :
  Forall safe rs -> Forall (fun j => safe (j_reaction j)) (trigger rs v).
Proof. intros Hs. unfold trigger. apply Forall_map. exact Hs. Qed.

Lemma chain_inv_fulfill (p : nat) (v : V) (m : machine V W H) :
  chain_inv m -> chain_inv (fulfill p v m).
Proof.
  intros [Hu Hh Ht Hr Hj Hio]. unfold fulfill.
  destruct (heap m !! p) as [[[fr rr|v0|r0] h]|] eqn:Hp; try (constructor; assumption).
  destruct (Hr p fr rr h Hp) as [Hfr _].
  constructor; simpl.
  - exact Hu.
  - intros i pr Hi Hne. apply lookup_set_promise_Some in Hi as [[-> ->]|[_ Hi]]; [|eauto].
    simpl. exact (Hh p _ Hp Hne).
  - intros pr r Hi. apply lookup_set_promise_Some in Hi as [[_ ->]|[_ Hi]]; [discriminate|eauto].
  - intros i fr' rr' h' Hi. apply lookup_set_promise_Some in Hi as [[_ E]|[_ Hi]]; [discriminate|eauto].
  - apply Forall_app. split; [exact Hj | apply Forall_trigger, Hfr].
  - exact Hio.
Qed.

Lemma chain_inv_reject (p : nat) (r : V) (m : machine V W H) :
  p <> tail -> chain_inv m -> chain_inv (reject p r m).
Proof.
  intros Hpt [Hu Hh Ht Hr Hj Hio]. unfold reject.
  destruct (heap m !! p) as [[[fr rr|v0|r0] h]|] eqn:Hp; try (constructor; assumption).
  destruct (Hr p fr rr h Hp) as [_ Hrr].
  pose proof (Hh p _ Hp Hpt) as Hhp. simpl in Hhp. subst h.
  constructor; simpl.
  - exact Hu.
  - intros i pr Hi Hne. apply lookup_set_promise_Some in Hi as [[-> ->]|[_ Hi]]; [reflexivity|eauto].
  - intros pr r' Hi. apply lookup_set_promise_Some in Hi as [[E _]|[_ Hi]]; [congruence|eauto].
  - intros i fr' rr' h' Hi. apply lookup_set_promise_Some in Hi as [[_ E]|[_ Hi]]; [discriminate|eauto].
  - apply Forall_app. split; [exact Hj | apply Forall_trigger, Hrr].
  - exact Hio.
Qed.

Lemma chain_inv_world (w : W) (m : machine V W H) : chain_inv m -> chain_inv (set_world w m).
Proof. intros [Hu Hh Ht Hr Hj Hio]. constructor; assumption. Qed.

Lemma chain_inv_run_job (j : job V H) (m : machine V W H) :
  safe (j_reaction j) -> chain_inv m -> chain_inv (run_job call j m).
Proof.
  intros Hs Hi. unfold run_job.
  destruct (decide (r_cap (j_reaction j) = tail)) as [Ec|Ec].
  - destruct (r_handler (j_reaction j)) as [h|] eqn:Eh.
    + destruct (safe_handler _ h (j_arg j) (world m) Hs Ec Eh) as (v' & w' & ->).
      apply chain_inv_fulfill, chain_inv_world, Hi.
    + rewrite (safe_empty _ Hs Ec Eh). apply chain_inv_fulfill, Hi.
  - destruct (r_handler (j_reaction j)) as [h|].
    + destruct (call h (j_arg j) (world m)) as [[v'|e] w'].
      * apply chain_inv_fulfill, chain_inv_world, Hi.
      * apply chain_inv_reject; [exact Ec | apply chain_inv_world, Hi].
    + destruct (r_kind (j_reaction j)); [apply chain_inv_fulfill, Hi | apply chain_inv_reject; assumption].
Qed.

Lemma chain_inv_step (m : machine V W H) (s' : lstate V W H) :
  chain_inv m -> step call (Running m) s' -> exists m', s' = Running m' /\ chain_inv m' \/ s' = Exited 0 m'.
Proof.
  intros Hi Hs. inversion Hs as [m0 j js Ej|m0 ps1 p ps2 o Ej Eu Eio|m0 Ej Eu|m0 Ej Eu Eio]; subst.
  - eexists. left. split; [reflexivity|].
    pose proof (ci_jobs _ Hi) as Hj. rewrite Ej in Hj. inversion Hj as [|? ? Hsj Hjs]; subst.
    apply chain_inv_run_job; [exact Hsj|].
    destruct Hi as [Hu Hh Ht Hr _ Hio]. constructor; assumption.
  - eexists. left. split; [reflexivity|].
    assert (Hp : p <> tail) by (apply (ci_io _ Hi); rewrite Eio; apply in_or_app; simpl; auto).
    assert (Hi' : chain_inv (set_io (ps1 ++ ps2) m)).
    { destruct Hi as [Hu Hh Ht Hr Hj Hio]. constructor; try assumption.
      intros q Hq. apply Hio. rewrite Eio. simpl in Hq.
      apply in_app_or in Hq as [Hq|Hq]; apply in_or_app; simpl; auto. }
    destruct o; [apply chain_inv_fulfill, Hi' | apply chain_inv_reject; assumption].
  - exfalso. exact (Eu (ci_unhandled _ Hi)).
  - eexists. right. reflexivity.
Qed.

(** From a state of the invariant, every run of the event loop that
    ends, ends with status 0: Node never aborts on an unhandled
    rejection. *)
Theorem chain_exit_zero (m : machine V W H) (s' : lstate V W H) :
  chain_inv m -> star call (Running m) s' ->
  match s' with Running m' => chain_inv m' | Exited c _ => c = 0 end.
Proof.
  intros Hi Hst. remember (Running m) as s eqn:Es. revert m Hi Es.
  induction Hst as [s|s1 s2 s3 H12 H23 IH]; intros m Hi Es; subst; [exact Hi|].
  destruct (chain_inv_step m s2 Hi H12) as (m' & [[-> Hi'] | ->]).
  - exact (IH m' Hi' eq_refl).
  - inversion H23 as [|? ? ? Hs _]; subst; [reflexivity | inversion Hs].
Qed.
End Chain.

(** ** Invariants of the world *)

Section WorldInvariant.
Context {V W H : Type}.
Variable call : H -> V -> W -> completion V * W.
(** A property of the world that every handler call preserves. *)
Variable P : W -> Prop.
Hypothesis call_P : forall h v w, P w -> P (snd (call h v w)).

Lemma world_fulfill (p : nat) (v : V) (m : machine V W H) : world (fulfill p v m) = world m.
Proof. unfold fulfill. destruct (heap m !! p) as [[[]]|]; reflexivity. Qed.

Lemma world_reject (p : nat) (r : V) (m : machine V W H) : world (reject p r m) = world m.
Proof. unfold reject. destruct (heap m !! p) as [[[] []]|]; reflexivity. Qed.

Lemma world_run_job (j : job V H) (m : machine V W H) : P (world m) -> P (world (run_job call j m)).
Proof.
  intros Hw. unfold run_job. destruct (r_handler (j_reaction j)) as [h|].
  - pose proof (call_P h (j_arg j) (world m) Hw) as Hc.
    destruct (call h (j_arg j) (world m)) as [[v|e] w']; cbv beta iota;
      [rewrite world_fulfill | rewrite world_reject]; exact Hc.
  - destruct (r_kind (j_reaction j)); [rewrite world_fulfill | rewrite world_reject]; exact Hw.
Qed.

Lemma world_step (s s' : lstate V W H) : step call s s' -> P (world (mach s)) -> P (world (mach s')).
Proof.
  intros Hs Hw. inversion Hs as [m j js _|m ps1 p ps2 o _ _ _|m _ _|m _ _ _]; subst; cbn [mach] in *.
  - apply world_run_job. exact Hw.
  - unfold settle. destruct o; [rewrite world_fulfill | rewrite world_reject]; exact Hw.
  - exact Hw.
  - exact Hw.
Qed.

Theorem world_star (s s' : lstate V W H) : star call s s' -> P (world (mach s)) -> P (world (mach s')).
Proof. induction 1; eauto using world_step. Qed.
End WorldInvariant.

(** ** Termination of the event loop *)

Section Termination.
Context {V W H : Type}.
Variable call : H -> V -> W -> completion V * W.

(** The jobs a promise record can still queue: settling it queues its
    fulfil reactions or its reject reactions, never both. *)
Definition weight (pr : promise V H) : nat :=
  match p_state pr with Pending fr rr => Nat.max (length fr) (length rr) | _ => 0 end.

Fixpoint heap_weight (hp : list (promise V H)) : nat :=
  match hp with [] => 0 | pr :: r => weight pr + heap_weight r end.

(** A bound on the steps left: each queued job runs once, each host
    operation completes once, each pending promise queues at most its
    weight in jobs, and exiting is the last step. *)
Definition potential (m : machine V W H) : nat :=
  length (jobs m) + heap_weight (heap m) + length (io m).

Definition lpotential (s : lstate V W H) : nat :=
  match s with Running m => S (potential m) | Exited _ _ => 0 end.

(** [n] steps of the event loop. *)
Inductive steps : nat -> lstate V W H -> lstate V W H -> Prop :=
| steps_refl s : steps 0 s s
| steps_step n s1 s2 s3 : step call s1 s2 -> steps n s2 s3 -> steps (S n) s1 s3.

Lemma heap_weight_insert (hp : list (promise V H)) (p : nat) (pr pr0 : promise V H) :
  hp !! p = Some pr0 -> heap_weight (<[p := pr]> hp) + weight pr0 = heap_weight hp + weight pr.
Proof.
  revert p. induction hp as [|x hp IH]; intros [|p] Hp; simpl in *; try discriminate.
  - injection Hp as ->. lia.
  - specialize (IH p Hp). lia.
Qed.

Lemma potential_fulfill (p : nat) (v : V) (m : machine V W H) :
  potential (fulfill p v m) <= potential m.
Proof.
  unfold fulfill. destruct (heap m !! p) as [[[fr rr|v0|r0] h]|] eqn:Hp; try lia.
  pose proof (heap_weight_insert (heap m) p (mk_promise (Fulfilled v) h) _ Hp) as E.
  unfold potential, weight, trigger in *; simpl in *. rewrite length_app, length_map. lia.
Qed.

Lemma potential_reject (p : nat) (r : V) (m : machine V W H) :
  potential (reject p r m) <= potential m.
Proof.
  unfold reject. destruct (heap m !! p) as [[[fr rr|v0|r0] h]|] eqn:Hp; try lia.
  pose proof (heap_weight_insert (heap m) p (mk_promise (Rejected r) h) _ Hp) as E.
  unfold potential, weight, trigger in *; destruct h; simpl in *; rewrite length_app, length_map; lia.
Qed.

Lemma potential_run_job (j : job V H) (m : machine V W H) :
  potential (run_job call j m) <= potential m.
Proof.
  unfold run_job. destruct (r_handler (j_reaction j)) as [h|].
  - destruct (call h (j_arg j) (world m)) as [[v|e] w'];
      [apply (potential_fulfill _ _ (set_world w' m)) | apply (potential_reject _ _ (set_world w' m))].
  - destruct (r_kind (j_reaction j)); [apply potential_fulfill | apply potential_reject].
Qed.

Lemma potential_settle (p : nat) (o : V + V) (m : machine V W H) :
  potential (settle p o m) <= potential m.
Proof. destruct o; [apply potential_fulfill | apply potential_reject]. Qed.

(** Every step lowers the bound. *)
Lemma step_potential (s s' : lstate V W H) : step call s s' -> lpotential s' < lpotential s.
Proof.
  intros Hs. inversion Hs as [m j js Ej|m ps1 p ps2 o Ej Eu Eio|m Ej Eu|m Ej Eu Eio]; subst; simpl; try lia.
  - pose proof (potential_run_job j (set_jobs js m)) as Hj.
    unfold potential in *. simpl in *. rewrite Ej in *. simpl in *. lia.
  - pose proof (potential_settle p o (set_io (ps1 ++ ps2) m)) as Hp.
    unfold potential in *. simpl in *. rewrite Eio, !length_app in *. simpl in *. lia.
Qed.

Lemma steps_potential (n : nat) (s s' : lstate V W H) :
  steps n s s' -> n + lpotential s' <= lpotential s.
Proof.
  induction 1 as [s|n s1 s2 s3 H12 _ IH]; [lia|].
  pose proof (step_potential s1 s2 H12). lia.
Qed.

(** A running process always has a step: a job to run, a rejection to
    abort on, a host operation to complete, or the exit. *)
Lemma step_progress (m : machine V W H) (o : V + V) : exists s', step call (Running m) s'.
Proof.
  destruct (jobs m) as [|j js] eqn:Ej; [|eexists; apply step_job; exact Ej].
  destruct (unhandled m) as [|u us] eqn:Eu; [|eexists; apply step_crash; [exact Ej | congruence]].
  destruct (io m) as [|p ps] eqn:Eio; [eexists; apply step_exit; assumption|].
  eexists. apply (step_io _ m [] p ps o); assumption.
Qed.

Lemma steps_star (n : nat) (s s' : lstate V W H) : steps n s s' -> star call s s'.
Proof. induction 1; econstructor; eassumption. Qed.

End Termination.

End Promise.
