(* ===== verification/Faucet.v ===== *)
(** * The faucet script, [src/index.js]

    The script's constants (lines 3-21), the request [axios.post] builds
    from them (line 24) and the HTTP/1.1 message it writes, the two handlers of the promise chain (lines 25
    and 26), the chain itself (lines 23-26) as the initial state of the
    promise machine of [Promise], and its runs under every outcome of the
    HTTP exchange; with line 1, [require("axios")] as [Modules] resolves
    it, the whole program ([program]).

    JavaScript values are modelled by [jsv]: [undefined], JSON values
    (what [response.data] holds after axios' response transform), the
    response object, and error objects.  JSON data is printed by Node's
    [util.inspect] as [Inspect] models it; an error prints as the first
    line of its stack, [name: message]. *)

From S2P Require Import Prelude Number NumberText Json Headers Http Modules Inspect Promise.
From Stdlib Require Import DecimalString.

Module Faucet.

Import Number NumberText Json Headers Http Modules Inspect Promise.

(** ** The constants of lines 3-21 *)

Definition url : string := "https://api.story.faucetme.pro/wallet/request-token".

Definition payload : jval :=
  JObj [("address", JStr "0x28f9d26a2089aa42b11CA8a9ACaB14b9922Ec231");
        ("denom", JStr "IP");
        ("rolesId", JArr []);
        ("userId", JStr "1268237438560764026")].

Definition headers : header_list :=
  [("Content-Type", "application/json");
   ("Authorization", "Bearer 196595|2xaMS9Ih5gi7f2VQGxqrEgF7jBHhVd");
   ("Accept", "*/*");
   ("Accept-Encoding", "gzip, deflate, br, zstd");
   ("Accept-Language", "vi,en-US;q=0.9,en;q=0.8");
   ("Origin", "https://story.faucetme.pro");
   ("Referer", "https://story.faucetme.pro/");
   ("User-Agent",
    "Mozilla/5.0 (Windows NT 10.0; Win64; x64) AppleWebKit/537.36 (KHTML, like Gecko) Chrome/128.0.0.0 Safari/537.36 Edg/128.0.0.0")].

(** ** JavaScript values *)

Record js_error := mk_error { err_name : string; err_message : string; err_code : option string }.

Record response := mk_response { status : Z; data : jval }.

Inductive jsv :=
| VUndef
| VJson (j : jval)
| VResp (r : response)
| VErr (e : js_error).

(** ** Node's console *)

(** util.inspect on the script's values: JSON data as [Inspect] models
    it; the response object abbreviated to its status and data (the
    script never prints it); an error as the first line of its stack,
    [name: message]. *)
Definition inspect (v : jsv) : string :=
  match v with
  | VUndef => "undefined"
  | VJson j => inspect_value j
  | VResp r => "{ status: " ++ number_to_string (status r) ++ ", data: " ++ inspect_value (data r) ++ " }"
  | VErr e => err_name e ++ ": " ++ err_message e
  end.

(** util.format's treatment of one argument: a string as it is, any
    other value inspected. *)
Definition format_arg (v : jsv) : string :=
  match v with
  | VJson (JStr s) => s
  | _ => inspect v
  end.

(** util.format, as [console.log] and [console.error] call it: the
    arguments separated by spaces (no format directive is processed: a
    lone argument is returned as it is, and the script's two-argument
    call starts with ["Error:"], which holds none). *)
Definition util_format (args : list jsv) : string :=
  match args with
  | [] => EmptyString
  | a :: r => format_arg a ++ String.concat EmptyString (map (fun x => " " ++ format_arg x) r)
  end.

(** ** The request and the effects *)

Record request := mk_request {
  method : string;
  req_url : string;
  req_headers : header_list;
  body : string
}.

Record effects := mk_effects {
  stdout : list string;   (** lines written by console.log *)
  stderr : list string;   (** lines written by console.error *)
  sent : list request     (** requests put on the wire *)
}.

Definition console_log (args : list jsv) (w : effects) : effects :=
  mk_effects (stdout w ++ [util_format args]) (stderr w) (sent w).

Definition console_error (args : list jsv) (w : effects) : effects :=
  mk_effects (stdout w) (stderr w ++ [util_format args]) (sent w).

(** ** axios *)

(** [JSON.stringify(payload)], the body the request carries. *)
Definition request_body : string := stringify payload.

(** The request [axios.post(url, payload, { headers })] puts on the
    wire: [Content-Length] is the byte length of the body in UTF-8. *)
Definition build_request (ad : adapter_defaults) : option request :=
  match request_headers ad headers (digits_of_N (N.of_nat (utf8_length request_body))) with
  | Some hs => Some (mk_request "POST" url hs request_body)
  | None => None
  end.

(** The bytes the request puts on the wire: its head, for the URL as
    [new URL] reads it and the agent's keep-alive setting, then the body.
    [None] for a URL outside the modelled subset. *)
Definition wire_request (keep_alive : bool) (rq : request) : option string :=
  match parse_url (req_url rq) with
  | UrlOk u =>
      match scheme_port (protocol u) with
      | Some dp => Some (request_head dp keep_alive (method rq) u (req_headers rq) ++ body rq)
      | None => None
      end
  | _ => None
  end.

(** What the transport reports: a response, or a failure before one. *)
Inductive http_outcome :=
| HttpResponse (st : Z) (raw_body : string)
| NetworkError (code : string) (message : string).

(** transformResponse: a non-empty body that parses as JSON is
    replaced by the parsed value, any other body stays a string.  The
    http adapter's [stripBOM] (a leading U+FEFF removed) is not modelled:
    U+FEFF is not an 8-bit code unit, so no string of the model has it. *)
Definition transform_response (b : string) : jval :=
  match b with
  | EmptyString => JStr EmptyString
  | _ => match json_parse b with Some j => j | None => JStr b end
  end.

(** The default [validateStatus]. *)
Definition validate_status (st : Z) : bool := ((200 <=? st) && (st <? 300))%Z.

(** axios' [settle]: resolve when the status is 0 or passes
    [validateStatus], else reject with "Request failed with status code"
    and the code ERR_BAD_REQUEST (4xx) or ERR_BAD_RESPONSE (5xx).  A
    transport failure rejects with its message. *)
Definition axios_settle (o : http_outcome) : jsv + jsv :=
  match o with
  | HttpResponse st b =>
      if (Z.eqb st 0 || validate_status st)%bool then inl (VResp (mk_response st (transform_response b)))
      else inr (VErr (mk_error "AxiosError" ("Request failed with status code " ++ number_to_string st)
                        (if ((400 <=? st) && (st <? 500))%Z then Some "ERR_BAD_REQUEST"
                         else if ((500 <=? st) && (st <? 600))%Z then Some "ERR_BAD_RESPONSE"
                         else None)))
  | NetworkError c msg => inr (VErr (mk_error "AxiosError" msg (Some c)))
  end.

(** ** The handlers of lines 25 and 26 *)

Inductive handler := OnFulfilled | OnRejected.

(** [response.data]: a TypeError on [undefined] and [null], the data of
    a response, a property of an object, [undefined] otherwise. *)
Definition get_data (v : jsv) : completion jsv :=
  match v with
  | VUndef => Throw (VErr (mk_error "TypeError" "Cannot read properties of undefined (reading 'data')" None))
  | VJson JNull => Throw (VErr (mk_error "TypeError" "Cannot read properties of null (reading 'data')" None))
  | VResp r => Normal (VJson (data r))
  | VJson (JObj fs) =>
      Normal (match find (fun kv => String.eqb (fst kv) "data") (rev fs) with
              | Some kv => VJson (snd kv)
              | None => VUndef
              end)
  | _ => Normal VUndef
  end.

(** [(response) => console.log(response.data)] and
    [(error) => console.error("Error:", error)]: each returns
    [undefined]. *)
Definition call (h : handler) (arg : jsv) (w : effects) : completion jsv * effects :=
  match h with
  | OnFulfilled =>
      match get_data arg with
      | Normal d => (Normal VUndef, console_log [d] w)
      | Throw e => (Throw e, w)
      end
  | OnRejected => (Normal VUndef, console_error [VJson (JStr "Error:"); arg] w)
  end.

(** ** The chain of lines 23-26 *)

Definition fmachine := machine jsv effects handler.
Definition fstate := lstate jsv effects handler.

Definition world0 : effects := mk_effects [] [] [].

(** Running the script: [axios.post] allocates the request's promise
    and, once the request is built, sends it and leaves a pending host
    operation (a request that cannot be built rejects the promise);
    [.then(onFulfilled)] and [.catch(onRejected)] register their
    reactions. *)
Definition script (ad : adapter_defaults) : option fstate :=
  let '(p0, m0) := alloc (mk_machine [] [] [] [] world0) in
  let m1 :=
    match build_request ad with
    | Some rq => set_io [p0] (set_world (mk_effects [] [] [rq]) m0)
    | None => reject p0 (VErr (mk_error "Error" "header name must be a non-empty string" None)) m0
    end in
  match perform_then p0 (Some OnFulfilled) None m1 with
  | Some (p1, m2) =>
      match perform_then p1 None (Some OnRejected) m2 with
      | Some (_, m3) => Some (Running m3)
      | None => None
      end
  | None => None
  end.

(** The whole process: the script, then the event loop with the
    transport's outcome. *)
Definition faucet_run (fuel : nat) (ad : adapter_defaults) (o : http_outcome) : option fstate :=
  option_map (run call fuel [axios_settle o]) (script ad).

(** ** Line 1: [const axios = require("axios")] *)

(** The first line of a text. *)
Fixpoint first_line (s : string) : string :=
  match s with
  | EmptyString => EmptyString
  | c ::: r => if Ascii.eqb c LF then EmptyString else c ::: first_line r
  end.

(** An error [require] throws, as Node reports it on standard error:
    the first line of its stack, [name: message] up to the message's
    first line break, for [MODULE_NOT_FOUND]; the line's start
    [Error [code]] for the loader's other errors (the source excerpt
    before it, the rest of the message, the stack frames and the
    properties after it, and the other messages are left out). *)
Definition uncaught_line (e : load_error) : string :=
  match e with
  | ModuleNotFound msg => first_line ("Error: " ++ msg)
  | _ => "Error [" ++ error_code e ++ "]"
  end.

(** The whole program for a script in the directory [dir_parts] of the
    file system [fs]: line 1 resolves axios; an error it throws is
    uncaught, so Node reports it and exits with status 1 before line 3
    runs; otherwise the script runs as [faucet_run].  [None] where the
    resolution model claims nothing. *)
Definition program (fuel : nat) (fs : fsys) (globals dir_parts : list string)
    (ad : adapter_defaults) (o : http_outcome) : option fstate :=
  match require_resolve fs cjs_conditions globals dir_parts "axios" with
  | Resolved _ => faucet_run fuel ad o
  | Failed e => Some (Exited 1 (mk_machine [] [] [] [] (mk_effects [] [uncaught_line e] [])))
  | NotFound | Unsupported => None
  end.

(** ** The state the script leaves *)

(** After the script's synchronous part: [p0] (the request) pending with
    the reactions of [.then], [p1] pending with those of [.catch], [p2]
    pending without any, no job, one pending host operation, and the
    request on the wire. *)
Definition after_script (rq : request) : fmachine :=
  mk_machine
    [mk_promise (Pending [mk_reaction 1 KFulfill (Some OnFulfilled)] [mk_reaction 1 KReject None]) true;
     mk_promise (Pending [mk_reaction 2 KFulfill None] [mk_reaction 2 KReject (Some OnRejected)]) true;
     mk_promise (Pending [] []) false]
    [] [] [0] (mk_effects [] [] [rq]).

Lemma script_after (ad : adapter_defaults) (rq : request) :
  build_request ad = Some rq -> script ad = Some (Running (after_script rq)).
Proof. intros E. unfold script. simpl. rewrite E. reflexivity. Qed.

Lemma build_request_total (ad : adapter_defaults) :
  names_nonempty (ad_common ad) = true -> exists rq, build_request ad = Some rq.
Proof.
  intros Hd. unfold build_request.
  match goal with
  | |- context [request_headers ad ?c ?l] => destruct (request_headers_total ad c l Hd eq_refl) as [hs ->]
  end.
  eauto.
Qed.

(** What the process writes when the request's promise is fulfilled
    with [v]: the data, or the error reading it. *)
Definition effects_fulfilled (rq : request) (v : jsv) : effects :=
  match get_data v with
  | Normal d => console_log [d] (mk_effects [] [] [rq])
  | Throw e => console_error [VJson (JStr "Error:"); e] (mk_effects [] [] [rq])
  end.

Definition effects_rejected (rq : request) (e : jsv) : effects :=
  console_error [VJson (JStr "Error:"); e] (mk_effects [] [] [rq]).

Lemma run_after_fulfilled (fuel : nat) (rq : request) (v : jsv) :
  4 <= fuel ->
  exists m, run call fuel [inl v] (Running (after_script rq)) = Exited 0 m
            /\ world m = effects_fulfilled rq v.
Proof.
  intros Hf. destruct fuel as [|[|[|[|f]]]]; try lia.
  unfold effects_fulfilled. destruct (get_data v) as [d|e] eqn:Ed.
  - cbn -[get_data]. rewrite Ed. cbn. eexists; split; reflexivity.
  - cbn -[get_data]. rewrite Ed. cbn. eexists; split; reflexivity.
Qed.

Lemma run_after_rejected (fuel : nat) (rq : request) (e : jsv) :
  4 <= fuel ->
  exists m, run call fuel [inr e] (Running (after_script rq)) = Exited 0 m
            /\ world m = effects_rejected rq e.
Proof.
  intros Hf. destruct fuel as [|[|[|[|f]]]]; try lia.
  cbn. eexists; split; reflexivity.
Qed.

(** ** The request *)

(** The configuration the witnesses use: axios 1.x defaults. *)
Definition axios_defaults : adapter_defaults :=
  {| ad_common := [("Accept", "application/json, text/plain, */*")];
     ad_content_type := "application/json";
     ad_user_agent := "axios/1.7.7";
     ad_accept_encoding := "gzip, compress, deflate, br" |}.

Lemma build_request_body (ad : adapter_defaults) (rq : request) :
  build_request ad = Some rq -> body rq = stringify payload.
Proof.
  unfold build_request. destruct (request_headers _ _ _); [|discriminate].
  intros E. injection E as <-. reflexivity.
Qed.

(** C1: the body of the request is the JSON text of the payload of
    lines 4-9: parsed back, it is exactly the object with the keys
    [address], [denom], [rolesId], [userId] and their literal values. *)
Theorem request_body_parses (ad : adapter_defaults) (rq : request) :
  build_request ad = Some rq -> json_parse (body rq) = Some payload.
Proof.
  intros E. rewrite (build_request_body ad rq E). apply parse_stringify_canonical. reflexivity.
Qed.

Lemma request_body_parses_witness :
  exists rq, build_request axios_defaults = Some rq /\ json_parse (body rq) = Some payload.
Proof.
  destruct (build_request_total axios_defaults eq_refl) as [rq E].
  exists rq. split; [exact E | exact (request_body_parses axios_defaults rq E)].
Defined.

(** C2: whatever defaults axios merges in and whatever its adapter
    adds, each of the eight headers of lines 11-21 is sent with its
    exact value. *)
Theorem request_headers_exact (ad : adapter_defaults) (rq : request) :
  build_request ad = Some rq ->
  forall n v, In (n, v) headers -> lookup_ci (req_headers rq) n = Some v.
Proof.
  unfold build_request. destruct (request_headers _ _ _) as [hs|] eqn:E; [|discriminate].
  intros Hr. injection Hr as <-. simpl req_headers.
  eapply request_headers_keep_config; [reflexivity | reflexivity | exact E].
Qed.

Lemma request_headers_exact_witness :
  exists rq, build_request axios_defaults = Some rq /\
  lookup_ci (req_headers rq) "Authorization" = Some "Bearer 196595|2xaMS9Ih5gi7f2VQGxqrEgF7jBHhVd".
Proof.
  destruct (build_request_total axios_defaults eq_refl) as [rq E].
  exists rq. split; [exact E|]. apply (request_headers_exact axios_defaults rq E). simpl. auto.
Defined.

(** ** The outcomes *)

Lemma faucet_run_after (fuel : nat) (ad : adapter_defaults) (rq : request) (o : http_outcome) :
  build_request ad = Some rq ->
  faucet_run fuel ad o = Some (run call fuel [axios_settle o] (Running (after_script rq))).
Proof. intros E. unfold faucet_run. rewrite (script_after ad rq E). reflexivity. Qed.

Lemma faucet_run_success (fuel : nat) (ad : adapter_defaults) (st : Z) (b : string) :
  4 <= fuel -> names_nonempty (ad_common ad) = true -> validate_status st = true ->
  exists rq m, build_request ad = Some rq
    /\ faucet_run fuel ad (HttpResponse st b) = Some (Exited 0 m)
    /\ world m = mk_effects [util_format [VJson (transform_response b)]] [] [rq].
Proof.
  intros Hf Hd Hv. destruct (build_request_total ad Hd) as [rq E].
  destruct (run_after_fulfilled fuel rq (VResp (mk_response st (transform_response b))) Hf) as (m & Hr & Hw).
  exists rq, m. split; [exact E|]. rewrite (faucet_run_after fuel ad rq _ E). unfold axios_settle.
  rewrite ?Hv, ?orb_true_r. rewrite Hr. split; [reflexivity | exact Hw].
Qed.

(** C3: when the server answers with a 2xx status, the process writes
    the response data, as util.format prints it, as its only line on
    standard output, nothing on standard error, sends one request and
    exits with status 0. *)
Theorem success_path (fuel : nat) (ad : adapter_defaults) (st : Z) (b : string) :
  4 <= fuel -> names_nonempty (ad_common ad) = true -> validate_status st = true ->
  exists rq m, build_request ad = Some rq
    /\ faucet_run fuel ad (HttpResponse st b) = Some (Exited 0 m)
    /\ world m = mk_effects [util_format [VJson (transform_response b)]] [] [rq].
Proof. apply faucet_run_success. Qed.

Lemma success_path_witness :
  4 <= 4 /\ names_nonempty (ad_common axios_defaults) = true /\ validate_status 200 = true /\
  exists rq m, build_request axios_defaults = Some rq
    /\ faucet_run 4 axios_defaults (HttpResponse 200 ("{" ++ quote "ok" ++ ":true}")) = Some (Exited 0 m)
    /\ world m = mk_effects ["{ ok: true }"] [] [rq].
Proof.
  split; [lia|]. split; [reflexivity|]. split; [reflexivity|].
  exact (success_path 4 axios_defaults 200 _ (le_n 4) eq_refl eq_refl).
Defined.

(** C4: when the server answers with a status that is neither 0 nor
    2xx, the process writes one line on standard error, ["Error:"]
    followed by the AxiosError and its message, nothing on standard
    output, and exits with status 0. *)
Theorem http_error_path (fuel : nat) (ad : adapter_defaults) (st : Z) (b : string) :
  4 <= fuel -> names_nonempty (ad_common ad) = true -> validate_status st = false -> st <> 0%Z ->
  exists rq m, build_request ad = Some rq
    /\ faucet_run fuel ad (HttpResponse st b) = Some (Exited 0 m)
    /\ world m = mk_effects [] ["Error: AxiosError: Request failed with status code " ++ number_to_string st] [rq].
Proof.
  intros Hf Hd Hv H0. destruct (build_request_total ad Hd) as [rq E].
  edestruct (run_after_rejected fuel rq) as (m & Hr & Hw); [exact Hf|].
  exists rq, m. split; [exact E|]. rewrite (faucet_run_after fuel ad rq _ E). unfold axios_settle.
  apply Z.eqb_neq in H0. rewrite H0, Hv. simpl orb. cbv iota. rewrite Hr. split; [reflexivity|].
  rewrite Hw. reflexivity.
Qed.

Lemma http_error_path_witness :
  4 <= 4 /\ names_nonempty (ad_common axios_defaults) = true /\ validate_status 404 = false /\
  404%Z <> 0%Z /\
  exists rq m, build_request axios_defaults = Some rq
    /\ faucet_run 4 axios_defaults (HttpResponse 404 "Not Found") = Some (Exited 0 m)
    /\ world m = mk_effects [] ["Error: AxiosError: Request failed with status code 404"] [rq].
Proof.
  split; [lia|]. split; [reflexivity|]. split; [reflexivity|]. split; [discriminate|].
  exact (http_error_path 4 axios_defaults 404 _ (le_n 4) eq_refl eq_refl ltac:(discriminate)).
Defined.

(** C5: when the transport fails (refused connection, DNS failure,
    reset, timeout), the process writes ["Error:"] followed by the
    AxiosError carrying the transport's message on standard error, and
    exits with status 0. *)
Theorem network_error_path (fuel : nat) (ad : adapter_defaults) (c msg : string) :
  4 <= fuel -> names_nonempty (ad_common ad) = true ->
  exists rq m, build_request ad = Some rq
    /\ faucet_run fuel ad (NetworkError c msg) = Some (Exited 0 m)
    /\ world m = mk_effects [] ["Error: AxiosError: " ++ msg] [rq].
Proof.
  intros Hf Hd. destruct (build_request_total ad Hd) as [rq E].
  edestruct (run_after_rejected fuel rq) as (m & Hr & Hw); [exact Hf|].
  exists rq, m. split; [exact E|]. rewrite (faucet_run_after fuel ad rq _ E). simpl axios_settle.
  rewrite Hr. split; [reflexivity|]. rewrite Hw. reflexivity.
Qed.

Lemma network_error_path_witness :
  4 <= 10 /\ names_nonempty (ad_common axios_defaults) = true /\
  exists rq m, build_request axios_defaults = Some rq
    /\ faucet_run 10 axios_defaults (NetworkError "ECONNREFUSED" "connect ECONNREFUSED") = Some (Exited 0 m)
    /\ world m = mk_effects [] ["Error: AxiosError: connect ECONNREFUSED"] [rq].
Proof.
  split; [lia|]. split; [reflexivity|].
  exact (network_error_path 10 axios_defaults _ _ ltac:(lia) eq_refl).
Defined.

(** C6: whatever the transport reports, the process sends exactly one
    request, writes exactly one line (on standard output or standard
    error), and exits with status 0. *)
Theorem one_request_one_line (fuel : nat) (ad : adapter_defaults) (o : http_outcome) :
  4 <= fuel -> names_nonempty (ad_common ad) = true ->
  exists rq m, build_request ad = Some rq
    /\ faucet_run fuel ad o = Some (Exited 0 m)
    /\ sent (world m) = [rq]
    /\ length (stdout (world m) ++ stderr (world m)) = 1.
Proof.
  intros Hf Hd. destruct (build_request_total ad Hd) as [rq E].
  exists rq. rewrite (faucet_run_after fuel ad rq o E).
  destruct (axios_settle o) as [v|e] eqn:Es.
  - destruct (run_after_fulfilled fuel rq v Hf) as (m & Hr & Hw). exists m.
    rewrite Hr, Hw. unfold effects_fulfilled. repeat split; [exact E|..];
      destruct (get_data v); reflexivity.
  - destruct (run_after_rejected fuel rq e Hf) as (m & Hr & Hw). exists m.
    rewrite Hr, Hw. repeat split; exact E || reflexivity.
Qed.

Lemma one_request_one_line_witness :
  4 <= 4 /\ names_nonempty (ad_common axios_defaults) = true /\
  exists rq m, build_request axios_defaults = Some rq
    /\ faucet_run 4 axios_defaults (HttpResponse 500 EmptyString) = Some (Exited 0 m)
    /\ sent (world m) = [rq]
    /\ length (stdout (world m) ++ stderr (world m)) = 1.
Proof.
  split; [lia|]. split; [reflexivity|].
  exact (one_request_one_line 4 axios_defaults _ (le_n 4) eq_refl).
Defined.

(** ** Every run of the event loop *)

(** The reactions that may target [p2] without rejecting it. *)
Definition safe_reaction (r : reaction handler) : Prop :=
  r_cap r <> 2 \/ r_handler r = Some OnRejected \/ (r_handler r = None /\ r_kind r = KFulfill).

Lemma safe_reaction_handler (r : reaction handler) (h : handler) (v : jsv) (w : effects) :
  safe_reaction r -> r_cap r = 2 -> r_handler r = Some h -> exists v' w', call h v w = (Normal v', w').
Proof.
  intros [Hc|[Hh|[Hh _]]] Hc2 Hh'; [congruence| |congruence].
  rewrite Hh in Hh'. injection Hh' as <-. simpl. eauto.
Qed.

Lemma safe_reaction_empty (r : reaction handler) :
  safe_reaction r -> r_cap r = 2 -> r_handler r = None -> r_kind r = KFulfill.
Proof. intros [Hc|[Hh|[_ Hk]]] Hc2 Hh'; congruence. Qed.

Lemma after_script_inv (rq : request) : chain_inv 2 safe_reaction (after_script rq).
Proof.
  constructor; simpl.
  - reflexivity.
  - intros [|[|[|i]]] pr Hi Hne; simpl in Hi; try discriminate; injection Hi as <-; reflexivity || lia.
  - intros pr r Hi. simpl in Hi. injection Hi as <-. discriminate.
  - intros [|[|[|i]]] fr rr h Hi; simpl in Hi; try discriminate; injection Hi as <- <- _;
      split; repeat (apply Forall_nil || apply Forall_cons);
      try solve [unfold safe_reaction; simpl;
                 first [left; discriminate | right; left; reflexivity | right; right; split; reflexivity]].
  - constructor.
  - intros p [<-|[]]. discriminate.
Qed.

(** C7: for every outcome the environment gives the pending request
    (any value, fulfilment or rejection) and every run of the event
    loop, the process that ends exits with status 0: no rejection is
    left unhandled. *)
Theorem exit_status_zero (rq : request) (c : nat) (m : fmachine) :
  star call (Running (after_script rq)) (Exited c m) -> c = 0.
Proof.
  intros Hst.
  exact (chain_exit_zero call 2 safe_reaction safe_reaction_handler safe_reaction_empty
           (after_script rq) (Exited c m) (after_script_inv rq) Hst).
Qed.

Lemma exit_status_zero_witness :
  exists m, star call (Running (after_script (mk_request "POST" url headers request_body)))
                      (Exited 0 m) /\ 0 = 0.
Proof.
  pose proof (run_reaches call 4 [inr VUndef] (Running (after_script (mk_request "POST" url headers request_body))))
    as Hs.
  cbn in Hs. eexists. split; [exact Hs|].
  exact (exit_status_zero _ _ _ Hs).
Defined.

(** C9: every run of the process from the state the script leaves
    takes at most four steps of the event loop, and a run that cannot
    go on has exited with status 0: the process always ends, whatever
    the transport reports, and ends cleanly. *)
Theorem run_ends_within_four (rq : request) (n : nat) (s : fstate) :
  steps call n (Running (after_script rq)) s ->
  n <= 4 /\ ((forall s', ~ step call s s') -> exists m, s = Exited 0 m).
Proof.
  intros Hn. split; [pose proof (steps_potential call n _ s Hn) as Hp; cbn in Hp; lia|].
  intros Hirr.
  pose proof (chain_exit_zero call 2 safe_reaction safe_reaction_handler safe_reaction_empty
                (after_script rq) s (after_script_inv rq) (steps_star call n _ s Hn)) as Hz.
  destruct s as [m|c m].
  - destruct (step_progress call m (inl VUndef)) as [s' Hs']. destruct (Hirr s' Hs').
  - subst c. exists m. reflexivity.
Qed.

Lemma run_ends_within_four_witness :
  exists s, steps call 4 (Running (after_script (mk_request "POST" url headers request_body))) s
    /\ 4 <= 4 /\ ((forall s', ~ step call s s') -> exists m, s = Exited 0 m).
Proof.
  assert (Hs : exists s, steps call 4 (Running (after_script (mk_request "POST" url headers request_body))) s).
  { eexists.
    eapply steps_step; [eapply (step_io _ _ [] 0 [] (inl (VResp (mk_response 200 JNull)))); reflexivity|].
    do 2 (eapply steps_step; [eapply step_job; reflexivity|]).
    eapply steps_step; [apply step_exit; reflexivity|]. apply steps_refl. }
  destruct Hs as [s Hs]. exists s. split; [exact Hs|].
  exact (run_ends_within_four _ 4 s Hs).
Defined.

(** C8: in every run of the event loop, whatever the environment
    answers, the process has sent exactly the one request of line 24:
    neither handler sends another one. *)
Theorem exactly_one_request (rq : request) (s : fstate) :
  star call (Running (after_script rq)) s -> sent (world (mach s)) = [rq].
Proof.
  intros Hst. apply (world_star call (fun w => sent w = [rq]) ) in Hst; [exact Hst| |reflexivity].
  intros [] v w Hw; simpl; [destruct (get_data v)|]; exact Hw.
Qed.

Lemma exactly_one_request_witness :
  exists s, star call (Running (after_script (mk_request "POST" url headers request_body))) s
    /\ sent (world (mach s)) = [mk_request "POST" url headers request_body].
Proof.
  pose proof (run_reaches call 4 [inl (VResp (mk_response 200 JNull))]
                (Running (after_script (mk_request "POST" url headers request_body)))) as Hs.
  eexists. split; [exact Hs | exact (exactly_one_request _ _ Hs)].
Defined.

(** The first character of a number literal. *)
Lemma parse_number_head (c : ascii) (r : string) (p : number * string) :
  parse_number (c ::: r) = Some p -> number_head c.
Proof.
  unfold parse_number, lex_number, number_head. destruct (Nat.eqb (code c) 45) eqn:E.
  - intros _. left. apply Nat.eqb_eq. exact E.
  - unfold lex_unsigned. destruct (is_digit c) eqn:D; [intros _; right; reflexivity | discriminate].
Qed.

(** A body that is exactly a JSON number literal becomes the double it
    denotes. *)
Lemma transform_response_decimal (t : string) (x : number) :
  parse_number t = Some (x, EmptyString) -> transform_response t = JNum x.
Proof.
  destruct t as [|c r]; [discriminate|]. intros H.
  pose proof (parse_number_head c r _ H) as Hh. destruct (number_head_char c Hh) as [Hws _].
  unfold transform_response, json_parse. cbn [skip_ws String.length]. rewrite Hws.
  rewrite number_head_parse by exact Hh. rewrite H. reflexivity.
Qed.


(** C11: when the server answers 2xx with a body that is a JSON number
    literal, the line the process prints is Number::toString of the
    double JSON.parse reads from it, not the body: [1.50] prints as
    [1.5], [1e2] as [100], [12345678901234567890] as
    [12345678901234567000]. *)
Theorem success_prints_number (fuel : nat) (ad : adapter_defaults) (st : Z) (t : string) (x : number) :
  4 <= fuel -> names_nonempty (ad_common ad) = true -> validate_status st = true ->
  parse_number t = Some (x, EmptyString) ->
  exists rq m, faucet_run fuel ad (HttpResponse st t) = Some (Exited 0 m)
    /\ world m = mk_effects [format_number x] [] [rq].
Proof.
  intros Hf Hd Hv Ht. destruct (faucet_run_success fuel ad st t Hf Hd Hv) as (rq & m & _ & Hr & Hw).
  exists rq, m. split; [exact Hr|]. rewrite Hw, (transform_response_decimal t x Ht).
  cbn [util_format format_arg inspect inspect_value format_value map String.concat fst].
  rewrite str_app_nil_r. reflexivity.
Qed.

Lemma success_prints_number_witness :
  4 <= 4 /\ names_nonempty (ad_common axios_defaults) = true /\ validate_status 200 = true /\
  parse_number "1.50" = Some (Fin false 6755399441055744 (-52), EmptyString) /\
  format_number (Fin false 6755399441055744 (-52)) = "1.5" /\
  exists rq m, faucet_run 4 axios_defaults (HttpResponse 200 "1.50") = Some (Exited 0 m)
    /\ world m = mk_effects [format_number (Fin false 6755399441055744 (-52))] [] [rq].
Proof.
  assert (H : parse_number "1.50" = Some (Fin false 6755399441055744 (-52), EmptyString)) by (vm_compute; reflexivity).
  split; [lia|]. split; [reflexivity|]. split; [reflexivity|]. split; [exact H|]. split; [vm_compute; reflexivity|].
  exact (success_prints_number 4 axios_defaults 200 "1.50" _ ltac:(lia) eq_refl eq_refl H).
Defined.



(** The URL of line 3 as [new URL] reads it. *)
Lemma parse_url_script :
  parse_url url = UrlOk (mk_url "https:" "api.story.faucetme.pro" "" "/wallet/request-token" "" "").
Proof. vm_compute. reflexivity. Qed.

(** The names the axios defaults must leave to the adapter and to Node. *)
Definition leaves_wire_names (ad : adapter_defaults) : Prop :=
  forallb (fun kv => plain_name (fst kv)) (ad_common ad) = true
  /\ Forall (fun kv => ~ In (normalize_header (fst kv)) ["host"; "connection"; "content-length"]) (ad_common ad).

Lemma script_headers_other (ad : adapter_defaults) (m : string) :
  leaves_wire_names ad -> In (normalize_header m) ["host"; "connection"; "content-length"] ->
  forallb (fun kv => plain_name (fst kv)) (ad_common ad ++ headers) = true
  /\ Forall (fun kv => normalize_header m <> normalize_header (fst kv)) (ad_common ad ++ headers).
Proof.
  intros [Hp Hf] Hm. rewrite forallb_app, Hp. split; [reflexivity|]. apply Forall_app. split.
  - eapply Forall_impl; [|exact Hf]. intros kv Hkv Hx. apply Hkv. rewrite <- Hx. exact Hm.
  - apply Forall_forall. intros kv Hin Hx. rewrite Hx in Hm. clear Hx.
    repeat (destruct Hin as [<-|Hin]; [vm_compute in Hm; intuition discriminate|]). destruct Hin.
Qed.

(** C10: the bytes [axios.post] sends: the request line names the path
    of the URL, the [Host] header its host, [Content-Length] the UTF-8
    length of the body that follows the blank line, and [Connection] the
    agent's keep-alive setting, whatever other headers the axios defaults
    add. *)
Theorem wire_request_text (keep_alive : bool) (ad : adapter_defaults) (rq : request) :
  leaves_wire_names ad -> build_request ad = Some rq ->
  exists hs, wire_request keep_alive rq
             = Some ("POST /wallet/request-token HTTP/1.1" ++ CRLF ++ serialize_headers hs ++ CRLF ++ request_body)
    /\ lookup_ci hs "Host" = Some "api.story.faucetme.pro"
    /\ lookup_ci hs "Content-Length" = Some (digits_of_N (N.of_nat (utf8_length request_body)))
    /\ lookup_ci hs "Connection" = Some (if keep_alive then "keep-alive" else "close").
Proof.
  intros Had. unfold build_request.
  destruct (request_headers ad headers _) as [hs0|] eqn:E; [|discriminate]. intros [= <-].
  set (u0 := mk_url "https:" "api.story.faucetme.pro" "" "/wallet/request-token" "" "").
  assert (Habs : forall m, In (normalize_header m) ["host"; "connection"] -> lookup_ci hs0 m = None).
  { intros m Hm. destruct (script_headers_other ad m Had) as [Hp Hf]; [destruct Hm as [Hm|[Hm|[]]]; rewrite <- Hm; cbn; tauto|].
    eapply (request_headers_absent ad headers _ hs0 m Hp Hf); [|exact E].
    destruct Hm as [<-|[<-|[]]]; vm_compute; intuition discriminate. }
  destruct (wire_headers_lookup 443 keep_alive u0 hs0 (Habs "Host" ltac:(left; reflexivity))
              (Habs "Connection" ltac:(right; left; reflexivity))) as (Hh & Hc & Hk).
  exists (wire_headers 443 keep_alive u0 hs0). unfold wire_request. cbn [req_url method req_headers body].
  rewrite parse_url_script. fold u0. replace (scheme_port (protocol u0)) with (Some 443%N) by reflexivity.
  split; [|split; [exact Hh | split; [|exact Hc]]].
  - unfold request_head. rewrite !str_app_assoc. reflexivity.
  - apply Hk. destruct (script_headers_other ad "Content-Length" Had) as [Hp Hf]; [cbn; tauto|].
    exact (request_headers_content_length ad headers _ hs0 Hp Hf E).
Qed.

Lemma wire_request_text_witness :
  leaves_wire_names axios_defaults /\
  exists rq, build_request axios_defaults = Some rq /\
  exists hs, wire_request true rq
             = Some ("POST /wallet/request-token HTTP/1.1" ++ CRLF ++ serialize_headers hs ++ CRLF ++ request_body)
    /\ lookup_ci hs "Host" = Some "api.story.faucetme.pro"
    /\ lookup_ci hs "Content-Length" = Some (digits_of_N (N.of_nat (utf8_length request_body)))
    /\ lookup_ci hs "Connection" = Some "keep-alive".
Proof.
  assert (H : leaves_wire_names axios_defaults).
  { split; [reflexivity|]. repeat constructor. cbn [fst]. vm_compute. intuition discriminate. }
  split; [exact H|]. destruct (build_request_total axios_defaults eq_refl) as [rq E].
  exists rq. split; [exact E|]. exact (wire_request_text true axios_defaults rq H E).
Defined.

(** The head the script sends with the defaults of axios 1.7 and a
    keep-alive agent: the configuration's [Accept] replaces the default
    value in its place; the body is 113 bytes. *)
Example wire_request_axios :
  utf8_length request_body = 113%nat /\
  option_map (fun rq => wire_request true rq) (build_request axios_defaults)
  = Some (Some ("POST /wallet/request-token HTTP/1.1" ++ CRLF
      ++ "Accept: */*" ++ CRLF
      ++ "Content-Type: application/json" ++ CRLF
      ++ "Authorization: Bearer 196595|2xaMS9Ih5gi7f2VQGxqrEgF7jBHhVd" ++ CRLF
      ++ "Accept-Encoding: gzip, deflate, br, zstd" ++ CRLF
      ++ "Accept-Language: vi,en-US;q=0.9,en;q=0.8" ++ CRLF
      ++ "Origin: https://story.faucetme.pro" ++ CRLF
      ++ "Referer: https://story.faucetme.pro/" ++ CRLF
      ++ "User-Agent: Mozilla/5.0 (Windows NT 10.0; Win64; x64) AppleWebKit/537.36 (KHTML, like Gecko) Chrome/128.0.0.0 Safari/537.36 Edg/128.0.0.0" ++ CRLF
      ++ "Content-Length: 113" ++ CRLF
      ++ "Host: api.story.faucetme.pro" ++ CRLF
      ++ "Connection: keep-alive" ++ CRLF ++ CRLF ++ request_body)).
Proof. split; vm_compute; reflexivity. Qed.

(** C14: where axios is installed nowhere the script can see it (no
    [package.json] above the script, nothing named [axios] in any
    [node_modules] directory of the lookup or any global folder), which
    is the repository as it stands (it has no [package.json] and no
    [node_modules]), the program sends no request, writes [Error: Cannot
    find module 'axios'] on standard error and exits with status 1,
    whatever the server would answer. *)
Theorem missing_axios_exits_one (fuel : nat) (fs : fsys) (globals dir_parts : list string)
    (ad : adapter_defaults) (o : http_outcome) :
  no_package_json fs (scope_dirs (rev dir_parts)) = true ->
  forallb (fun d => absent_under fs (d ++ "/" ++ "axios")) (node_module_paths (join_parts dir_parts) ++ globals) = true ->
  exists m, program fuel fs globals dir_parts ad o = Some (Exited 1 m)
    /\ sent (world m) = [] /\ stdout (world m) = [] /\ stderr (world m) = ["Error: Cannot find module 'axios'"].
Proof.
  intros Hs Hp. unfold program. rewrite (require_missing _ _ _ _ _ Hs Hp).
  eexists. split; [reflexivity|]. repeat split.
Qed.

Lemma missing_axios_exits_one_witness :
  exists m, program 4 [("/home/user/story-node/src/index.js", "const axios = require(" ++ quote "axios" ++ ");")]
                    ["/home/user/.node_modules"; "/home/user/.node_libraries"; "/usr/lib/node"]
                    ["home"; "user"; "story-node"; "src"] axios_defaults (HttpResponse 200 "{}") = Some (Exited 1 m)
    /\ sent (world m) = [] /\ stdout (world m) = [] /\ stderr (world m) = ["Error: Cannot find module 'axios'"].
Proof.
  apply missing_axios_exits_one; vm_compute; reflexivity.
Defined.

(** C15: with axios 1.x installed in the first lookup directory that
    has it, the whole program, from line 1 to line 26, loads the
    CommonJS build, sends the one request, and on a 2xx answer prints
    the response data as its only line and exits with status 0. *)
Theorem installed_axios_success (fuel : nat) (fs : fsys) (globals dir_parts ds1 ds2 : list string) (D : string)
    (j : jval) (c : string) (ad : adapter_defaults) (st : Z) (b : string) :
  4 <= fuel -> names_nonempty (ad_common ad) = true -> validate_status st = true ->
  (node_module_paths (join_parts dir_parts) ++ globals)%list = (ds1 ++ D :: ds2)%list ->
  forallb (fun d => absent_under fs (d ++ "/" ++ "axios")) ds1 = true ->
  no_package_json fs (scope_dirs (rev dir_parts)) = true ->
  read_file fs D = None ->
  read_package fs (D ++ "/" ++ "axios") = PkgFound j ->
  exports_of j = Some axios_exports ->
  read_file fs (D ++ "/axios/dist/node/axios.cjs") = Some c ->
  exists rq m, build_request ad = Some rq
    /\ program fuel fs globals dir_parts ad (HttpResponse st b) = Some (Exited 0 m)
    /\ world m = mk_effects [util_format [VJson (transform_response b)]] [] [rq].
Proof.
  intros Hf Hd Hv Hl H1 Hs HD Hj Hx Hc. unfold program.
  rewrite (require_nearest_resolves fs globals dir_parts ds1 ds2 D j c Hl H1 Hs HD Hj Hx Hc).
  exact (faucet_run_success fuel ad st b Hf Hd Hv).
Qed.

Lemma installed_axios_success_witness :
  exists rq m, build_request axios_defaults = Some rq
    /\ program 4 example_install [] ["home"; "app"; "src"] axios_defaults (HttpResponse 200 "{}") = Some (Exited 0 m)
    /\ world m = mk_effects [util_format [VJson (transform_response "{}")]] [] [rq].
Proof.
  apply (installed_axios_success 4 example_install [] ["home"; "app"; "src"] ["/home/app/src/node_modules"]
           ["/home/node_modules"; "/node_modules"] "/home/app/node_modules"
           (JObj [("name", JStr "axios"); ("main", JStr "index.js"); ("type", JStr "module"); ("exports", axios_exports)])
           "module.exports = axios;");
    vm_compute; reflexivity.
Defined.

End Faucet.
