(* ===== verification/Adapter.v ===== *)
(** * The response stream of axios' http adapter: [Content-Encoding]

    Before [settle] sees a response, axios' http adapter
    ([lib/adapters/http.js], axios 1.x) runs its body through a
    decompressor chosen by the [Content-Encoding] header, unless the
    method is [HEAD] or the status is 204 (the header is then dropped):
    [gzip], [x-gzip], [compress] and [x-compress] through
    [zlib.createUnzip]; [deflate] through [ZlibHeaderTransformStream]
    (which adds a zlib header [78 9C] when the body has none) and
    [zlib.createUnzip]; [br] through [zlib.createBrotliDecompress].
    Any other encoding is left as it is.  An error of the decompressor
    rejects the request with an AxiosError made from it
    ([AxiosError.from]: its code and message), whatever the status.
    The bytes are then read as UTF-8 ([Buffer.prototype.toString]).

    The script sends [Accept-Encoding: gzip, deflate, br, zstd] (line
    15): it invites a [zstd] answer the adapter does not decode.

    The decompressors and the UTF-8 reading are parameters of the
    section: strings of the model have 8-bit code units, so the
    decoded text is given by a function, of which the theorems only
    use that a leading ASCII byte reads as itself. *)

From S2P Require Import Prelude Number NumberText Json Headers Http Modules Inspect Promise Faucet.

Module Adapter.

Import Json Headers Promise Faucet.

(** The response as the socket delivers it, or a failure before one. *)
Inductive wire_outcome :=
| WireResponse (status : Z) (content_encoding : option string) (bytes : string)
| WireFailure (code message : string).

(** The zlib and brotli decompressors: the decoded bytes, or the error
    they emit (its code and message). *)
Record decoders := mk_decoders {
  unzip : string -> string + (string * string);
  brotli : string -> string + (string * string)
}.

(** [ZlibHeaderTransformStream]: a first byte other than [0x78] gets the
    default zlib header [78 9C] before it. *)
Definition zlib_header_fix (b : string) : string :=
  match b with
  | EmptyString => b
  | c ::: _ => if Nat.eqb (code c) 120 then b else chr 120 ::: chr 156 ::: b
  end.

(** The decompression switch of the adapter for a request of method
    [meth] (upper case) answered with status [st]. *)
Definition decompress (dec : decoders) (meth : string) (st : Z) (enc : option string) (b : string)
  : string + (string * string) :=
  match enc with
  | None => inl b
  | Some e =>
      if String.eqb e EmptyString || String.eqb meth "HEAD" || (st =? 204)%Z then inl b
      else
        let e' := to_lower e in
        if existsb (String.eqb e') ["gzip"; "x-gzip"; "compress"; "x-compress"] then unzip dec b
        else if String.eqb e' "deflate" then unzip dec (zlib_header_fix b)
        else if String.eqb e' "br" then brotli dec b
        else inl b
  end.

Section Stream.

Context (dec : decoders) (utf8_text : string -> string).

(** What reaches [settle]: the response with its body decompressed and
    read as text, or the rejection of a decompressor's error. *)
Definition adapter_outcome (meth : string) (w : wire_outcome) : http_outcome :=
  match w with
  | WireResponse st enc b =>
      match decompress dec meth st enc b with
      | inl d => HttpResponse st (utf8_text d)
      | inr (c, msg) => NetworkError c msg
      end
  | WireFailure c msg => NetworkError c msg
  end.

(** The script's run on what its [POST] receives. *)
Definition exchange_run (fuel : nat) (ad : adapter_defaults) (w : wire_outcome) : option fstate :=
  faucet_run fuel ad (adapter_outcome "POST" w).

End Stream.

(** The magic number [28 B5 2F FD] that starts every zstd frame. *)
Definition zstd_magic : string := chr 40 ::: chr 181 ::: chr 47 ::: chr 253 ::: EmptyString.

(** The adapter with decoders that return their input, and the bytes
    read as they are (right for ASCII). *)
Definition identity_decoders : decoders := mk_decoders (fun b => inl b) (fun b => inl b).

(** ** Lemmas *)

(** A text that starts with [(] is not JSON. *)
Lemma json_parse_paren (r : string) : json_parse ("(" ::: r) = None.
Proof. reflexivity. Qed.

Lemma transform_response_paren (r : string) : transform_response ("(" ::: r) = JStr ("(" ::: r).
Proof. unfold transform_response. now rewrite ?json_parse_paren. Qed.

(** An encoding outside the adapter's switch leaves the bytes as they
    are, whatever the status. *)
Lemma decompress_zstd (dec : decoders) (st : Z) (b : string) :
  decompress dec "POST" st (Some "zstd") b = inl b.
Proof. unfold decompress. cbn -[Z.eqb]. destruct (st =? 204)%Z; reflexivity. Qed.

Section Zstd.

Context (dec : decoders) (utf8_text : string -> string).

(** UTF-8 reads an ASCII byte that starts the bytes as itself. *)
Hypothesis utf8_ascii_head : forall (c : ascii) (r : string), code c < 128 -> exists r', utf8_text (c ::: r) = c ::: r'.

(** C16: when the server takes up the script's offer of [zstd] and
    answers 2xx with a zstd frame, axios does not decompress it: the
    text JSON.parse sees starts with the frame's first byte [(] and is
    not JSON, so the handler of line 25 prints the undecoded bytes as
    a string and the process exits with status 0, the data never
    parsed. *)
Theorem zstd_printed_undecoded (fuel : nat) (ad : adapter_defaults) (st : Z) (r : string) :
  4 <= fuel -> names_nonempty (ad_common ad) = true -> validate_status st = true ->
  exists rq m r', build_request ad = Some rq
    /\ exchange_run dec utf8_text fuel ad (WireResponse st (Some "zstd") (zstd_magic ++ r)) = Some (Exited 0 m)
    /\ utf8_text (zstd_magic ++ r) = "(" ::: r'
    /\ world m = mk_effects ["(" ::: r'] [] [rq].
Proof.
  intros Hf Hd Hv.
  destruct (utf8_ascii_head (chr 40) (chr 181 ::: chr 47 ::: chr 253 ::: r) ltac:(rewrite code_chr by lia; lia)) as [r' Hu].
  destruct (faucet_run_success fuel ad st (utf8_text (zstd_magic ++ r)) Hf Hd Hv) as (rq & m & E & Hr & Hw).
  exists rq, m, r'. unfold exchange_run, adapter_outcome. rewrite decompress_zstd.
  split; [exact E|]. split; [exact Hr|]. split; [exact Hu|].
  rewrite Hw. change (zstd_magic ++ r) with (chr 40 ::: chr 181 ::: chr 47 ::: chr 253 ::: r). rewrite Hu. change (chr 40) with "("%char. rewrite transform_response_paren.
  cbn [util_format format_arg map String.concat]. rewrite str_app_nil_r. reflexivity.
Qed.

End Zstd.

Lemma zstd_printed_undecoded_witness :
  (forall (c : ascii) (r : string), code c < 128 -> exists r', (fun s : string => s) (c ::: r) = c ::: r') /\
  exists rq m r', build_request axios_defaults = Some rq
    /\ exchange_run identity_decoders (fun s => s) 4 axios_defaults
         (WireResponse 200 (Some "zstd") (zstd_magic ++ "frame")) = Some (Exited 0 m)
    /\ (fun s : string => s) (zstd_magic ++ "frame") = "(" ::: r'
    /\ world m = mk_effects ["(" ::: r'] [] [rq].
Proof.
  assert (Hid : forall (c : ascii) (r : string), code c < 128 -> exists r', (fun s : string => s) (c ::: r) = c ::: r')
    by (intros c r _; exists r; reflexivity).
  split; [exact Hid|].
  apply (zstd_printed_undecoded identity_decoders (fun s => s) Hid 4 axios_defaults 200 "frame");
    vm_compute; reflexivity.
Defined.

(** A corrupt gzip body: the unzip stream's error rejects the request
    although the status is 200, and the catch handler of line 26 prints
    it. *)
Example gzip_error_rejects :
  option_map (fun s => stderr (world (mach s)))
    (exchange_run (mk_decoders (fun _ => inr ("Z_DATA_ERROR", "incorrect header check")) (fun b => inl b))
                  (fun s => s) 4 axios_defaults (WireResponse 200 (Some "GZIP") "not gzip"))
  = Some ["Error: AxiosError: incorrect header check"].
Proof. vm_compute. reflexivity. Qed.

(** A raw deflate body gets the zlib header [78 9C]; a zlib stream
    keeps its own. *)
Example deflate_header :
  zlib_header_fix "abc" = chr 120 ::: chr 156 ::: "abc" /\ zlib_header_fix (chr 120 ::: "abc") = chr 120 ::: "abc".
Proof. split; reflexivity. Qed.

End Adapter.
